(** * B2B lead pipeline: enrichment and scoring

    A shallow embedding of [lead_enricher.py] (class [LeadEnricher]) and
    [scoring_engine.py] (class [ScoringEngine]), of the helpers of
    [utils.py] and of the data path of [process_leads] in [app.py], with
    the properties of the pipeline proved about it.

    Modelling conventions.
    - A Python [float] is an exact rational ([Q]); sums, products and
      comparisons are the exact ones, and two numbers are compared with
      [==].  Rounding of binary floating point is modelled for
      [update_weights] alone, in [Binary64], on the floats of the kernel.
    - A Python [str] is a [string] whose characters are the code points
      0..255 (ASCII and Latin-1); [str.lower], the regular-expression class
      [\s] and the class [a-zA-Z] are the ones of CPython on that range.
    - A [dict] and a [pandas.Series] are finite maps from column names to
      values ([gmap string _]); a [DataFrame] is the list of its rows.
      Where the labels of the columns matter, a table is its labels and
      its rows of cells ([Frame.DataFrame]), every row holding one cell
      for each column, and [Frame.iterrows] gives its rows.
    - An exception is a value of [pyerr]; code that can raise returns
      [pyerr + _].
    - The module [random] is a source of uniform draws in the interval
      from 0 (included) to 1 (excluded), read one at a time: the state of
      the generator is threaded through the code, and every call of
      [random], [uniform], [choice], [choices] or [randint] reads one
      draw. *)

From Stdlib Require Import QArith Qround Lqa ZArith Lia Ascii String List.
From Stdlib Require Import PrimFloat FloatOps SpecFloat.
From stdpp Require Import gmap strings pretty.

Local Open Scope string_scope.

(** ** Python text *)

Module Text.

Definition code (c : ascii) : N := N_of_ascii c.

Definition between (lo hi : N) (c : ascii) : bool :=
  ((lo <=? code c) && (code c <=? hi))%N.

(** The class [a-zA-Z] of [re]. *)
Definition is_letter (c : ascii) : bool :=
  between 65 90 c || between 97 122 c.

(** The class [\s] of [re] on a [str] pattern: the characters for which
    [str.isspace] holds.  Below 256 these are tab, line feed, vertical
    tab, form feed, carriage return, the separators 28..31, the space,
    NEL (133) and the no-break space (160). *)
Definition is_space (c : ascii) : bool :=
  between 9 13 c || between 28 32 c
  || (code c =? 133)%N || (code c =? 160)%N.

(** [str.lower] on one character: A..Z, and the Latin-1 capitals
    192..222 except the multiplication sign 215, move up by 32. *)
Definition lower_char (c : ascii) : ascii :=
  if between 65 90 c
     || (between 192 222 c && negb (code c =? 215)%N)
  then ascii_of_N (code c + 32)
  else c.

Fixpoint lower (s : string) : string :=
  match s with
  | EmptyString => EmptyString
  | String c r => String (lower_char c) (lower r)
  end.

(** [s.startswith(p)]. *)
Fixpoint startswith (p s : string) : bool :=
  match p, s with
  | EmptyString, _ => true
  | String _ _, EmptyString => false
  | String a p', String b s' => Ascii.eqb a b && startswith p' s'
  end.

(** [p in s]: [p] occurs in [s] as a contiguous substring. *)
Fixpoint contains (p s : string) : bool :=
  startswith p s
  || match s with
     | EmptyString => false
     | String _ s' => contains p s'
     end.

(** [any(p in s for p in patterns)]. *)
Definition any_in (patterns : list string) (s : string) : bool :=
  existsb (fun p => contains p s) patterns.

(** [re.sub(cls, '', s)] for a negated character class: the characters
    outside [f] are deleted. *)
Fixpoint keep (f : ascii -> bool) (s : string) : string :=
  match s with
  | EmptyString => EmptyString
  | String c r => if f c then String c (keep f r) else keep f r
  end.

(** [s.replace(a, b)] for one-character [a] and [b]. *)
Fixpoint replace_char (a b : ascii) (s : string) : string :=
  match s with
  | EmptyString => EmptyString
  | String c r =>
      String (if Ascii.eqb c a then b else c) (replace_char a b r)
  end.

(** [sep.join(parts)]. *)
Fixpoint join (sep : string) (parts : list string) : string :=
  match parts with
  | [] => EmptyString
  | [p] => p
  | p :: rest => p ++ sep ++ join sep rest
  end.

(** The mathematical reading of "occurs as a substring". *)
Definition occurs (p s : string) : Prop :=
  exists before after, s = before ++ p ++ after.

(** One of [patterns] occurs in [s]. *)
Definition hits (patterns : list string) (s : string) : Prop :=
  exists p, In p patterns /\ occurs p s.

End Text.

(** ** Python values, exceptions and the module [random] *)

Module Py.

(** A cell of a [pandas.Series] or a value of a [dict]: a [str] or a
    number ([nan] and the other floats are numbers). *)
Inductive pyval : Type :=
| Str (s : string)
| Num (q : Q).

Inductive pyerr : Type :=
| KeyError (key : string)
| AttributeError (attr : string)
| TypeError
| IndexError.

(** The state of the generator: the stream of the uniform draws it will
    return and the position of the next one. *)
Record rng : Type := { draws : nat -> Q; cursor : nat }.

Definition advance (g : rng) : rng :=
  {| draws := draws g; cursor := S (cursor g) |}.

(** Every draw lies in the half-open unit interval, as [random.random]
    promises. *)
Definition rng_ok (g : rng) : Prop :=
  forall n, (0 <= draws g n /\ draws g n < 1)%Q.

(** Code that reads the generator and may raise. *)
Definition M (A : Type) : Type := rng -> (pyerr + A) * rng.

Definition ret {A} (a : A) : M A := fun g => (inr a, g).

Definition raise {A} (e : pyerr) : M A := fun g => (inl e, g).

Definition bind {A B} (m : M A) (k : A -> M B) : M B :=
  fun g =>
    match m g with
    | (inl e, g') => (inl e, g')
    | (inr a, g') => k a g'
    end.

Notation "x <- m ;; k" := (bind m (fun x => k))
  (at level 20, m at level 99, k at level 200, only parsing).

(** [row[key]]. *)
Definition getitem {V} (row : gmap string V) (key : string) : M V :=
  match row !! key with
  | Some v => ret v
  | None => raise (KeyError key)
  end.

(** [d.get(key, default)] on a dict with [str] keys: a key that is not a
    [str] is never found. *)
Definition dict_get {V} (d : gmap string V) (key : pyval) (default : V) : V :=
  match key with
  | Str s => match d !! s with Some v => v | None => default end
  | Num _ => default
  end.

(** [v == s] for a [str] literal [s]. *)
Definition eq_str (v : pyval) (s : string) : bool :=
  match v with
  | Str t => String.eqb t s
  | Num _ => false
  end.

(** [v.lower()]: only a [str] has the method. *)
Definition str_lower (v : pyval) : M string :=
  match v with
  | Str s => ret (Text.lower s)
  | Num _ => raise (AttributeError "lower")
  end.

Definition Qlt_bool (x y : Q) : bool := negb (Qle_bool y x).

(** [min(a, b)] keeps [a] unless [b < a]; [max(a, b)] keeps [a] unless
    [b > a]. *)
Definition pymin (a b : Q) : Q := if Qlt_bool b a then b else a.
Definition pymax (a b : Q) : Q := if Qlt_bool a b then b else a.

(** Round to the nearest integer, ties to even. *)
Definition round_half_even (q : Q) : Z :=
  let f := Qfloor q in
  let r := (q - inject_Z f)%Q in
  if Qlt_bool r (1 # 2) then f
  else if Qlt_bool (1 # 2) r then (f + 1)%Z
  else if Z.even f then f else (f + 1)%Z.

(** [round(q, 1)]. *)
Definition round1 (q : Q) : Q :=
  (inject_Z (round_half_even (q * 10)) / 10)%Q.

(** [sum(d.values())]. *)
Definition sum_values (d : gmap string Q) : Q :=
  map_fold (fun _ v acc => (acc + v)%Q) 0%Q d.

(** [sum(l)] for a list of numbers. *)
Definition sum_list (l : list Q) : Q :=
  fold_left Qplus l 0%Q.

(** [random.random()]. *)
Definition random : M Q :=
  fun g => (inr (draws g (cursor g)), advance g).

(** [random.uniform(a, b)] is [a + (b - a) * random()]. *)
Definition uniform (a b : Q) : M Q :=
  u <- random ;; ret (a + (b - a) * u)%Q.

(** [Random._randbelow(n)], idealised: CPython draws random bits until
    they make a number below [n]; here the index is the integer part of
    [u * n] for one uniform draw [u]. *)
Definition randbelow (n : Z) : M Z :=
  u <- random ;; ret (Qfloor (u * inject_Z n)).

(** [random.choice(seq)]. *)
Definition choice {A} (seq : list A) : M A :=
  match seq with
  | [] => raise IndexError
  | _ =>
      i <- randbelow (Z.of_nat (List.length seq)) ;;
      match seq !! Z.to_nat i with
      | Some x => ret x
      | None => raise IndexError
      end
  end.

(** [random.randint(a, b)] is [a + randbelow(b - a + 1)]. *)
Definition randint (a b : Z) : M Z :=
  i <- randbelow (b - a + 1)%Z ;; ret (a + i)%Z.

(** [itertools.accumulate(weights)]: the running sums. *)
Fixpoint running (acc : Q) (ws : list Q) : list Q :=
  match ws with
  | [] => []
  | w :: rest => (acc + w)%Q :: running (acc + w)%Q rest
  end.

Definition accumulate (ws : list Q) : list Q :=
  match ws with
  | [] => []
  | w :: rest => w :: running w rest
  end.

(** [bisect.bisect(a, x, lo, hi)]: the binary search of the standard
    library; the interval halves at every turn, so [hi - lo + 1] turns
    suffice. *)
Fixpoint bisect_loop (turns : nat) (a : list Q) (x : Q) (lo hi : nat) : nat :=
  match turns with
  | O => lo
  | S turns' =>
      if (lo <? hi)%nat then
        let mid := ((lo + hi) / 2)%nat in
        if Qlt_bool x (nth mid a 0%Q)
        then bisect_loop turns' a x lo mid
        else bisect_loop turns' a x (S mid) hi
      else lo
  end.

Definition bisect (a : list Q) (x : Q) (lo hi : nat) : nat :=
  bisect_loop (S (hi - lo)) a x lo hi.

(** [random.choices(population, weights=weights)[0]]. *)
Definition choices {A} (population : list A) (weights : list Q) : M A :=
  u <- random ;;
  let cum_weights := accumulate weights in
  let total := List.last cum_weights 0%Q in
  let hi := (List.length population - 1)%nat in
  match population !! bisect cum_weights (u * total)%Q 0 hi with
  | Some x => ret x
  | None => raise IndexError
  end.

(** [m] returns, whatever a lawful generator holds, a value that
    satisfies [post], and leaves the generator lawful. *)
Definition succeeds {A} (m : M A) (post : A -> Prop) : Prop :=
  forall g, rng_ok g ->
    exists a g', m g = (inr a, g') /\ rng_ok g' /\ post a.

End Py.

(** ** [lead_enricher.py]: class [LeadEnricher] *)

Module LeadEnricher.
Import Py.

(** [self.job_titles] *)
Definition job_titles : gmap string (list string) :=
  list_to_map
    [ ("technical",
       [ "Software Engineer"; "Senior Software Engineer"; "Lead Developer";
         "Full Stack Developer"; "Frontend Developer"; "Backend Developer";
         "DevOps Engineer"; "Site Reliability Engineer"; "Data Engineer";
         "Machine Learning Engineer"; "AI Engineer"; "Cloud Architect" ]);
      ("management",
       [ "Engineering Manager"; "Technical Lead"; "Team Lead";
         "Principal Engineer"; "Staff Engineer"; "Senior Technical Lead" ]);
      ("executive",
       [ "CTO"; "VP Engineering"; "Head of Engineering";
         "Director of Technology"; "Chief Technology Officer";
         "VP of Product"; "Head of IT" ]);
      ("decision_maker",
       [ "CEO"; "Founder"; "Co-Founder"; "President"; "VP Sales";
         "Chief Executive Officer"; "Managing Director" ]);
      ("other",
       [ "Product Manager"; "Project Manager"; "Business Analyst";
         "Technical Writer"; "QA Engineer"; "Sales Engineer" ]) ].

(** [self.tech_stacks] *)
Definition tech_stacks : list string :=
  [ "React, Node.js, MongoDB";
    "Python, Django, PostgreSQL";
    "Java, Spring Boot, MySQL";
    "Vue.js, Express, Redis";
    "Angular, .NET, SQL Server";
    "Ruby on Rails, PostgreSQL";
    "PHP, Laravel, MySQL";
    "Go, Kubernetes, Docker";
    "Scala, Spark, Cassandra";
    "Swift, iOS, Firebase";
    "Kotlin, Android, SQLite";
    "TypeScript, Next.js, Prisma" ].

(** [self.company_sizes] *)
Definition company_sizes : list string :=
  [ "Startup"; "Small"; "Medium"; "Large"; "Enterprise" ].

Definition decision_maker_patterns : list string :=
  [ "ceo"; "founder"; "president"; "exec" ].
Definition executive_patterns : list string :=
  [ "cto"; "vp"; "head"; "director" ].
Definition technical_patterns : list string :=
  [ "dev"; "engineer"; "tech"; "code" ].
Definition management_patterns : list string :=
  [ "manager"; "lead"; "principal" ].
Definition name_titles : list string := [ "dr"; "prof"; "phd" ].

Definition category_weights : list Q := [ 0.4; 0.25; 0.15; 0.1; 0.1 ]%Q.
Definition categories : list string :=
  [ "technical"; "management"; "executive"; "decision_maker"; "other" ].

Definition _determine_job_category (email name : pyval) : M string :=
  email_lower <- str_lower email ;;
  name_lower <- str_lower name ;;
  if Text.any_in decision_maker_patterns email_lower then ret "decision_maker"
  else if Text.any_in executive_patterns email_lower then ret "executive"
  else if Text.any_in technical_patterns email_lower then ret "technical"
  else if Text.any_in management_patterns email_lower then ret "management"
  else if Text.any_in name_titles name_lower then ret "technical"
  else choices categories category_weights.

Definition _determine_seniority (job_title : string) (email : pyval) : M string :=
  let title_lower := Text.lower job_title in
  email_lower <- str_lower email ;;
  if Text.any_in [ "ceo"; "cto"; "vp"; "head"; "director"; "chief" ] title_lower
  then ret "Executive"
  else if Text.any_in [ "senior"; "lead"; "principal"; "staff"; "manager" ]
            title_lower
  then ret "Senior"
  else if Text.any_in [ "junior"; "associate"; "intern" ] title_lower
  then ret "Junior"
  else choice [ "Mid-level"; "Senior" ].

Definition linkedin_prefix : string := "https://linkedin.com/in/".

(** The characters [re.sub(r'[^a-zA-Z\s]', '', name)] keeps. *)
Definition kept (c : ascii) : bool := Text.is_letter c || Text.is_space c.

Definition _generate_linkedin_url (name : pyval) : M string :=
  match name with
  | Str s =>
      let clean_name := Text.keep kept s in
      let url_name := Text.replace_char " " "-" (Text.lower clean_name) in
      ret (linkedin_prefix ++ url_name)
  | Num _ => raise TypeError
  end.

Definition large_domains : list string :=
  [ "google"; "microsoft"; "apple"; "amazon"; "facebook"; "netflix" ].

Definition size_weights : list Q := [ 0.2; 0.3; 0.3; 0.15; 0.05 ]%Q.

Definition _determine_company_size (domain : pyval) : M string :=
  domain_lower <- str_lower domain ;;
  if Text.any_in large_domains domain_lower then ret "Enterprise"
  else choices company_sizes size_weights.

Definition _generate_phone_number : M string :=
  area_code <- randint 200 999 ;;
  exchange <- randint 200 999 ;;
  number <- randint 1000 9999 ;;
  ret ("+1 (" ++ pretty area_code ++ ") " ++ pretty exchange
         ++ "-" ++ pretty number).

Definition _enrich_single_lead (lead : gmap string pyval)
  : M (gmap string pyval) :=
  name <- getitem lead "name" ;;
  email <- getitem lead "email" ;;
  company_domain <- getitem lead "company_domain" ;;
  job_category <- _determine_job_category email name ;;
  titles <- getitem job_titles job_category ;;
  job_title <- choice titles ;;
  seniority <- _determine_seniority job_title email ;;
  linkedin_url <- _generate_linkedin_url name ;;
  tech_stack <- choice tech_stacks ;;
  company_size <- _determine_company_size company_domain ;;
  phone <- _generate_phone_number ;;
  ret (list_to_map
         [ ("name", name);
           ("email", email);
           ("company_domain", company_domain);
           ("job_title", Str job_title);
           ("seniority_level", Str seniority);
           ("linkedin_url", Str linkedin_url);
           ("tech_stack", Str tech_stack);
           ("company_size", Str company_size);
           ("phone", Str phone);
           ("job_category", Str job_category) ]).

(** The loop over [df.iterrows()]: an exception raised for one row leaves
    the loop and the method. *)
Fixpoint enrich_leads (df : list (gmap string pyval))
  : M (list (gmap string pyval)) :=
  match df with
  | [] => ret []
  | row :: rest =>
      enriched_lead <- _enrich_single_lead row ;;
      enriched_data <- enrich_leads rest ;;
      ret (enriched_lead :: enriched_data)
  end.

End LeadEnricher.

(** ** [scoring_engine.py]: class [ScoringEngine] *)

Module ScoringEngine.
Import Py.

(** The object: [self.weights] is the only attribute ever assigned after
    [__init__]; the three tables of [__init__] are constants. *)
Record t : Type := { weights : gmap string Q }.

Definition __init__ : t :=
  {| weights :=
       <[ "job_title" := 0.4%Q ]>
         (<[ "tech_stack" := 0.3%Q ]>
            (<[ "buying_intent" := 0.3%Q ]> ∅)) |}.

(** [self.job_title_scores] *)
Definition job_title_scores : gmap string (Q * Q) :=
  list_to_map
    [ ("decision_maker", (90, 100)%Q);
      ("executive", (80, 95)%Q);
      ("management", (70, 85)%Q);
      ("technical", (60, 80)%Q);
      ("other", (30, 60)%Q) ].

(** [self.high_value_tech] *)
Definition high_value_tech : list string :=
  [ "react"; "node.js"; "python"; "kubernetes"; "docker";
    "aws"; "azure"; "microservices"; "api"; "cloud" ].

(** [self.size_multipliers] *)
Definition size_multipliers : gmap string Q :=
  list_to_map
    [ ("Enterprise", 1.2%Q);
      ("Large", 1.1%Q);
      ("Medium", 1.0%Q);
      ("Small", 0.9%Q);
      ("Startup", 0.8%Q) ].

Definition update_weights (self : t) (new_weights : gmap string Q) : t :=
  let total_weight := sum_values new_weights in
  if Qlt_bool 0 total_weight
  then {| weights := (fun v => v / total_weight)%Q <$> new_weights |}
  else self.

(** [max(0, min(100, x))] *)
Definition clamp (x : Q) : Q := pymax 0 (pymin 100 x).

Definition job_seniority_bonus : gmap string Q :=
  list_to_map
    [ ("Executive", 10%Q); ("Senior", 5%Q);
      ("Mid-level", 0%Q); ("Junior", (-10)%Q) ].

Definition _score_job_title (job_category seniority : pyval) : M Q :=
  let base_range := dict_get job_title_scores job_category (30, 60)%Q in
  base_score <- uniform (fst base_range) (snd base_range) ;;
  let seniority_bonus := dict_get job_seniority_bonus seniority 0%Q in
  ret (clamp (base_score + seniority_bonus)).

(** The number of terms of the vocabulary found in the lowercased text. *)
Definition tech_matches (tech_lower : string) : nat :=
  List.length
    (List.filter (fun tech => Text.contains tech tech_lower) high_value_tech).

Definition _score_tech_stack (tech_stack : pyval) : M Q :=
  tech_lower <- str_lower tech_stack ;;
  let matches := tech_matches tech_lower in
  base_score <-
    (if (3 <=? matches)%nat then uniform 85 100
     else if (2 <=? matches)%nat then uniform 70 90
     else if (1 <=? matches)%nat then uniform 55 75
     else uniform 30 60) ;;
  ret base_score.

Definition intent_size_bonus : gmap string Q :=
  list_to_map
    [ ("Enterprise", 15%Q); ("Large", 10%Q); ("Medium", 5%Q);
      ("Small", 0%Q); ("Startup", 10%Q) ].

Definition intent_seniority_bonus : gmap string Q :=
  list_to_map
    [ ("Executive", 15%Q); ("Senior", 10%Q);
      ("Mid-level", 5%Q); ("Junior", 0%Q) ].

Definition _score_buying_intent (lead : gmap string pyval) : M Q :=
  category <- getitem lead "job_category" ;;
  category_factor <-
    (if eq_str category "decision_maker" || eq_str category "executive"
     then ret 20%Q
     else
       category' <- getitem lead "job_category" ;;
       if eq_str category' "management" then ret 10%Q else ret 0%Q) ;;
  company_size <- getitem lead "company_size" ;;
  let size_bonus := dict_get intent_size_bonus company_size 0%Q in
  seniority_level <- getitem lead "seniority_level" ;;
  let seniority_bonus := dict_get intent_seniority_bonus seniority_level 0%Q in
  market_factor <- uniform 0 25 ;;
  let intent_factors :=
    [ category_factor; size_bonus; seniority_bonus; market_factor ] in
  let total_intent := sum_list intent_factors in
  noise <- uniform (-10) 10 ;;
  let final_intent := (total_intent + noise)%Q in
  ret (clamp final_intent).

Section Explanation.

(** The text an f-string prints for a number.  The decimal expansion that
    Python prints for a float is not modelled. *)
Variable repr_float : Q -> string.

Definition job_clause (job_score : Q) : string :=
  if Qle_bool 85 job_score then "High-value decision maker"
  else if Qle_bool 70 job_score then "Technical leader/manager"
  else if Qle_bool 50 job_score then "Technical professional"
  else "Lower relevance role".

Definition tech_clause (tech_score : Q) : string :=
  if Qle_bool 80 tech_score then "excellent tech fit"
  else if Qle_bool 60 tech_score then "good tech alignment"
  else "limited tech relevance".

Definition intent_clause (intent_score : Q) : string :=
  if Qle_bool 75 intent_score then "strong buying signals"
  else if Qle_bool 50 intent_score then "moderate buying intent"
  else "weak buying signals".

Definition _generate_explanation
    (job_score tech_score intent_score final_score : Q) : string :=
  let explanations :=
    [ job_clause job_score; tech_clause tech_score;
      intent_clause intent_score ] in
  Text.join ", " explanations ++ " (Score: " ++ repr_float final_score ++ ")".

Definition _score_single_lead (self : t) (lead : gmap string pyval)
  : M (gmap string pyval) :=
  job_category <- getitem lead "job_category" ;;
  seniority_level <- getitem lead "seniority_level" ;;
  job_title_score <- _score_job_title job_category seniority_level ;;
  tech_stack <- getitem lead "tech_stack" ;;
  tech_stack_score <- _score_tech_stack tech_stack ;;
  buying_intent_score <- _score_buying_intent lead ;;
  company_size <- getitem lead "company_size" ;;
  let size_multiplier := dict_get size_multipliers company_size 1.0%Q in
  w_job <- getitem (weights self) "job_title" ;;
  w_tech <- getitem (weights self) "tech_stack" ;;
  w_intent <- getitem (weights self) "buying_intent" ;;
  let final_score :=
    ((job_title_score * w_job
      + tech_stack_score * w_tech
      + buying_intent_score * w_intent) * size_multiplier)%Q in
  let final_score := clamp final_score in
  ret (<[ "job_title_score" := Num (round1 job_title_score) ]>
         (<[ "tech_stack_score" := Num (round1 tech_stack_score) ]>
            (<[ "buying_intent_score" := Num (round1 buying_intent_score) ]>
               (<[ "lead_score" := Num (round1 final_score) ]>
                  (<[ "score_explanation" :=
                        Str (_generate_explanation
                               job_title_score tech_stack_score
                               buying_intent_score final_score) ]>
                     lead))))).

Fixpoint score_leads (self : t) (df : list (gmap string pyval))
  : M (list (gmap string pyval)) :=
  match df with
  | [] => ret []
  | lead :: rest =>
      scored_lead <- _score_single_lead self lead ;;
      scored_data <- score_leads self rest ;;
      ret (scored_lead :: scored_data)
  end.

End Explanation.

End ScoringEngine.

(** ** [update_weights] on binary64 floats *)

Module Binary64.

(** The number a float stands for; an infinity and [nan] stand for
    none. *)
Definition to_Q (x : float) : option Q :=
  match Prim2SF x with
  | S754_zero _ => Some 0%Q
  | S754_finite s m e =>
      let n := if s then Z.neg m else Z.pos m in
      Some (if (0 <=? e)%Z then inject_Z (n * 2 ^ e)
            else Qmake n (2 ^ Z.to_pos (- e)))
  | S754_infinity _ => None
  | S754_nan => None
  end.

(** [sum(values)] adds from left to right, starting from 0.  (From
    CPython 3.12 on, [sum] also carries the rounding errors along and
    adds them at the end; the result is this one whenever no addition
    rounds, as with whole numbers.) *)
Definition sum (values : list float) : float :=
  fold_left PrimFloat.add values 0%float.

(** [{k: v/total_weight for k, v in new_weights.items()}], each quotient
    stored as the number it stands for. *)
Fixpoint normalized (total_weight : float) (items : list (string * float))
  : option (list (string * Q)) :=
  match items with
  | [] => Some []
  | (k, v) :: rest =>
      match to_Q (v / total_weight)%float, normalized total_weight rest with
      | Some q, Some stored => Some ((k, q) :: stored)
      | _, _ => None
      end
  end.

(** [update_weights(new_weights)] on the items of [new_weights], in the
    order of the dict, whose keys are distinct.  The engine of this
    development holds rational weights: the result is [None] when the
    update would store an infinity or [nan]. *)
Definition update_weights (self : ScoringEngine.t)
    (new_weights : list (string * float)) : option ScoringEngine.t :=
  let total_weight := sum (List.map snd new_weights) in
  if PrimFloat.ltb 0 total_weight
  then match normalized total_weight new_weights with
       | Some stored =>
           Some {| ScoringEngine.weights := list_to_map stored |}
       | None => None
       end
  else Some self.


End Binary64.

(** ** The slug as the specification words it *)

Module SlugSpec.

(** Every maximal run of whitespace becomes one hyphen; [in_run] tells
    that the character before was whitespace. *)
Fixpoint collapse_runs (in_run : bool) (s : string) : string :=
  match s with
  | EmptyString => EmptyString
  | String c r =>
      if Text.is_space c
      then if in_run then collapse_runs true r
           else String "-" (collapse_runs true r)
      else String c (collapse_runs false r)
  end.

(** Delete what is neither a letter nor whitespace, lowercase, replace
    each whitespace run with a single hyphen. *)
Definition slug (name : string) : string :=
  collapse_runs false (Text.lower (Text.keep LeadEnricher.kept name)).

(** Every whitespace character of [s] is a space that no whitespace
    follows: all whitespace runs are single spaces. *)
Fixpoint single_spaced (s : string) : bool :=
  match s with
  | EmptyString => true
  | String c r =>
      (if Text.is_space c
       then Ascii.eqb c " "
            && match r with
               | EmptyString => true
               | String d _ => negb (Text.is_space d)
               end
       else true)
      && single_spaced r
  end.

End SlugSpec.

(** ** The records of the data model *)

Module Schema.
Import Py.

Definition required_fields : list string :=
  [ "name"; "email"; "company_domain" ].

(** A raw lead: the three required fields, each a text. *)
Definition raw_lead (row : gmap string pyval) : Prop :=
  exists name email company_domain,
    row !! "name" = Some (Str name)
    /\ row !! "email" = Some (Str email)
    /\ row !! "company_domain" = Some (Str company_domain).

(** The first required field, in the order the enricher reads them, that
    the row lacks. *)
Definition first_missing (row : gmap string pyval) : option string :=
  match row !! "name", row !! "email", row !! "company_domain" with
  | None, _, _ => Some "name"
  | Some _, None, _ => Some "email"
  | Some _, Some _, None => Some "company_domain"
  | Some _, Some _, Some _ => None
  end.

(** What the scorer reads of an enriched lead: any value for the
    category, the seniority and the size, a text for the tech stack. *)
Definition enriched_lead (lead : gmap string pyval) : Prop :=
  is_Some (lead !! "job_category")
  /\ is_Some (lead !! "seniority_level")
  /\ is_Some (lead !! "company_size")
  /\ exists tech_stack, lead !! "tech_stack" = Some (Str tech_stack).

(** A weights state: the three weights are there, whatever their
    values. *)
Definition scoring_weights (w : gmap string Q) : Prop :=
  is_Some (w !! "job_title")
  /\ is_Some (w !! "tech_stack")
  /\ is_Some (w !! "buying_intent").

(** The fields the scorer writes. *)
Definition score_fields : list string :=
  [ "job_title_score"; "tech_stack_score"; "buying_intent_score";
    "lead_score"; "score_explanation" ].

End Schema.

(** ** Inputs used in the examples *)

Module Samples.
Import Py.

(** A generator that returns the draws of [l] and then 0 for ever. *)
Definition list_rng (l : list Q) : rng :=
  {| draws := fun n => nth n l 0%Q; cursor := 0 |}.

(** A stand-in for the text of a number: numerator, a slash, denominator. *)
Definition repr_fraction (q : Q) : string :=
  pretty (Qnum q) ++ "/" ++ pretty (Zpos (Qden q)).

Definition enriched_lead : gmap string pyval :=
  list_to_map
    [ ("name", Str "Jane Doe");
      ("email", Str "jane.doe@acme.com");
      ("company_domain", Str "acme.com");
      ("job_title", Str "Data Engineer");
      ("seniority_level", Str "Mid-level");
      ("linkedin_url", Str "https://linkedin.com/in/jane-doe");
      ("tech_stack", Str "Go, Kubernetes, Docker");
      ("company_size", Str "Medium");
      ("phone", Str "+1 (555) 555-5555");
      ("job_category", Str "technical") ].

Definition senior_lead : gmap string pyval :=
  list_to_map
    [ ("name", Str "John Smith");
      ("email", Str "john.smith@techcorp.com");
      ("company_domain", Str "techcorp.com");
      ("job_title", Str "Senior Software Engineer");
      ("seniority_level", Str "Senior");
      ("linkedin_url", Str "https://linkedin.com/in/john-smith");
      ("tech_stack", Str "Python, Django, PostgreSQL");
      ("company_size", Str "Small");
      ("phone", Str "+1 (444) 444-4444");
      ("job_category", Str "technical") ].


Definition raw_row : gmap string pyval :=
  list_to_map
    [ ("name", Str "Jane Doe");
      ("email", Str "jane.doe@acme.com");
      ("company_domain", Str "acme.com") ].

(** An enriched lead whose category and company size are outside the
    tables of the scorer. *)
Definition unlisted_lead : gmap string pyval :=
  list_to_map
    [ ("name", Str "Jane Doe");
      ("email", Str "jane.doe@acme.com");
      ("company_domain", Str "acme.com");
      ("job_title", Str "Advisor");
      ("seniority_level", Str "Junior");
      ("linkedin_url", Str "https://linkedin.com/in/jane-doe");
      ("tech_stack", Str "Go, Kubernetes, Docker");
      ("company_size", Str "Unknown");
      ("phone", Str "+1 (555) 555-5555");
      ("job_category", Str "advisor") ].

(** An enriched lead with the largest bonuses of the buying intent. *)
Definition executive_lead : gmap string pyval :=
  list_to_map
    [ ("name", Str "Ada Founder");
      ("email", Str "ada@bigco.com");
      ("company_domain", Str "bigco.com");
      ("job_title", Str "CEO");
      ("seniority_level", Str "Executive");
      ("linkedin_url", Str "https://linkedin.com/in/ada-founder");
      ("tech_stack", Str "Go, Kubernetes, Docker");
      ("company_size", Str "Enterprise");
      ("phone", Str "+1 (555) 555-5555");
      ("job_category", Str "decision_maker") ].

(** Every draw of the list lies in the unit interval, 1 excluded. *)
Definition unit_draws (l : list Q) : bool :=
  forallb (fun q => Qle_bool 0 q && Qlt_bool q 1) l.

End Samples.

(** ** The shape of an enriched record *)

Module Enriched.
Import Py.

Definition is_digit (c : ascii) : bool := Text.between 48 57 c.

(** [s] has the shape of [mask]: a [d] of the mask stands for one decimal
    digit, any other character for itself. *)
Fixpoint fits (mask s : string) : bool :=
  match mask, s with
  | EmptyString, EmptyString => true
  | String m mask', String c s' =>
      (if Ascii.eqb m "d" then is_digit c else Ascii.eqb m c)
      && fits mask' s'
  | _, _ => false
  end.

Definition phone_mask : string := "+1 (ddd) ddd-dddd".

(** The decimal text of every number from [lo] on, [count] numbers in
    all, has [digits] digits and nothing else. *)
Definition decimal_texts (digits : nat) (lo count : Z) : bool :=
  forallb
    (fun z =>
       fits (String.concat EmptyString (repeat "d" digits)) (pretty z))
    (seqZ lo count).

Definition fields : list string :=
  [ "name"; "email"; "company_domain"; "job_title"; "seniority_level";
    "linkedin_url"; "tech_stack"; "company_size"; "phone"; "job_category" ].

(** [out] has the ten fields and no other, each a text, and its first
    three are those of [row]. *)
Definition extends (row out : gmap string pyval) : Prop :=
  out !! "name" = row !! "name"
  /\ out !! "email" = row !! "email"
  /\ out !! "company_domain" = row !! "company_domain"
  /\ (forall field, In field fields -> exists s, out !! field = Some (Str s))
  /\ (forall field, is_Some (out !! field) -> In field fields).

(** The values the enricher gives to the seven fields it adds. *)
Definition values (out : gmap string pyval) : Prop :=
  exists name category pool title seniority tech size phone,
    out !! "name" = Some (Str name)
    /\ out !! "job_category" = Some (Str category)
    /\ LeadEnricher.job_titles !! category = Some pool
    /\ out !! "job_title" = Some (Str title)
    /\ In title pool
    /\ out !! "seniority_level" = Some (Str seniority)
    /\ In seniority [ "Executive"; "Senior"; "Mid-level" ]
    /\ out !! "linkedin_url"
       = Some (Str (LeadEnricher.linkedin_prefix
                    ++ Text.replace_char " " "-"
                         (Text.lower (Text.keep LeadEnricher.kept name))))
    /\ out !! "tech_stack" = Some (Str tech)
    /\ In tech LeadEnricher.tech_stacks
    /\ out !! "company_size" = Some (Str size)
    /\ In size LeadEnricher.company_sizes
    /\ out !! "phone" = Some (Str phone)
    /\ fits phone_mask phone = true.

End Enriched.

(** ** The shape of a scored record *)

Module Scored.
Import Py.

(** [scored] is [lead] with the five score fields written: four numbers
    between 0 and 100 and a text. *)
Definition extends (lead scored : gmap string pyval) : Prop :=
  (forall field, ~ In field Schema.score_fields ->
                 scored !! field = lead !! field)
  /\ exists job tech intent total explanation,
       scored !! "job_title_score" = Some (Num job)
       /\ scored !! "tech_stack_score" = Some (Num tech)
       /\ scored !! "buying_intent_score" = Some (Num intent)
       /\ scored !! "lead_score" = Some (Num total)
       /\ scored !! "score_explanation" = Some (Str explanation)
       /\ (0 <= job /\ job <= 100)%Q
       /\ (0 <= tech /\ tech <= 100)%Q
       /\ (0 <= intent /\ intent <= 100)%Q
       /\ (0 <= total /\ total <= 100)%Q.

End Scored.

(** ** [app.py]: the data path of [process_leads] *)

Module App.
Import Py.

Section Pipeline.

Variable repr_float : Q -> string.

(** The table is enriched, then scored, and the result is kept in
    [st.session_state.processed_leads]; when either step raises, the
    exception is caught and the stored table is left as it was.  The
    messages and the progress bar are not modelled. *)
Definition process_leads (scorer : ScoringEngine.t)
    (df : list (gmap string pyval))
    (processed_leads : option (list (gmap string pyval))) (g : rng)
  : option (list (gmap string pyval)) * rng :=
  match (enriched_df <- LeadEnricher.enrich_leads df ;;
         ScoringEngine.score_leads repr_float scorer enriched_df) g with
  | (inr scored_df, g') => (Some scored_df, g')
  | (inl _, g') => (processed_leads, g')
  end.

End Pipeline.

End App.

(** ** Regular expressions, as far as [utils.py] uses them *)

Module Re.

Inductive regex : Type :=
| Empty
| Eps
| Class (f : ascii -> bool)
| Alt (r1 r2 : regex)
| Seq (r1 r2 : regex)
| Star (r : regex).

Fixpoint nullable (r : regex) : bool :=
  match r with
  | Empty => false
  | Eps => true
  | Class _ => false
  | Alt r1 r2 => nullable r1 || nullable r2
  | Seq r1 r2 => nullable r1 && nullable r2
  | Star _ => true
  end.

(** What is left of [r] to match after the character [c]. *)
Fixpoint deriv (c : ascii) (r : regex) : regex :=
  match r with
  | Empty => Empty
  | Eps => Empty
  | Class f => if f c then Eps else Empty
  | Alt r1 r2 => Alt (deriv c r1) (deriv c r2)
  | Seq r1 r2 =>
      if nullable r1
      then Alt (Seq (deriv c r1) r2) (deriv c r2)
      else Seq (deriv c r1) r2
  | Star r1 => Seq (deriv c r1) (Star r1)
  end.

(** The whole of [s] matches [r]. *)
Fixpoint fullmatch (r : regex) (s : string) : bool :=
  match s with
  | EmptyString => nullable r
  | String c s' => fullmatch (deriv c r) s'
  end.

(** [r+] and [r{2,}] *)
Definition plus (r : regex) : regex := Seq r (Star r).
Definition at_least_two (r : regex) : regex := Seq r (Seq r (Star r)).

(** [s] without its last character when that is a line feed. *)
Fixpoint before_final_newline (s : string) : option string :=
  match s with
  | EmptyString => None
  | String c EmptyString =>
      if Ascii.eqb c "010" then Some EmptyString else None
  | String c s' =>
      match before_final_newline s' with
      | Some t => Some (String c t)
      | None => None
      end
  end.

(** [bool(re.compile('^r$').match(s))]: the pattern must match from the
    start, and [$] holds at the end of the text or just before a line
    feed that ends it. *)
Definition match_anchored (r : regex) (s : string) : bool :=
  fullmatch r s
  || match before_final_newline s with
     | Some t => fullmatch r t
     | None => false
     end.

End Re.

(** ** [utils.py] *)

Module Utils.
Import Py.

(** [s.strip()] *)
Fixpoint lstrip (s : string) : string :=
  match s with
  | EmptyString => EmptyString
  | String c r => if Text.is_space c then lstrip r else s
  end.

Fixpoint rstrip (s : string) : string :=
  match s with
  | EmptyString => EmptyString
  | String c r =>
      match rstrip r with
      | EmptyString => if Text.is_space c then EmptyString
                       else String c EmptyString
      | String d t => String c (String d t)
      end
  end.

Definition strip (s : string) : string := rstrip (lstrip s).

(** [s[n:]] *)
Fixpoint drop (n : nat) (s : string) : string :=
  match n, s with
  | O, _ => s
  | S _, EmptyString => EmptyString
  | S n', String _ r => drop n' r
  end.

(** [s.split(sep)] for a one-character separator. *)
Fixpoint split (sep : ascii) (s : string) : list string :=
  match s with
  | EmptyString => [ EmptyString ]
  | String c r =>
      if Ascii.eqb c sep then EmptyString :: split sep r
      else match split sep r with
           | part :: parts => String c part :: parts
           | [] => [ String c EmptyString ]
           end
  end.

Definition is_digit (c : ascii) : bool := Text.between 48 57 c.

(** Every character of [s] satisfies [f]. *)
Fixpoint all_chars (f : ascii -> bool) (s : string) : bool :=
  match s with
  | EmptyString => true
  | String c r => f c && all_chars f r
  end.

(** [c] is not the character [sep]. *)
Definition is_not (sep c : ascii) : bool := negb (Ascii.eqb c sep).

(** The classes [a-zA-Z0-9._%+-] and [a-zA-Z0-9.-] *)
Definition local_char (c : ascii) : bool :=
  Text.is_letter c || is_digit c
  || Ascii.eqb c "." || Ascii.eqb c "_" || Ascii.eqb c "%"
  || Ascii.eqb c "+" || Ascii.eqb c "-".

Definition domain_char (c : ascii) : bool :=
  Text.is_letter c || is_digit c || Ascii.eqb c "." || Ascii.eqb c "-".

(** [^[a-zA-Z0-9._%+-]+@[a-zA-Z0-9.-]+\.[a-zA-Z]{2,}$] without its
    anchors. *)
Definition email_pattern : Re.regex :=
  Re.Seq (Re.plus (Re.Class local_char))
    (Re.Seq (Re.Class (Ascii.eqb "@"))
       (Re.Seq (Re.plus (Re.Class domain_char))
          (Re.Seq (Re.Class (Ascii.eqb "."))
             (Re.at_least_two (Re.Class Text.is_letter))))).

Definition validate_email (email : string) : bool :=
  Re.match_anchored email_pattern email.

(** [email.split('@')[1].lower()], and the empty text when there is no
    second part or when the email is not a text: [IndexError] and
    [AttributeError] are caught. *)
Definition extract_domain (email : pyval) : string :=
  match email with
  | Str s =>
      match split "@" s with
      | _ :: domain :: _ => Text.lower domain
      | _ => EmptyString
      end
  | Num _ => EmptyString
  end.

Definition format_score_color (score : Q) : string :=
  if Qle_bool 80 score then "#28a745"
  else if Qle_bool 60 score then "#ffc107"
  else "#dc3545".

Record metrics : Type :=
  { total_leads : nat;
    high_quality : nat;
    medium_quality : nat;
    low_quality : nat;
    average_score : Q;
    quality_rate : Q }.

Definition count (f : Q -> bool) (scores : list Q) : nat :=
  List.length (List.filter f scores).

Definition of_nat (n : nat) : Q := inject_Z (Z.of_nat n).

(** [calculate_quality_metrics(df)], the table given by its column
    [lead_score]. *)
Definition calculate_quality_metrics (lead_score : list Q) : metrics :=
  match lead_score with
  | [] =>
      {| total_leads := 0; high_quality := 0; medium_quality := 0;
         low_quality := 0; average_score := 0; quality_rate := 0 |}
  | _ =>
      let total_leads := List.length lead_score in
      let high_quality := count (fun s => Qle_bool 80 s) lead_score in
      let medium_quality :=
        count (fun s => Qle_bool 60 s && Qlt_bool s 80) lead_score in
      let low_quality := count (fun s => Qlt_bool s 60) lead_score in
      let average_score := (sum_list lead_score / of_nat total_leads)%Q in
      let quality_rate :=
        if (0 <? total_leads)%nat
        then (of_nat high_quality / of_nat total_leads * 100)%Q
        else 0%Q in
      {| total_leads := total_leads;
         high_quality := high_quality;
         medium_quality := medium_quality;
         low_quality := low_quality;
         average_score := round1 average_score;
         quality_rate := round1 quality_rate |}
  end.

(** [p] holds a colon, and no slash before its first colon. *)
Fixpoint colon_first (p : string) : bool :=
  match p with
  | EmptyString => false
  | String c p' =>
      if Ascii.eqb c ":" then true
      else if Ascii.eqb c "/" then false
      else colon_first p'
  end.

Definition prefixes : list string := [ "http://"; "https://"; "www." ].

(** The loop of [clean_company_domain] over the prefixes. *)
Definition strip_prefixes (domain : string) : string :=
  fold_left
    (fun domain prefix =>
       if Text.startswith prefix domain
       then drop (String.length prefix) domain
       else domain)
    prefixes domain.

(** [clean_company_domain(domain)]: an empty text and a zero are falsy;
    any other number has no method [lower]. *)
Definition clean_company_domain (domain : pyval) : pyerr + string :=
  match domain with
  | Num q =>
      if Qeq_bool q 0 then inr EmptyString
      else inl (AttributeError "lower")
  | Str EmptyString => inr EmptyString
  | Str s =>
      let domain := strip (Text.lower s) in
      let domain := strip_prefixes domain in
      inr (hd EmptyString (split "/" domain))
  end.

End Utils.

(** ** [utils.py]: the table and its columns *)

Module Frame.
Import Py.

(** A [pandas.DataFrame] whose labels are texts: the labels of the
    columns and the rows, each row holding one cell for each column.
    [df[label]] and [row[label]] are modelled for labels that occur once
    (two columns with one label make pandas return a table where a column
    or a cell is expected). *)
Record DataFrame : Type :=
  { columns : list string; data : list (list pyval) }.

Definition well_formed (df : DataFrame) : Prop :=
  Forall (fun row => List.length row = List.length (columns df)) (data df).

(** [labels.index(label)] *)
Fixpoint index (label : string) (labels : list string) : option nat :=
  match labels with
  | [] => None
  | l :: rest =>
      if String.eqb label l then Some 0%nat
      else match index label rest with
           | Some i => Some (S i)
           | None => None
           end
  end.

(** [label in labels] *)
Definition mem (label : string) (labels : list string) : bool :=
  existsb (String.eqb label) labels.

(** The rows as [df.iterrows()] gives them. *)
Definition iterrows (df : DataFrame) : list (gmap string pyval) :=
  List.map (fun row => list_to_map (zip (columns df) row)) (data df).

Definition required_mappings : list (string * list string) :=
  [ ("name", [ "name"; "full_name"; "contact_name"; "lead_name" ]);
    ("email", [ "email"; "email_address"; "contact_email" ]);
    ("company_domain",
     [ "company_domain"; "domain"; "website"; "company_website";
       "company" ]) ].

(** [col.lower().strip()] *)
Definition normal (col : string) : string := Utils.strip (Text.lower col).

(** The inner loop of [validate_csv_format]: the column of the first
    possible name that is the normal form of a label. *)
Fixpoint find_column (possible_names : list string) (labels : list string)
  : option string :=
  match possible_names with
  | [] => None
  | possible_name :: rest =>
      match index possible_name (List.map normal labels) with
      | Some actual_col_index => List.nth_error labels actual_col_index
      | None => find_column rest labels
      end
  end.

(** The outer loop: the columns found for the required fields, in the
    order of the fields, unless one is not found. *)
Fixpoint find_columns (mappings : list (string * list string))
    (labels : list string) : option (list (string * string)) :=
  match mappings with
  | [] => Some []
  | (required_field, possible_names) :: rest =>
      match find_column possible_names labels with
      | None => None
      | Some actual =>
          match find_columns rest labels with
          | Some found => Some ((required_field, actual) :: found)
          | None => None
          end
      end
  end.

(** [found[key]] in the dict built by the loop. *)
Fixpoint assoc (key : string) (found : list (string * string))
  : option string :=
  match found with
  | [] => None
  | (k, v) :: rest => if String.eqb key k then Some v else assoc key rest
  end.

(** The cell of [row] under [label]. *)
Definition cell (df : DataFrame) (label : string) (row : list pyval)
  : option pyval :=
  match index label (columns df) with
  | Some i => List.nth_error row i
  | None => None
  end.

(** [str(cell)] matches the pattern: the text of a number holds no at
    sign. *)
Definition email_matches (c : option pyval) : bool :=
  match c with
  | Some (Str s) => Re.match_anchored Utils.email_pattern s
  | _ => false
  end.

(** [validate_csv_format(df)]: the answer, and the mapping stored in
    [df._column_mapping] when the three columns were found. *)
Definition validate_csv_format (df : DataFrame)
  : bool * option (list (string * string)) :=
  match find_columns required_mappings (columns df) with
  | None => (false, None)
  | Some found_columns =>
      match data df with
      | [] => (false, Some found_columns)
      | _ =>
          match assoc "email" found_columns with
          | None => (false, Some found_columns)
          | Some email_col =>
              let invalid_emails :=
                List.filter
                  (fun row => negb (email_matches (cell df email_col row)))
                  (data df) in
              let invalid_ratio :=
                (Utils.of_nat (List.length invalid_emails)
                 / Utils.of_nat (List.length (data df)))%Q in
              if Qlt_bool 0.5 invalid_ratio
              then (false, Some found_columns)
              else (true, Some found_columns)
          end
      end
  end.

(** [rename(columns={actual: standard})] *)
Definition rename (actual standard : string) (labels : list string)
  : list string :=
  List.map (fun l => if String.eqb l actual then standard else l) labels.

Definition rename_all (found : list (string * string))
    (labels : list string) : list string :=
  fold_left
    (fun labels '(standard_name, actual_column) =>
       if mem actual_column labels
       then rename actual_column standard_name labels
       else labels)
    found labels.

(** [row] with [f] applied to its cell number [i]. *)
Fixpoint apply_at (f : pyval -> pyerr + string) (i : nat) (row : list pyval)
  : pyerr + list pyval :=
  match i, row with
  | _, [] => inr []
  | O, c :: rest =>
      match f c with
      | inl e => inl e
      | inr s => inr (Str s :: rest)
      end
  | S i', c :: rest =>
      match apply_at f i' rest with
      | inl e => inl e
      | inr rest' => inr (c :: rest')
      end
  end.

Fixpoint apply_rows (f : pyval -> pyerr + string) (i : nat)
    (rows : list (list pyval)) : pyerr + list (list pyval) :=
  match rows with
  | [] => inr []
  | row :: rest =>
      match apply_at f i row with
      | inl e => inl e
      | inr row' =>
          match apply_rows f i rest with
          | inl e => inl e
          | inr rest' => inr (row' :: rest')
          end
      end
  end.

(** [normalize_dataframe_columns(df)], with the mapping that
    [validate_csv_format] stored in the table, if it did. *)
Definition normalize_dataframe_columns (df : DataFrame)
    (_column_mapping : option (list (string * string)))
  : pyerr + DataFrame :=
  match _column_mapping with
  | None => inr df
  | Some found =>
      let labels := rename_all found (columns df) in
      match index "company_domain" labels with
      | None => inr {| columns := labels; data := data df |}
      | Some i =>
          match apply_rows Utils.clean_company_domain i (data df) with
          | inl e => inl e
          | inr rows => inr {| columns := labels; data := rows |}
          end
      end
  end.

(** A cell that holds a text, and a table of such cells: what
    [pandas.read_csv] gives for a file in which no cell is empty or
    reads as a number. *)
Definition is_text (v : pyval) : Prop := exists s, v = Str s.

Definition text_table (df : DataFrame) : Prop :=
  Forall (Forall is_text) (data df).

(** The rows of [create_sample_csv] and the table it writes out. *)
Definition sample_data : list (list string) :=
  [ [ "John Smith"; "john.smith@techcorp.com"; "techcorp.com" ];
    [ "Sarah Johnson"; "sarah.j@innovatesoft.io"; "innovatesoft.io" ];
    [ "Michael Chen"; "m.chen@dataworks.net"; "dataworks.net" ];
    [ "Emily Rodriguez"; "emily@startupco.com"; "startupco.com" ];
    [ "David Wilson"; "dwilson@enterprise-solutions.com";
      "enterprise-solutions.com" ];
    [ "Lisa Anderson"; "l.anderson@cloudtech.org"; "cloudtech.org" ];
    [ "Robert Taylor"; "rtaylor@devops-pro.com"; "devops-pro.com" ];
    [ "Jennifer Lee"; "jennifer.lee@aicompany.io"; "aicompany.io" ];
    [ "Mark Thompson"; "mark@scalable-systems.net";
      "scalable-systems.net" ];
    [ "Amanda Davis"; "a.davis@fintech-innovate.com";
      "fintech-innovate.com" ] ].

Definition sample_table : DataFrame :=
  {| columns := [ "name"; "email"; "company_domain" ];
     data := List.map (List.map Str) sample_data |}.

End Frame.

(** ** Tables for the examples *)

Module Tables.
Import Py.

Definition website_table : Frame.DataFrame :=
  {| Frame.columns := [ " Full_Name "; "Email"; "Website"; "Notes" ];
     Frame.data :=
       [ [ Str "Jane Doe"; Str "jane.doe@acme.com";
           Str "HTTPS://www.Acme.com/about"; Str "met at expo" ];
         [ Str "Raj Patel"; Str "raj"; Str "initech.io";
           Str "follow up" ] ] |}.

(** A table of contacts without a [company_domain] column. *)
Definition contacts_table : Frame.DataFrame :=
  {| Frame.columns := [ "name"; "email" ];
     Frame.data :=
       [ [ Str "Jane Doe"; Str "jane.doe@acme.com" ];
         [ Str "John Smith"; Str "john.smith@techcorp.com" ] ] |}.

(** A table whose second row has no company domain: the cell is there
    and holds the number [nan] that [pandas.read_csv] puts in an empty
    cell. *)
Definition empty_domain_table (nan : Q) : Frame.DataFrame :=
  {| Frame.columns := [ "name"; "email"; "company_domain" ];
     Frame.data :=
       [ [ Str "Jane Doe"; Str "jane.doe@acme.com"; Str "acme.com" ];
         [ Str "John Smith"; Str "john.smith@techcorp.com"; Num nan ] ] |}.

End Tables.

(** * Properties *)

(** ** Text *)

Lemma startswith_spec p s :
  Text.startswith p s = true <-> exists after, s = p ++ after.
Proof.
  revert s. induction p as [|a p IH]; intros s; simpl.
  - split; [intros _; now exists s | reflexivity].
  - destruct s as [|b s].
    + split; [discriminate | intros [t Ht]; discriminate].
    + rewrite andb_true_iff, Ascii.eqb_eq, IH. split.
      * intros [-> [t ->]]. now exists t.
      * intros [t Ht]. injection Ht as -> ->.
        split; [reflexivity | now exists t].
Qed.

Lemma contains_spec p s : Text.contains p s = true <-> Text.occurs p s.
Proof.
  unfold Text.occurs. induction s as [|c s IH]; simpl.
  - rewrite orb_false_r, startswith_spec. split.
    + intros [t Ht]. now exists EmptyString, t.
    + intros [b [t Ht]]. destruct b; [now exists t | discriminate].
  - rewrite orb_true_iff, startswith_spec, IH. split.
    + intros [[t Ht] | [b [t Ht]]].
      * exists EmptyString, t. exact Ht.
      * exists (String c b), t. simpl. now rewrite Ht.
    + intros [b [t Ht]]. destruct b as [|c' b]; simpl in Ht.
      * left. now exists t.
      * right. injection Ht as _ Ht. now exists b, t.
Qed.

Lemma any_in_spec patterns s :
  Text.any_in patterns s = true <-> Text.hits patterns s.
Proof.
  unfold Text.any_in, Text.hits. rewrite existsb_exists.
  split; intros [p [Hin Hp]]; exists p; split; try assumption;
    now apply contains_spec.
Qed.

Lemma any_in_false patterns s :
  Text.any_in patterns s = false <-> ~ Text.hits patterns s.
Proof. now rewrite <- not_true_iff_false, any_in_spec. Qed.

(** ** The LinkedIn URL *)

Lemma is_space_lower_char c :
  Text.is_space (Text.lower_char c) = Text.is_space c.
Proof. destruct c as [[] [] [] [] [] [] [] []]; reflexivity. Qed.

Lemma eqb_space_lower_char c :
  Ascii.eqb (Text.lower_char c) " " = Ascii.eqb c " ".
Proof. destruct c as [[] [] [] [] [] [] [] []]; reflexivity. Qed.

Lemma eqb_space_is_space c :
  Ascii.eqb c " " = true -> Text.is_space c = true.
Proof. intros H. apply Ascii.eqb_eq in H. now subst c. Qed.

Lemma collapse_runs_after_space s :
  match s with
  | EmptyString => true
  | String d _ => negb (Text.is_space d)
  end = true ->
  SlugSpec.collapse_runs true (Text.lower s)
  = SlugSpec.collapse_runs false (Text.lower s).
Proof.
  destruct s as [|d r]; simpl; [reflexivity|].
  rewrite is_space_lower_char. now destruct (Text.is_space d).
Qed.

Lemma replace_single_spaced s :
  SlugSpec.single_spaced s = true ->
  Text.replace_char " " "-" (Text.lower s)
  = SlugSpec.collapse_runs false (Text.lower s).
Proof.
  induction s as [|c r IH]; [reflexivity|].
  cbn [SlugSpec.single_spaced Text.lower Text.replace_char
       SlugSpec.collapse_runs].
  rewrite is_space_lower_char, eqb_space_lower_char.
  rewrite andb_true_iff. intros [Hc Hr]. specialize (IH Hr).
  destruct (Text.is_space c) eqn:Hsp.
  - apply andb_true_iff in Hc as [Hc Hnext]. rewrite Hc.
    f_equal. rewrite IH. symmetry. now apply collapse_runs_after_space.
  - destruct (Ascii.eqb c " ") eqn:Heq.
    + apply eqb_space_is_space in Heq. congruence.
    + now rewrite IH.
Qed.

Lemma replace_char_length a b s :
  String.length (Text.replace_char a b s) = String.length s.
Proof. induction s as [|c r IH]; simpl; congruence. Qed.

Lemma lower_length s : String.length (Text.lower s) = String.length s.
Proof. induction s as [|c r IH]; simpl; congruence. Qed.

(** C8, as the code has it: the URL is the prefix followed by the name
    with everything but letters and whitespace deleted, lowercased, and
    every space character replaced by one hyphen.  No character is merged
    with another one (the slug is as long as the cleaned name), and the
    slug is the one of the specification, one hyphen for each whitespace
    run, whenever every whitespace run of the cleaned name is a single
    space. *)
Theorem linkedin_url_slug (name : string) (g : Py.rng) :
  let clean_name := Text.keep LeadEnricher.kept name in
  let url_name := Text.replace_char " " "-" (Text.lower clean_name) in
  LeadEnricher._generate_linkedin_url (Py.Str name) g
  = (inr (LeadEnricher.linkedin_prefix ++ url_name), g)
  /\ String.length url_name = String.length clean_name
  /\ (SlugSpec.single_spaced clean_name = true ->
      LeadEnricher._generate_linkedin_url (Py.Str name) g
      = (inr (LeadEnricher.linkedin_prefix ++ SlugSpec.slug name), g)).
Proof.
  intros clean_name url_name. split; [reflexivity|]. split.
  - unfold url_name. now rewrite replace_char_length, lower_length.
  - intros Hs. unfold SlugSpec.slug. fold clean_name.
    rewrite <- (replace_single_spaced clean_name Hs). reflexivity.
Qed.

Lemma linkedin_url_slug_witness :
  LeadEnricher._generate_linkedin_url (Py.Str "Dr. Jane Doe")
    (Samples.list_rng [])
  = (inr "https://linkedin.com/in/dr-jane-doe", Samples.list_rng []).
Proof.
  exact (proj2 (proj2 (linkedin_url_slug "Dr. Jane Doe"
                         (Samples.list_rng []))) eq_refl).
Defined.

(** C8, as stated, fails: two consecutive spaces give two hyphens, and a
    tab stays a tab, where the specification's slug has one hyphen. *)
Lemma linkedin_url_runs_counterexample :
  fst (LeadEnricher._generate_linkedin_url (Py.Str "John  Smith")
         (Samples.list_rng []))
  = inr "https://linkedin.com/in/john--smith"
  /\ LeadEnricher.linkedin_prefix ++ SlugSpec.slug "John  Smith"
     = "https://linkedin.com/in/john-smith"
  /\ fst (LeadEnricher._generate_linkedin_url
            (Py.Str (String "A" (String "009" "b")))
            (Samples.list_rng []))
     = inr (LeadEnricher.linkedin_prefix ++ String "a" (String "009" "b"))
  /\ ~ (forall name g,
          LeadEnricher._generate_linkedin_url (Py.Str name) g
          = (inr (LeadEnricher.linkedin_prefix ++ SlugSpec.slug name), g)).
Proof.
  split; [reflexivity|]. split; [reflexivity|]. split; [reflexivity|].
  intros H. specialize (H "John  Smith" (Samples.list_rng [])).
  discriminate H.
Qed.

(** ** Comparisons and the weighted draw *)

Lemma Qlt_bool_iff x y : Py.Qlt_bool x y = true <-> (x < y)%Q.
Proof.
  unfold Py.Qlt_bool.
  rewrite negb_true_iff, <- not_true_iff_false, Qle_bool_iff.
  split; [apply Qnot_le_lt | apply Qlt_not_le].
Qed.

Lemma Qlt_bool_true x y : (x < y)%Q -> Py.Qlt_bool x y = true.
Proof. apply Qlt_bool_iff. Qed.

Lemma Qlt_bool_false x y : (y <= x)%Q -> Py.Qlt_bool x y = false.
Proof.
  intros H. apply not_true_iff_false. rewrite Qlt_bool_iff.
  now apply Qle_not_lt.
Qed.

Ltac decide_comparisons :=
  repeat match goal with
         | |- context [Py.Qlt_bool ?x ?y] =>
             first [ rewrite (Qlt_bool_true x y) by lra
                   | rewrite (Qlt_bool_false x y) by lra ]
         end.

(** Runs [random.choices] on one of the two weight lists of the enricher,
    deciding the comparisons of the binary search from the hypotheses. *)
Ltac run_choices :=
  unfold Py.choices, Py.bind, Py.random, Py.ret;
  cbv [LeadEnricher.categories LeadEnricher.category_weights
       LeadEnricher.company_sizes LeadEnricher.size_weights
       Py.accumulate Py.running List.last List.length Py.bisect
       Py.bisect_loop Nat.sub Nat.ltb Nat.leb Nat.add Nat.div Nat.divmod
       fst snd nth];
  decide_comparisons; reflexivity.

Lemma choices_categories (g : Py.rng) :
  let u := Py.draws g (Py.cursor g) in
  let pick := Py.choices LeadEnricher.categories
                LeadEnricher.category_weights g in
  ((u < 0.4)%Q -> pick = (inr "technical", Py.advance g))
  /\ ((0.4 <= u)%Q -> (u < 0.65)%Q -> pick = (inr "management", Py.advance g))
  /\ ((0.65 <= u)%Q -> (u < 0.8)%Q -> pick = (inr "executive", Py.advance g))
  /\ ((0.8 <= u)%Q -> (u < 0.9)%Q ->
      pick = (inr "decision_maker", Py.advance g))
  /\ ((0.9 <= u)%Q -> pick = (inr "other", Py.advance g)).
Proof.
  intros u pick. unfold pick. repeat split; intros; subst u; run_choices.
Qed.

Lemma choices_company_sizes (g : Py.rng) :
  let u := Py.draws g (Py.cursor g) in
  let pick := Py.choices LeadEnricher.company_sizes
                LeadEnricher.size_weights g in
  ((u < 0.2)%Q -> pick = (inr "Startup", Py.advance g))
  /\ ((0.2 <= u)%Q -> (u < 0.5)%Q -> pick = (inr "Small", Py.advance g))
  /\ ((0.5 <= u)%Q -> (u < 0.8)%Q -> pick = (inr "Medium", Py.advance g))
  /\ ((0.8 <= u)%Q -> (u < 0.95)%Q -> pick = (inr "Large", Py.advance g))
  /\ ((0.95 <= u)%Q -> pick = (inr "Enterprise", Py.advance g)).
Proof.
  intros u pick. unfold pick. repeat split; intros; subst u; run_choices.
Qed.

(** ** The company size *)

(** C4: a domain whose lowercased text contains one of the six fragments
    is an Enterprise whatever the generator holds, and no draw is read;
    any other domain reads one draw [u] and gets the entry of Startup,
    Small, Medium, Large, Enterprise whose interval holds [u], the
    intervals having the lengths 0.20, 0.30, 0.30, 0.15 and 0.05 in that
    order. *)
Theorem company_size_rule (domain : string) (g : Py.rng) :
  let fragments :=
    [ "google"; "microsoft"; "apple"; "amazon"; "facebook"; "netflix" ] in
  let result := LeadEnricher._determine_company_size (Py.Str domain) g in
  let u := Py.draws g (Py.cursor g) in
  (Text.hits fragments (Text.lower domain) -> result = (inr "Enterprise", g))
  /\ (~ Text.hits fragments (Text.lower domain) ->
      result
      = Py.choices [ "Startup"; "Small"; "Medium"; "Large"; "Enterprise" ]
          [ 0.2; 0.3; 0.3; 0.15; 0.05 ]%Q g
      /\ ((u < 0.2)%Q -> result = (inr "Startup", Py.advance g))
      /\ ((0.2 <= u)%Q -> (u < 0.5)%Q -> result = (inr "Small", Py.advance g))
      /\ ((0.5 <= u)%Q -> (u < 0.8)%Q -> result = (inr "Medium", Py.advance g))
      /\ ((0.8 <= u)%Q -> (u < 0.95)%Q ->
          result = (inr "Large", Py.advance g))
      /\ ((0.95 <= u)%Q -> result = (inr "Enterprise", Py.advance g)))
  /\ (forall g', LeadEnricher._determine_company_size
                   (Py.Str "WWW.Google.COM") g'
                 = (inr "Enterprise", g')).
Proof.
  intros fragments result u.
  assert (Hrun : result
                 = if Text.any_in fragments (Text.lower domain)
                   then (inr "Enterprise", g)
                   else Py.choices LeadEnricher.company_sizes
                          LeadEnricher.size_weights g).
  { unfold result, LeadEnricher._determine_company_size, Py.bind,
      Py.str_lower, Py.ret.
    fold fragments. change LeadEnricher.large_domains with fragments.
    now destruct (Text.any_in fragments (Text.lower domain)). }
  split; [|split].
  - intros Hhit. apply any_in_spec in Hhit. now rewrite Hrun, Hhit.
  - intros Hno. apply any_in_false in Hno. rewrite Hrun, Hno.
    split; [reflexivity|]. apply choices_company_sizes.
  - reflexivity.
Qed.

Lemma company_size_rule_witness :
  LeadEnricher._determine_company_size (Py.Str "acme.com")
    (Samples.list_rng [0.6%Q])
  = (inr "Medium", Py.advance (Samples.list_rng [0.6%Q])).
Proof.
  refine (proj1 (proj2 (proj2 (proj2
            (proj1 (proj2 (company_size_rule "acme.com"
                             (Samples.list_rng [0.6%Q]))) _)))) _ _).
  - apply any_in_false. reflexivity.
  - vm_compute. discriminate.
  - vm_compute. reflexivity.
Defined.

(** ** The job category *)

(** Turns the hypotheses on the rules into the value of the tests of the
    cascade and rewrites the run [Hrun] of the function with them. *)
Ltac use_rules Hrun :=
  repeat match goal with
         | H : Text.hits _ _ |- _ => apply any_in_spec in H
         | H : ~ Text.hits _ _ |- _ => apply any_in_false in H
         end;
  rewrite Hrun;
  repeat match goal with
         | H : Text.any_in ?ps ?s = _ |- _ =>
             first
               [ change ps with LeadEnricher.decision_maker_patterns in H
               | change ps with LeadEnricher.executive_patterns in H
               | change ps with LeadEnricher.technical_patterns in H
               | change ps with LeadEnricher.management_patterns in H
               | change ps with LeadEnricher.name_titles in H ];
             rewrite H; clear H
         end.

(** C5: the rules are tried in order on the lowercased email, then on the
    lowercased name, each by substring search, and the first one that
    matches gives the category without reading the generator; when none
    matches, one draw [u] is read and the category is the entry of
    technical, management, executive, decision_maker, other whose interval
    holds [u], the intervals having the lengths 0.40, 0.25, 0.15, 0.10 and
    0.10 in that order. *)
Theorem job_category_cascade (email name : string) (g : Py.rng) :
  let e := Text.lower email in
  let n := Text.lower name in
  let r1 := Text.hits [ "ceo"; "founder"; "president"; "exec" ] e in
  let r2 := Text.hits [ "cto"; "vp"; "head"; "director" ] e in
  let r3 := Text.hits [ "dev"; "engineer"; "tech"; "code" ] e in
  let r4 := Text.hits [ "manager"; "lead"; "principal" ] e in
  let r5 := Text.hits [ "dr"; "prof"; "phd" ] n in
  let result :=
    LeadEnricher._determine_job_category (Py.Str email) (Py.Str name) g in
  let u := Py.draws g (Py.cursor g) in
  (r1 -> result = (inr "decision_maker", g))
  /\ (~ r1 -> r2 -> result = (inr "executive", g))
  /\ (~ r1 -> ~ r2 -> r3 -> result = (inr "technical", g))
  /\ (~ r1 -> ~ r2 -> ~ r3 -> r4 -> result = (inr "management", g))
  /\ (~ r1 -> ~ r2 -> ~ r3 -> ~ r4 -> r5 -> result = (inr "technical", g))
  /\ (~ r1 -> ~ r2 -> ~ r3 -> ~ r4 -> ~ r5 ->
      result
      = Py.choices
          [ "technical"; "management"; "executive"; "decision_maker";
            "other" ]
          [ 0.4; 0.25; 0.15; 0.1; 0.1 ]%Q g
      /\ ((u < 0.4)%Q -> result = (inr "technical", Py.advance g))
      /\ ((0.4 <= u)%Q -> (u < 0.65)%Q ->
          result = (inr "management", Py.advance g))
      /\ ((0.65 <= u)%Q -> (u < 0.8)%Q ->
          result = (inr "executive", Py.advance g))
      /\ ((0.8 <= u)%Q -> (u < 0.9)%Q ->
          result = (inr "decision_maker", Py.advance g))
      /\ ((0.9 <= u)%Q -> result = (inr "other", Py.advance g)))
  /\ (forall name' g',
        LeadEnricher._determine_job_category
          (Py.Str "ceo@acme.com") (Py.Str name') g'
        = (inr "decision_maker", g'))
  /\ (forall name' g',
        LeadEnricher._determine_job_category
          (Py.Str "jane.dev@acme.com") (Py.Str name') g'
        = (inr "technical", g'))
  /\ (forall g',
        LeadEnricher._determine_job_category
          (Py.Str "jane@acme.com") (Py.Str "Dr. Jane Doe") g'
        = (inr "technical", g')).
Proof.
  intros e n r1 r2 r3 r4 r5 result u.
  assert (Hrun :
    result
    = if Text.any_in LeadEnricher.decision_maker_patterns e
      then (inr "decision_maker", g)
      else if Text.any_in LeadEnricher.executive_patterns e
      then (inr "executive", g)
      else if Text.any_in LeadEnricher.technical_patterns e
      then (inr "technical", g)
      else if Text.any_in LeadEnricher.management_patterns e
      then (inr "management", g)
      else if Text.any_in LeadEnricher.name_titles n
      then (inr "technical", g)
      else Py.choices LeadEnricher.categories
             LeadEnricher.category_weights g).
  { unfold result, LeadEnricher._determine_job_category, Py.bind,
      Py.str_lower, Py.ret. fold e n.
    repeat match goal with
           | |- context [if Text.any_in ?ps ?s then _ else _] =>
               destruct (Text.any_in ps s)
           end; reflexivity. }
  unfold r1, r2, r3, r4, r5.
  repeat lazymatch goal with
         | |- (forall _ : string, _) /\ _ => split; [intros; reflexivity|]
         | |- (_ -> _) /\ _ => split; [intros; use_rules Hrun|]
         | |- forall _ : Py.rng, _ => intros; reflexivity
         end;
    try reflexivity.
  split; [reflexivity | apply choices_categories].
Qed.

Lemma job_category_cascade_witness :
  LeadEnricher._determine_job_category
    (Py.Str "sam@acme.com") (Py.Str "Sam Poe") (Samples.list_rng [0.5%Q])
  = (inr "management", Py.advance (Samples.list_rng [0.5%Q])).
Proof.
  refine (proj1 (proj2 (proj2
            (proj1 (proj2 (proj2 (proj2 (proj2 (proj2
               (job_category_cascade "sam@acme.com" "Sam Poe"
                  (Samples.list_rng [0.5%Q]))))))) _ _ _ _ _))) _ _);
    try (apply any_in_false; reflexivity).
  - vm_compute. discriminate.
  - vm_compute. reflexivity.
Defined.

(** ** Code that cannot raise *)

Lemma rng_ok_advance g : Py.rng_ok g -> Py.rng_ok (Py.advance g).
Proof. intros H n. apply H. Qed.

Lemma succeeds_ret {A} (a : A) (post : A -> Prop) :
  post a -> Py.succeeds (Py.ret a) post.
Proof. intros Ha g Hg. now exists a, g. Qed.

Lemma succeeds_bind {A B} (m : Py.M A) (k : A -> Py.M B)
    (mid : A -> Prop) (post : B -> Prop) :
  Py.succeeds m mid ->
  (forall a, mid a -> Py.succeeds (k a) post) ->
  Py.succeeds (Py.bind m k) post.
Proof.
  intros Hm Hk g Hg. destruct (Hm g Hg) as (a & g1 & Em & Hg1 & Ha).
  destruct (Hk a Ha g1 Hg1) as (b & g2 & Ek & Hg2 & Hb).
  exists b, g2. unfold Py.bind. now rewrite Em.
Qed.

Lemma succeeds_weaken {A} (m : Py.M A) (p q : A -> Prop) :
  Py.succeeds m p -> (forall a, p a -> q a) -> Py.succeeds m q.
Proof.
  intros Hm Hpq g Hg. destruct (Hm g Hg) as (a & g1 & Em & Hg1 & Ha).
  exists a, g1. auto.
Qed.

Lemma succeeds_getitem {V} (row : gmap string V) key v :
  row !! key = Some v -> Py.succeeds (Py.getitem row key) (fun x => x = v).
Proof.
  intros H g Hg. exists v, g. unfold Py.getitem. now rewrite H.
Qed.

Lemma succeeds_random :
  Py.succeeds Py.random (fun u => (0 <= u /\ u < 1)%Q).
Proof.
  intros g Hg. exists (Py.draws g (Py.cursor g)), (Py.advance g).
  split; [reflexivity|]. split; [now apply rng_ok_advance | apply Hg].
Qed.

Lemma randbelow_range (n : Z) :
  (0 < n)%Z -> Py.succeeds (Py.randbelow n) (fun i => (0 <= i < n)%Z).
Proof.
  intros Hn. unfold Py.randbelow.
  apply (succeeds_bind _ _ _ _ succeeds_random).
  intros u [H0 H1]. apply succeeds_ret.
  assert (Hn' : (inject_Z 0 < inject_Z n)%Q) by (now rewrite <- Zlt_Qlt).
  change (inject_Z 0) with 0%Q in Hn'.
  split.
  - change 0%Z with (Qfloor 0). apply Qfloor_resp_le. nra.
  - rewrite Zlt_Qlt. apply Qle_lt_trans with (u * inject_Z n)%Q.
    + apply Qfloor_le.
    + nra.
Qed.

Lemma succeeds_choice {A} (seq : list A) :
  seq <> [] -> Py.succeeds (Py.choice seq) (fun x => In x seq).
Proof.
  intros Hne. destruct seq as [|x0 rest]; [congruence|].
  unfold Py.choice. set (seq := x0 :: rest).
  apply (succeeds_bind _ _ (fun i => (0 <= i < Z.of_nat (List.length seq))%Z)).
  - apply randbelow_range. simpl. lia.
  - intros i Hi.
    destruct (seq !! Z.to_nat i) as [x|] eqn:E.
    + apply succeeds_ret. apply list_elem_of_In. eapply list_elem_of_lookup_2, E.
    + apply lookup_ge_None in E. lia.
Qed.

Lemma succeeds_choices_categories :
  Py.succeeds
    (Py.choices LeadEnricher.categories LeadEnricher.category_weights)
    (fun c => In c LeadEnricher.categories).
Proof.
  intros g Hg. pose proof (choices_categories g) as (H1 & H2 & H3 & H4 & H5).
  cbv zeta in *. set (u := Py.draws g (Py.cursor g)) in *.
  pose proof (rng_ok_advance g Hg) as Hg'.
  destruct (Qlt_le_dec u 0.4) as [L1|L1];
    [rewrite (H1 L1); eexists _, _; simpl; eauto 10|].
  destruct (Qlt_le_dec u 0.65) as [L2|L2];
    [rewrite (H2 L1 L2); eexists _, _; simpl; eauto 10|].
  destruct (Qlt_le_dec u 0.8) as [L3|L3];
    [rewrite (H3 L2 L3); eexists _, _; simpl; eauto 10|].
  destruct (Qlt_le_dec u 0.9) as [L4|L4];
    [rewrite (H4 L3 L4); eexists _, _; simpl; eauto 10|].
  rewrite (H5 L4); eexists _, _; simpl; eauto 10.
Qed.

Lemma succeeds_choices_company_sizes :
  Py.succeeds
    (Py.choices LeadEnricher.company_sizes LeadEnricher.size_weights)
    (fun c => In c LeadEnricher.company_sizes).
Proof.
  intros g Hg.
  pose proof (choices_company_sizes g) as (H1 & H2 & H3 & H4 & H5).
  cbv zeta in *. set (u := Py.draws g (Py.cursor g)) in *.
  pose proof (rng_ok_advance g Hg) as Hg'.
  destruct (Qlt_le_dec u 0.2) as [L1|L1];
    [rewrite (H1 L1); eexists _, _; simpl; eauto 10|].
  destruct (Qlt_le_dec u 0.5) as [L2|L2];
    [rewrite (H2 L1 L2); eexists _, _; simpl; eauto 10|].
  destruct (Qlt_le_dec u 0.8) as [L3|L3];
    [rewrite (H3 L2 L3); eexists _, _; simpl; eauto 10|].
  destruct (Qlt_le_dec u 0.95) as [L4|L4];
    [rewrite (H4 L3 L4); eexists _, _; simpl; eauto 10|].
  rewrite (H5 L4); eexists _, _; simpl; eauto 10.
Qed.

Ltac succeeds_step :=
  lazymatch goal with
  | |- Py.succeeds (Py.ret _) _ => apply succeeds_ret
  | |- Py.succeeds (if ?b then _ else _) _ => destruct b
  | |- Py.succeeds (Py.bind _ _) _ =>
      eapply succeeds_bind; [|intros ? ?]
  end.

Lemma succeeds_job_category email name :
  Py.succeeds
    (LeadEnricher._determine_job_category (Py.Str email) (Py.Str name))
    (fun c => In c LeadEnricher.categories).
Proof.
  unfold LeadEnricher._determine_job_category, Py.str_lower.
  apply (succeeds_bind _ _ (fun _ => True)); [now apply succeeds_ret|].
  intros ? _.
  apply (succeeds_bind _ _ (fun _ => True)); [now apply succeeds_ret|].
  intros ? _.
  repeat succeeds_step; simpl; auto 10.
  apply succeeds_choices_categories.
Qed.

Lemma job_titles_total category :
  In category LeadEnricher.categories ->
  exists titles,
    LeadEnricher.job_titles !! category = Some titles /\ titles <> [].
Proof.
  simpl. intros [<-|[<-|[<-|[<-|[<-|[]]]]]];
    eexists; (split; [reflexivity | discriminate]).
Qed.

Lemma succeeds_seniority job_title email :
  Py.succeeds
    (LeadEnricher._determine_seniority job_title (Py.Str email))
    (fun _ => True).
Proof.
  unfold LeadEnricher._determine_seniority, Py.str_lower.
  apply (succeeds_bind _ _ (fun _ => True)); [now apply succeeds_ret|].
  intros ? _.
  repeat succeeds_step; auto.
  eapply succeeds_weaken; [apply succeeds_choice; discriminate | auto].
Qed.

Lemma succeeds_company_size domain :
  Py.succeeds (LeadEnricher._determine_company_size (Py.Str domain))
    (fun _ => True).
Proof.
  unfold LeadEnricher._determine_company_size, Py.str_lower.
  apply (succeeds_bind _ _ (fun _ => True)); [now apply succeeds_ret|].
  intros ? _.
  repeat succeeds_step; auto.
  eapply succeeds_weaken; [apply succeeds_choices_company_sizes | auto].
Qed.

Lemma succeeds_randint a b :
  (a <= b)%Z -> Py.succeeds (Py.randint a b) (fun _ => True).
Proof.
  intros Hab. unfold Py.randint.
  eapply succeeds_bind; [apply randbelow_range; lia|].
  intros i _. now apply succeeds_ret.
Qed.

Lemma succeeds_phone_number :
  Py.succeeds LeadEnricher._generate_phone_number (fun _ => True).
Proof.
  unfold LeadEnricher._generate_phone_number.
  eapply succeeds_bind; [apply succeeds_randint; lia|]. intros ? _.
  eapply succeeds_bind; [apply succeeds_randint; lia|]. intros ? _.
  eapply succeeds_bind; [apply succeeds_randint; lia|]. intros ? _.
  now apply succeeds_ret.
Qed.

Lemma succeeds_enrich_single_lead row :
  Schema.raw_lead row ->
  Py.succeeds (LeadEnricher._enrich_single_lead row) (fun _ => True).
Proof.
  intros (name & email & domain & Hn & He & Hd).
  unfold LeadEnricher._enrich_single_lead.
  eapply succeeds_bind; [apply (succeeds_getitem _ _ _ Hn)|]. intros ? ->.
  eapply succeeds_bind; [apply (succeeds_getitem _ _ _ He)|]. intros ? ->.
  eapply succeeds_bind; [apply (succeeds_getitem _ _ _ Hd)|]. intros ? ->.
  eapply succeeds_bind; [apply succeeds_job_category|]. intros category Hc.
  destruct (job_titles_total category Hc) as (titles & Ht & Hne).
  eapply succeeds_bind; [apply (succeeds_getitem _ _ _ Ht)|]. intros ? ->.
  eapply succeeds_bind; [now apply succeeds_choice|]. intros job_title _.
  eapply succeeds_bind; [apply succeeds_seniority|]. intros ? _.
  apply (succeeds_bind _ _ (fun _ => True)); [now apply succeeds_ret|].
  intros ? _.
  eapply succeeds_bind; [apply succeeds_choice; discriminate|]. intros ? _.
  eapply succeeds_bind; [apply succeeds_company_size|]. intros ? _.
  eapply succeeds_bind; [apply succeeds_phone_number|]. intros ? _.
  now apply succeeds_ret.
Qed.

(** ** A row that lacks a required field *)

Lemma enrich_single_lead_missing row field g :
  Schema.first_missing row = Some field ->
  LeadEnricher._enrich_single_lead row g = (inl (Py.KeyError field), g).
Proof.
  unfold Schema.first_missing, LeadEnricher._enrich_single_lead,
    Py.bind, Py.getitem.
  destruct (row !! "name"); [|now intros [= <-]].
  destruct (row !! "email"); [|now intros [= <-]].
  destruct (row !! "company_domain"); [discriminate|now intros [= <-]].
Qed.

Lemma enrich_leads_abort before row after field g :
  Py.rng_ok g ->
  Forall Schema.raw_lead before ->
  Schema.first_missing row = Some field ->
  exists g',
    LeadEnricher.enrich_leads (before ++ row :: after)%list g
    = (inl (Py.KeyError field), g').
Proof.
  intros Hg Hbefore Hrow. revert g Hg.
  induction Hbefore as [|r before Hr Hbefore IH]; intros g Hg; simpl.
  - exists g. unfold Py.bind.
    now rewrite (enrich_single_lead_missing row field g Hrow).
  - destruct (succeeds_enrich_single_lead r Hr g Hg)
      as (out & g1 & E1 & Hg1 & _).
    destruct (IH g1 Hg1) as (g' & E').
    exists g'. unfold Py.bind at 1. rewrite E1.
    unfold Py.bind at 1. now rewrite E'.
Qed.

Lemma list_rng_ok (l : list Q) :
  Samples.unit_draws l = true -> Py.rng_ok (Samples.list_rng l).
Proof.
  unfold Samples.unit_draws. rewrite forallb_forall. intros H n. simpl.
  destruct (nth_in_or_default n l 0%Q) as [Hin | ->]; [|split; lra].
  apply H in Hin. apply andb_true_iff in Hin as [H0 H1].
  apply Qle_bool_iff in H0. apply Qlt_bool_iff in H1. now split.
Qed.

(** ** Clamping and rounding *)

Lemma clamp_bounds x :
  (0 <= ScoringEngine.clamp x /\ ScoringEngine.clamp x <= 100)%Q.
Proof.
  unfold ScoringEngine.clamp, Py.pymax, Py.pymin.
  destruct (Py.Qlt_bool x 100) eqn:E1.
  - apply Qlt_bool_iff in E1.
    destruct (Py.Qlt_bool 0 x) eqn:E2.
    + apply Qlt_bool_iff in E2. split; lra.
    + split; lra.
  - destruct (Py.Qlt_bool 0 100) eqn:E2; split; lra.
Qed.

Lemma round_half_even_floor q :
  Py.round_half_even q = Qfloor q
  \/ (Py.round_half_even q = (Qfloor q + 1)%Z
      /\ (1 # 2 <= q - inject_Z (Qfloor q))%Q).
Proof.
  unfold Py.round_half_even.
  destruct (Py.Qlt_bool (q - inject_Z (Qfloor q)) (1 # 2)) eqn:E1;
    [now left|].
  apply not_true_iff_false in E1. rewrite Qlt_bool_iff in E1.
  apply Qnot_lt_le in E1.
  destruct (Py.Qlt_bool (1 # 2) (q - inject_Z (Qfloor q)));
    [now right|].
  destruct (Z.even (Qfloor q)); [now left | now right].
Qed.

Lemma round_half_even_bounds q (n : Z) :
  (0 <= q)%Q -> (q <= inject_Z n)%Q ->
  (0 <= Py.round_half_even q <= n)%Z.
Proof.
  intros H0 Hn.
  assert (F0 : (0 <= Qfloor q)%Z)
    by (change 0%Z with (Qfloor 0); now apply Qfloor_resp_le).
  assert (Fn : (Qfloor q <= n)%Z).
  { rewrite <- (Qfloor_Z n). now apply Qfloor_resp_le. }
  destruct (round_half_even_floor q) as [-> | [-> Hr]]; [lia|].
  split; [lia|].
  destruct (Z.eq_dec (Qfloor q) n) as [E|E]; [|lia].
  rewrite E in Hr. lra.
Qed.

Lemma round1_bounds x :
  (0 <= x)%Q -> (x <= 100)%Q ->
  (0 <= Py.round1 x /\ Py.round1 x <= 100)%Q.
Proof.
  intros H0 H1. unfold Py.round1.
  destruct (round_half_even_bounds (x * 10) 1000) as [L U].
  - lra.
  - change (inject_Z 1000) with 1000%Q. lra.
  - rewrite Zle_Qle in L, U.
    change (inject_Z 0) with 0%Q in L.
    change (inject_Z 1000) with 1000%Q in U.
    set (r := inject_Z (Py.round_half_even (x * 10))) in *.
    split; [apply Qle_shift_div_l | apply Qle_shift_div_r]; lra.
Qed.

(** ** The three sub-scores *)

Lemma score_job_title_run category seniority g :
  exists j,
    ScoringEngine._score_job_title category seniority g
    = (inr j, Py.advance g)
    /\ (0 <= j /\ j <= 100)%Q.
Proof.
  eexists. split; [reflexivity | apply clamp_bounds].
Qed.

Lemma uniform_bounds (a b u : Q) :
  (a <= b)%Q -> (0 <= u)%Q -> (u < 1)%Q ->
  (a <= a + (b - a) * u /\ a + (b - a) * u <= b)%Q.
Proof. intros. split; nra. Qed.

Lemma score_tech_stack_run tech_stack g :
  Py.rng_ok g ->
  let matches := ScoringEngine.tech_matches (Text.lower tech_stack) in
  let u := Py.draws g (Py.cursor g) in
  exists lo hi,
    ScoringEngine._score_tech_stack (Py.Str tech_stack) g
    = (inr (lo + (hi - lo) * u)%Q, Py.advance g)
    /\ (lo, hi)
       = (if (3 <=? matches)%nat then (85, 100)
          else if (2 <=? matches)%nat then (70, 90)
          else if (1 <=? matches)%nat then (55, 75)
          else (30, 60))%Q
    /\ (lo <= lo + (hi - lo) * u /\ lo + (hi - lo) * u <= hi)%Q.
Proof.
  intros Hg matches u. destruct (Hg (Py.cursor g)) as [H0 H1]. fold u in H0, H1.
  unfold ScoringEngine._score_tech_stack, Py.bind, Py.str_lower, Py.ret.
  fold matches.
  destruct (3 <=? matches)%nat;
    [|destruct (2 <=? matches)%nat; [|destruct (1 <=? matches)%nat]];
    eexists _, _; (split; [reflexivity|]); (split; [reflexivity|]);
    apply uniform_bounds; (assumption || lra).
Qed.

Lemma score_buying_intent_run lead g :
  is_Some (lead !! "job_category") ->
  is_Some (lead !! "company_size") ->
  is_Some (lead !! "seniority_level") ->
  exists i,
    ScoringEngine._score_buying_intent lead g
    = (inr i, Py.advance (Py.advance g))
    /\ (0 <= i /\ i <= 100)%Q.
Proof.
  intros [c Hc] [z Hz] [s Hs].
  unfold ScoringEngine._score_buying_intent, Py.bind, Py.getitem.
  rewrite Hc, Hz, Hs. unfold Py.ret.
  destruct (Py.eq_str c "decision_maker" || Py.eq_str c "executive");
    [|destruct (Py.eq_str c "management")];
    eexists; (split; [reflexivity | apply clamp_bounds]).
Qed.

Lemma score_single_lead_run (repr_float : Q -> string)
    (self : ScoringEngine.t) (lead : gmap string Py.pyval) (g : Py.rng)
    category seniority size tech_stack w_job w_tech w_intent :
  lead !! "job_category" = Some category ->
  lead !! "seniority_level" = Some seniority ->
  lead !! "company_size" = Some size ->
  lead !! "tech_stack" = Some (Py.Str tech_stack) ->
  ScoringEngine.weights self !! "job_title" = Some w_job ->
  ScoringEngine.weights self !! "tech_stack" = Some w_tech ->
  ScoringEngine.weights self !! "buying_intent" = Some w_intent ->
  Py.rng_ok g ->
  exists j t i scored,
    let g1 := Py.advance g in
    let g2 := Py.advance g1 in
    let g4 := Py.advance (Py.advance g2) in
    let final :=
      ScoringEngine.clamp
        ((j * w_job + t * w_tech + i * w_intent)
         * Py.dict_get ScoringEngine.size_multipliers size 1.0)%Q in
    ScoringEngine._score_job_title category seniority g = (inr j, g1)
    /\ ScoringEngine._score_tech_stack (Py.Str tech_stack) g1 = (inr t, g2)
    /\ ScoringEngine._score_buying_intent lead g2 = (inr i, g4)
    /\ ScoringEngine._score_single_lead repr_float self lead g
       = (inr scored, g4)
    /\ scored !! "job_title_score" = Some (Py.Num (Py.round1 j))
    /\ scored !! "tech_stack_score" = Some (Py.Num (Py.round1 t))
    /\ scored !! "buying_intent_score" = Some (Py.Num (Py.round1 i))
    /\ scored !! "lead_score" = Some (Py.Num (Py.round1 final))
    /\ scored !! "score_explanation"
       = Some (Py.Str (ScoringEngine._generate_explanation repr_float
                         j t i final))
    /\ (forall field, ~ In field Schema.score_fields ->
                      scored !! field = lead !! field)
    /\ (0 <= j /\ j <= 100)%Q
    /\ (30 <= t /\ t <= 100)%Q
    /\ (0 <= i /\ i <= 100)%Q.
Proof.
  intros Hc Hs Hz Ht Wj Wt Wi Hg.
  destruct (score_job_title_run category seniority g) as (j & Ej & Bj).
  destruct (score_tech_stack_run tech_stack (Py.advance g)
              (rng_ok_advance g Hg)) as (lo & hi & Et & Er & Bt).
  cbv zeta in Et, Er, Bt.
  set (t := (lo + (hi - lo) * Py.draws (Py.advance g)
                                (Py.cursor (Py.advance g)))%Q) in *.
  destruct (score_buying_intent_run lead (Py.advance (Py.advance g)))
    as (i & Ei & Bi); eauto.
  exists j, t, i. eexists. cbv zeta.
  split; [exact Ej|]. split; [exact Et|]. split; [exact Ei|].
  split.
  { unfold ScoringEngine._score_single_lead, Py.bind at 1, Py.getitem at 1.
    rewrite Hc. unfold Py.ret at 1.
    unfold Py.bind at 1, Py.getitem at 1. rewrite Hs. unfold Py.ret at 1.
    unfold Py.bind at 1. rewrite Ej.
    unfold Py.bind at 1, Py.getitem at 1. rewrite Ht. unfold Py.ret at 1.
    unfold Py.bind at 1. rewrite Et.
    unfold Py.bind at 1. rewrite Ei.
    unfold Py.bind at 1, Py.getitem at 1. rewrite Hz. unfold Py.ret at 1.
    unfold Py.bind at 1, Py.getitem at 1. rewrite Wj. unfold Py.ret at 1.
    unfold Py.bind at 1, Py.getitem at 1. rewrite Wt. unfold Py.ret at 1.
    unfold Py.bind at 1, Py.getitem at 1. rewrite Wi. unfold Py.ret at 1.
    reflexivity. }
  repeat split; try (now simplify_map_eq); try tauto.
  - intros field Hnot. simpl in Hnot.
    repeat rewrite lookup_insert_ne by (intros <-; tauto). reflexivity.
  - assert (30 <= lo)%Q; [|lra].
    destruct (3 <=? _)%nat; [|destruct (2 <=? _)%nat;
                                [|destruct (1 <=? _)%nat]];
      injection Er as -> ->; lra.
  - assert (hi <= 100)%Q; [|lra].
    destruct (3 <=? _)%nat; [|destruct (2 <=? _)%nat;
                                [|destruct (1 <=? _)%nat]];
      injection Er as -> ->; lra.
Qed.

(** ** The tech-stack sub-score *)

(** C7: the sub-score is [lo + (hi - lo) * u] for the uniform draw [u],
    where the range from [lo] to [hi] is chosen by the number of terms of
    the vocabulary that occur in the lowercased tech stack: 85 to 100 for
    three or more, 70 to 90 for two, 55 to 75 for one, 30 to 60 for none;
    the stack of Go, Kubernetes and Docker has two hits. *)
Theorem tech_stack_score_range (tech_stack : string) (g : Py.rng) :
  Py.rng_ok g ->
  let vocabulary :=
    [ "react"; "node.js"; "python"; "kubernetes"; "docker";
      "aws"; "azure"; "microservices"; "api"; "cloud" ] in
  let found :=
    List.filter (fun term => Text.contains term (Text.lower tech_stack))
      vocabulary in
  let count := List.length found in
  let u := Py.draws g (Py.cursor g) in
  (forall term,
      In term found
      <-> In term vocabulary /\ Text.occurs term (Text.lower tech_stack))
  /\ (exists score,
        ScoringEngine._score_tech_stack (Py.Str tech_stack) g
        = (inr score, Py.advance g)
        /\ ((3 <= count)%nat ->
            score = (85 + (100 - 85) * u)%Q
            /\ (85 <= score /\ score <= 100)%Q)
        /\ (count = 2%nat ->
            score = (70 + (90 - 70) * u)%Q /\ (70 <= score /\ score <= 90)%Q)
        /\ (count = 1%nat ->
            score = (55 + (75 - 55) * u)%Q /\ (55 <= score /\ score <= 75)%Q)
        /\ (count = 0%nat ->
            score = (30 + (60 - 30) * u)%Q /\ (30 <= score /\ score <= 60)%Q))
  /\ ScoringEngine.tech_matches (Text.lower "Go, Kubernetes, Docker") = 2%nat
  /\ (forall score g',
        ScoringEngine._score_tech_stack (Py.Str "Go, Kubernetes, Docker") g
        = (inr score, g') ->
        (70 <= score /\ score <= 90)%Q).
Proof.
  intros Hg vocabulary found count u.
  assert (Hrun : forall ts h, Py.rng_ok h ->
            let n := ScoringEngine.tech_matches (Text.lower ts) in
            let v := Py.draws h (Py.cursor h) in
            exists score,
              ScoringEngine._score_tech_stack (Py.Str ts) h
              = (inr score, Py.advance h)
              /\ ((3 <= n)%nat ->
                  score = (85 + (100 - 85) * v)%Q
                  /\ (85 <= score /\ score <= 100)%Q)
              /\ (n = 2%nat ->
                  score = (70 + (90 - 70) * v)%Q
                  /\ (70 <= score /\ score <= 90)%Q)
              /\ (n = 1%nat ->
                  score = (55 + (75 - 55) * v)%Q
                  /\ (55 <= score /\ score <= 75)%Q)
              /\ (n = 0%nat ->
                  score = (30 + (60 - 30) * v)%Q
                  /\ (30 <= score /\ score <= 60)%Q)).
  { intros ts h Hh n v.
    destruct (score_tech_stack_run ts h Hh) as (lo & hi & E & Er & B).
    cbv zeta in E, Er, B. fold n v in E, Er, B.
    eexists. split; [exact E|].
    repeat split;
      match goal with
      | H : (3 <= n)%nat |- _ => apply Nat.leb_le in H; rewrite H in Er
      | H : n = _ |- _ => rewrite H in Er; cbn in Er
      end;
      injection Er as -> ->; try reflexivity; apply B. }
  split; [|split; [|split]].
  - intros term. unfold found. rewrite filter_In, contains_spec. tauto.
  - exact (Hrun tech_stack g Hg).
  - reflexivity.
  - intros score g' E.
    destruct (Hrun "Go, Kubernetes, Docker" g Hg) as (s & Es & _ & H2 & _).
    rewrite Es in E. injection E as <- _. now apply H2.
Qed.

Lemma tech_stack_score_range_witness :
  exists score,
    ScoringEngine._score_tech_stack (Py.Str "Go, Kubernetes, Docker")
      (Samples.list_rng [ 0.5%Q ])
    = (inr score, Py.advance (Samples.list_rng [ 0.5%Q ]))
    /\ (score == 80)%Q.
Proof.
  destruct (proj1 (proj2 (tech_stack_score_range "Go, Kubernetes, Docker"
                            (Samples.list_rng [ 0.5%Q ])
                            (list_rng_ok [ 0.5%Q ] eq_refl))))
    as (score & E & _ & H2 & _).
  exists score. split; [exact E|].
  destruct (H2 eq_refl) as [-> _]. reflexivity.
Defined.

(** ** The scored lead *)

Lemma dict_get_unmapped {V} (table : list (string * V)) (key : Py.pyval)
    (default : V) :
  (forall s, key = Py.Str s -> ~ In s (List.map fst table)) ->
  Py.dict_get (list_to_map table) key default = default.
Proof.
  intros Hkey. destruct key as [s|q]; [|reflexivity]. simpl.
  specialize (Hkey s eq_refl).
  destruct (list_to_map table !! s) as [v|] eqn:E; [|reflexivity].
  exfalso. apply Hkey. apply elem_of_list_to_map_2 in E.
  apply list_elem_of_In in E. now apply (in_map fst) in E.
Qed.

Lemma sample_enriched_lead : Schema.enriched_lead Samples.enriched_lead.
Proof. repeat split; vm_compute; eauto. Qed.

Lemma init_scoring_weights :
  Schema.scoring_weights (ScoringEngine.weights ScoringEngine.__init__).
Proof. repeat split; vm_compute; eauto. Qed.

(** C9: scoring an enriched lead returns a record in which each of the
    ten enrichment fields has the value it has in the lead; so has every
    field other than the five the scorer writes. *)
Theorem score_keeps_enrichment (repr_float : Q -> string)
    (self : ScoringEngine.t) (lead : gmap string Py.pyval) (g : Py.rng) :
  Py.rng_ok g ->
  Schema.enriched_lead lead ->
  Schema.scoring_weights (ScoringEngine.weights self) ->
  exists scored g',
    ScoringEngine._score_single_lead repr_float self lead g
    = (inr scored, g')
    /\ (forall field,
          In field
            [ "name"; "email"; "company_domain"; "job_title";
              "seniority_level"; "linkedin_url"; "tech_stack";
              "company_size"; "phone"; "job_category" ] ->
          scored !! field = lead !! field)
    /\ (forall field,
          ~ In field
              [ "job_title_score"; "tech_stack_score";
                "buying_intent_score"; "lead_score"; "score_explanation" ] ->
          scored !! field = lead !! field)
    /\ (forall field,
          In field
            [ "job_title_score"; "tech_stack_score";
              "buying_intent_score"; "lead_score"; "score_explanation" ] ->
          is_Some (scored !! field)).
Proof.
  intros Hg ([c Hc] & [s Hs] & [z Hz] & [ts Ht]) ([wj Wj] & [wt Wt] & [wi Wi]).
  destruct (score_single_lead_run repr_float self lead g
              c s z ts wj wt wi Hc Hs Hz Ht Wj Wt Wi Hg)
    as (j & t & i & scored & H).
  cbv zeta in H.
  destruct H as (_ & _ & _ & Er & Fj & Ft & Fi & Fl & Fe & Frame & _).
  exists scored. eexists. split; [exact Er|]. split; [|split].
  - intros field Hin. apply Frame. intros Hscore.
    simpl in Hin, Hscore.
    repeat (destruct Hin as [<-|Hin];
            [repeat (destruct Hscore as [Hscore|Hscore];
                     [discriminate Hscore|]); exact Hscore|]).
    exact Hin.
  - exact Frame.
  - intros field [<-|[<-|[<-|[<-|[<-|[]]]]]]; eauto.
Qed.

Lemma score_keeps_enrichment_witness :
  exists scored g',
    ScoringEngine._score_single_lead Samples.repr_fraction
      ScoringEngine.__init__ Samples.enriched_lead
      (Samples.list_rng [ 0.123; 0.456; 0.5; 0.61 ]%Q)
    = (inr scored, g')
    /\ scored !! "tech_stack" = Some (Py.Str "Go, Kubernetes, Docker").
Proof.
  destruct (score_keeps_enrichment Samples.repr_fraction
              ScoringEngine.__init__ Samples.enriched_lead
              (Samples.list_rng [ 0.123; 0.456; 0.5; 0.61 ]%Q)
              (list_rng_ok [ 0.123; 0.456; 0.5; 0.61 ]%Q eq_refl)
              sample_enriched_lead init_scoring_weights)
    as (scored & g' & E & Hkeep & _).
  exists scored, g'. split; [exact E|].
  rewrite (Hkeep "tech_stack"); [reflexivity | simpl; auto 10].
Defined.

(** C2, as the code has it: the stored [lead_score] is the weighted sum
    of the three sub-scores, as the three scoring functions return them,
    times the multiplier of the company size, clamped between 0 and 100
    and then rounded to one decimal place; the multiplier is 1.2, 1.1,
    1.0, 0.9, 0.8 for Enterprise, Large, Medium, Small, Startup and 1.0
    for any other value. *)
Theorem lead_score_formula (repr_float : Q -> string)
    (self : ScoringEngine.t) (lead : gmap string Py.pyval) (g : Py.rng)
    (category seniority size : Py.pyval) (tech_stack : string)
    (w_job w_tech w_intent : Q) :
  Py.rng_ok g ->
  lead !! "job_category" = Some category ->
  lead !! "seniority_level" = Some seniority ->
  lead !! "company_size" = Some size ->
  lead !! "tech_stack" = Some (Py.Str tech_stack) ->
  ScoringEngine.weights self !! "job_title" = Some w_job ->
  ScoringEngine.weights self !! "tech_stack" = Some w_tech ->
  ScoringEngine.weights self !! "buying_intent" = Some w_intent ->
  let multiplier := Py.dict_get ScoringEngine.size_multipliers size 1.0%Q in
  (exists job tech intent scored g1 g2 g3,
      ScoringEngine._score_job_title category seniority g = (inr job, g1)
      /\ ScoringEngine._score_tech_stack (Py.Str tech_stack) g1
         = (inr tech, g2)
      /\ ScoringEngine._score_buying_intent lead g2 = (inr intent, g3)
      /\ ScoringEngine._score_single_lead repr_float self lead g
         = (inr scored, g3)
      /\ scored !! "lead_score"
         = Some (Py.Num
                   (Py.round1
                      (ScoringEngine.clamp
                         ((job * w_job + tech * w_tech + intent * w_intent)
                          * multiplier)%Q))))
  /\ (size = Py.Str "Enterprise" -> multiplier = 1.2%Q)
  /\ (size = Py.Str "Large" -> multiplier = 1.1%Q)
  /\ (size = Py.Str "Medium" -> multiplier = 1.0%Q)
  /\ (size = Py.Str "Small" -> multiplier = 0.9%Q)
  /\ (size = Py.Str "Startup" -> multiplier = 0.8%Q)
  /\ ((forall s, size = Py.Str s ->
                 ~ In s [ "Enterprise"; "Large"; "Medium"; "Small";
                          "Startup" ]) ->
      multiplier = 1.0%Q).
Proof.
  intros Hg Hc Hs Hz Ht Wj Wt Wi multiplier.
  split.
  - destruct (score_single_lead_run repr_float self lead g
                category seniority size tech_stack w_job w_tech w_intent
                Hc Hs Hz Ht Wj Wt Wi Hg)
      as (j & t & i & scored & H).
    cbv zeta in H. destruct H as (Ej & Et & Ei & Er & _ & _ & _ & Fl & _).
    exists j, t, i, scored. eexists _, _, _.
    split; [exact Ej|]. split; [exact Et|]. split; [exact Ei|].
    split; [exact Er | exact Fl].
  - unfold multiplier.
    do 5 (split; [intros ->; reflexivity|]).
    intros Hsize. unfold ScoringEngine.size_multipliers.
    apply dict_get_unmapped. exact Hsize.
Qed.

Lemma lead_score_formula_witness :
  exists scored g' stored,
    ScoringEngine._score_single_lead Samples.repr_fraction
      ScoringEngine.__init__ Samples.enriched_lead
      (Samples.list_rng [ 0.123; 0.456; 0.5; 0.61 ]%Q)
    = (inr scored, g')
    /\ scored !! "lead_score" = Some (Py.Num stored)
    /\ (stored == 56.1)%Q.
Proof.
  destruct (proj1 (lead_score_formula Samples.repr_fraction
                     ScoringEngine.__init__ Samples.enriched_lead
                     (Samples.list_rng [ 0.123; 0.456; 0.5; 0.61 ]%Q)
                     (Py.Str "technical") (Py.Str "Mid-level")
                     (Py.Str "Medium") "Go, Kubernetes, Docker"
                     0.4%Q 0.3%Q 0.3%Q
                     (list_rng_ok [ 0.123; 0.456; 0.5; 0.61 ]%Q eq_refl)
                     eq_refl eq_refl eq_refl eq_refl
                     eq_refl eq_refl eq_refl))
    as (j & t & i & scored & g1 & g2 & g3 & Ej & Et & Ei & Er & Fl).
  exists scored, g3. eexists. split; [exact Er|]. split; [exact Fl|].
  injection Ej as <- <-. injection Et as <- <-. injection Ei as <- <-.
  vm_compute. reflexivity.
Defined.

(** C2, as stated, fails: for this lead and these draws the sub-scores
    are 62.46, 79.12 and 24.7, the weighted sum times the multiplier is
    56.13, inside the bounds, and the stored [lead_score] is 56.1; with the
    stored, rounded sub-scores 62.5, 79.1 and 24.7 the formula gives
    56.14. *)
Lemma lead_score_rounding_counterexample :
  let g := Samples.list_rng [ 0.123; 0.456; 0.5; 0.61 ]%Q in
  exists scored g' job tech intent stored_job stored_tech stored_intent
         stored,
    ScoringEngine._score_single_lead Samples.repr_fraction
      ScoringEngine.__init__ Samples.enriched_lead g
    = (inr scored, g')
    /\ ScoringEngine._score_job_title
         (Py.Str "technical") (Py.Str "Mid-level") g
       = (inr job, Py.advance g)
    /\ ScoringEngine._score_tech_stack (Py.Str "Go, Kubernetes, Docker")
         (Py.advance g)
       = (inr tech, Py.advance (Py.advance g))
    /\ ScoringEngine._score_buying_intent Samples.enriched_lead
         (Py.advance (Py.advance g))
       = (inr intent, g')
    /\ scored !! "job_title_score" = Some (Py.Num stored_job)
    /\ scored !! "tech_stack_score" = Some (Py.Num stored_tech)
    /\ scored !! "buying_intent_score" = Some (Py.Num stored_intent)
    /\ scored !! "lead_score" = Some (Py.Num stored)
    /\ (stored == 56.1)%Q
    /\ (ScoringEngine.clamp
          ((job * 0.4 + tech * 0.3 + intent * 0.3) * 1.0) == 56.13)%Q
    /\ (ScoringEngine.clamp
          ((stored_job * 0.4 + stored_tech * 0.3 + stored_intent * 0.3)
           * 1.0) == 56.14)%Q
    /\ ~ (stored
          == ScoringEngine.clamp
               ((job * 0.4 + tech * 0.3 + intent * 0.3) * 1.0))%Q
    /\ ~ (stored
          == ScoringEngine.clamp
               ((stored_job * 0.4 + stored_tech * 0.3 + stored_intent * 0.3)
                * 1.0))%Q.
Proof.
  intros g.
  destruct (score_single_lead_run Samples.repr_fraction
              ScoringEngine.__init__ Samples.enriched_lead g
              (Py.Str "technical") (Py.Str "Mid-level") (Py.Str "Medium")
              "Go, Kubernetes, Docker" 0.4%Q 0.3%Q 0.3%Q
              eq_refl eq_refl eq_refl eq_refl eq_refl eq_refl eq_refl
              (list_rng_ok [ 0.123; 0.456; 0.5; 0.61 ]%Q eq_refl))
    as (j & t & i & scored & H).
  cbv zeta in H.
  destruct H as (Ej & Et & Ei & Er & Fj & Ft & Fi & Fl & _).
  exists scored. eexists. exists j, t, i. eexists _, _, _, _.
  split; [exact Er|]. split; [exact Ej|]. split; [exact Et|].
  split; [exact Ei|]. split; [exact Fj|]. split; [exact Ft|].
  split; [exact Fi|]. split; [exact Fl|].
  injection Ej as <-. injection Et as <-. injection Ei as <-.
  split; [vm_compute; reflexivity|].
  split; [vm_compute; reflexivity|].
  split; [vm_compute; reflexivity|].
  split; vm_compute; discriminate.
Qed.

(** ** Rounding to one decimal place *)

Lemma round_half_even_error q :
  (- (1 # 2) <= inject_Z (Py.round_half_even q) - q
   /\ inject_Z (Py.round_half_even q) - q <= 1 # 2)%Q.
Proof.
  pose proof (Qfloor_le q) as Hlo. pose proof (Qlt_floor q) as Hhi.
  rewrite inject_Z_plus in Hhi. change (inject_Z 1) with 1%Q in Hhi.
  unfold Py.round_half_even.
  destruct (Py.Qlt_bool (q - inject_Z (Qfloor q)) (1 # 2)) eqn:E1.
  - apply Qlt_bool_iff in E1. split; lra.
  - apply not_true_iff_false in E1. rewrite Qlt_bool_iff in E1.
    apply Qnot_lt_le in E1.
    destruct (Py.Qlt_bool (1 # 2) (q - inject_Z (Qfloor q))) eqn:E2.
    + rewrite inject_Z_plus. change (inject_Z 1) with 1%Q. split; lra.
    + apply not_true_iff_false in E2. rewrite Qlt_bool_iff in E2.
      apply Qnot_lt_le in E2.
      destruct (Z.even (Qfloor q)); [split; lra|].
      rewrite inject_Z_plus. change (inject_Z 1) with 1%Q. split; lra.
Qed.

Lemma round1_one_decimal x :
  (exists n : Z, Py.round1 x = (inject_Z n / 10)%Q)
  /\ (- (1 # 20) <= Py.round1 x - x /\ Py.round1 x - x <= 1 # 20)%Q.
Proof.
  split; [now eexists|].
  unfold Py.round1. destruct (round_half_even_error (x * 10)) as [L U].
  set (r := inject_Z (Py.round_half_even (x * 10))) in *.
  assert (E : (r / 10 == r * (1 # 10))%Q) by (unfold Qdiv; reflexivity).
  rewrite E. split; lra.
Qed.


(** ** The weights *)








(** * Further properties of the enricher *)

(** ** The phone number *)

Lemma Qfloor_unique (x : Q) (z : Z) :
  (inject_Z z <= x)%Q -> (x < inject_Z (z + 1))%Q -> Qfloor x = z.
Proof.
  intros Hlo Hhi.
  pose proof (Qfloor_le x) as Flo. pose proof (Qlt_floor x) as Fhi.
  assert (H1 : (inject_Z z < inject_Z (Qfloor x + 1))%Q)
    by (eapply Qle_lt_trans; eassumption).
  assert (H2 : (inject_Z (Qfloor x) < inject_Z (z + 1))%Q)
    by (eapply Qle_lt_trans; eassumption).
  rewrite <- Zlt_Qlt in H1, H2. lia.
Qed.

Lemma succeeds_randint_range a b :
  (a <= b)%Z ->
  Py.succeeds (Py.randint a b) (fun z => (a <= z <= b)%Z).
Proof.
  intros Hab. unfold Py.randint.
  eapply succeeds_bind; [apply randbelow_range; lia|].
  intros i Hi. apply succeeds_ret. cbv beta in Hi |- *. lia.
Qed.

Lemma decimal_texts_spec digits lo count z :
  Enriched.decimal_texts digits lo count = true ->
  (lo <= z < lo + count)%Z ->
  Enriched.fits (String.concat EmptyString (repeat "d" digits)) (pretty z)
  = true.
Proof.
  unfold Enriched.decimal_texts. rewrite forallb_forall. intros Hall Hz.
  apply Hall. apply list_elem_of_In, elem_of_seqZ. lia.
Qed.

Lemma fits_app m1 m2 s1 s2 :
  Enriched.fits m1 s1 = true -> Enriched.fits m2 s2 = true ->
  Enriched.fits (m1 ++ m2) (s1 ++ s2) = true.
Proof.
  revert s1. induction m1 as [|m m1 IH]; intros [|c s1]; simpl;
    try discriminate; [auto|].
  rewrite !andb_true_iff. intros [Hc H1] H2. auto.
Qed.

Lemma fits_length mask s :
  Enriched.fits mask s = true -> String.length s = String.length mask.
Proof.
  revert s. induction mask as [|m mask IH]; intros [|c s]; simpl;
    try discriminate; [reflexivity|].
  rewrite andb_true_iff. intros [_ H]. f_equal. auto.
Qed.

Lemma three_digits z :
  (200 <= z <= 999)%Z -> Enriched.fits "ddd" (pretty z) = true.
Proof.
  intros Hz. apply (decimal_texts_spec 3 200 800); [|lia].
  vm_compute. reflexivity.
Qed.

Lemma four_digits z :
  (1000 <= z <= 9999)%Z -> Enriched.fits "dddd" (pretty z) = true.
Proof.
  intros Hz. apply (decimal_texts_spec 4 1000 9000); [|lia].
  vm_compute. reflexivity.
Qed.

Lemma phone_text_fits a e n :
  (200 <= a <= 999)%Z -> (200 <= e <= 999)%Z -> (1000 <= n <= 9999)%Z ->
  Enriched.fits Enriched.phone_mask
    ("+1 (" ++ pretty a ++ ") " ++ pretty e ++ "-" ++ pretty n) = true.
Proof.
  intros Ha He Hn.
  change Enriched.phone_mask
    with ("+1 (" ++ "ddd" ++ ") " ++ "ddd" ++ "-" ++ "dddd").
  repeat apply fits_app;
    auto using three_digits, four_digits.
Qed.

(** X1: The phone number is "+1 (AAA) EEE-NNNN" for an area code and an
    exchange between 200 and 999 and a number between 1000 and 9999, so a
    text of 17 characters in which only the ten digit places vary; three
    draws are read. *)
Theorem phone_number_format (g : Py.rng) :
  Py.rng_ok g ->
  exists area_code exchange number,
    LeadEnricher._generate_phone_number g
    = (inr ("+1 (" ++ pretty area_code ++ ") " ++ pretty exchange
            ++ "-" ++ pretty number),
       Py.advance (Py.advance (Py.advance g)))
    /\ (200 <= area_code <= 999)%Z
    /\ (200 <= exchange <= 999)%Z
    /\ (1000 <= number <= 9999)%Z
    /\ Enriched.fits "+1 (ddd) ddd-dddd"
         ("+1 (" ++ pretty area_code ++ ") " ++ pretty exchange
          ++ "-" ++ pretty number) = true
    /\ String.length ("+1 (" ++ pretty area_code ++ ") " ++ pretty exchange
                      ++ "-" ++ pretty number) = 17%nat.
Proof.
  intros Hg.
  pose proof (rng_ok_advance g Hg) as Hg1.
  pose proof (rng_ok_advance _ Hg1) as Hg2.
  destruct (succeeds_randint_range 200 999 ltac:(lia) g Hg)
    as (a & ga & Ea & _ & Ha).
  destruct (succeeds_randint_range 200 999 ltac:(lia) _ Hg1)
    as (e & ge & Ee & _ & He).
  destruct (succeeds_randint_range 1000 9999 ltac:(lia) _ Hg2)
    as (n & gn & En & _ & Hn).
  assert (Ga : ga = Py.advance g) by (now injection Ea).
  assert (Ge : ge = Py.advance (Py.advance g)) by (now injection Ee).
  assert (Gn : gn = Py.advance (Py.advance (Py.advance g)))
    by (now injection En).
  subst ga ge gn.
  exists a, e, n. split.
  - unfold LeadEnricher._generate_phone_number.
    unfold Py.bind at 1. rewrite Ea.
    unfold Py.bind at 1. rewrite Ee.
    unfold Py.bind at 1. rewrite En. reflexivity.
  - repeat (split; [lia|]).
    pose proof (phone_text_fits a e n Ha He Hn) as Hfit.
    split; [exact Hfit|]. now apply fits_length in Hfit.
Qed.

Lemma phone_number_format_witness :
  exists area_code exchange number,
    LeadEnricher._generate_phone_number
      (Samples.list_rng [ 0.5; 0.25; 0.75 ]%Q)
    = (inr ("+1 (" ++ pretty area_code ++ ") " ++ pretty exchange
            ++ "-" ++ pretty number),
       Py.advance (Py.advance (Py.advance
                     (Samples.list_rng [ 0.5; 0.25; 0.75 ]%Q))))
    /\ (200 <= area_code <= 999)%Z
    /\ (200 <= exchange <= 999)%Z
    /\ (1000 <= number <= 9999)%Z
    /\ Enriched.fits "+1 (ddd) ddd-dddd"
         ("+1 (" ++ pretty area_code ++ ") " ++ pretty exchange
          ++ "-" ++ pretty number) = true
    /\ String.length ("+1 (" ++ pretty area_code ++ ") " ++ pretty exchange
                      ++ "-" ++ pretty number) = 17%nat.
Proof.
  exact (phone_number_format (Samples.list_rng [ 0.5; 0.25; 0.75 ]%Q)
           (list_rng_ok [ 0.5; 0.25; 0.75 ]%Q eq_refl)).
Defined.

(** ** The seniority *)

Lemma choice_of_two {A} (x y : A) (g : Py.rng) :
  Py.rng_ok g ->
  Py.choice [ x; y ] g = (inr x, Py.advance g)
  \/ Py.choice [ x; y ] g = (inr y, Py.advance g).
Proof.
  intros Hg.
  destruct (succeeds_choice [ x; y ] ltac:(discriminate) g Hg)
    as (a & g' & E & _ & Ha).
  assert (Eg : g' = Py.advance g).
  { revert E. unfold Py.choice, Py.randbelow, Py.bind, Py.random, Py.ret,
      Py.raise.
    destruct (_ !! _); intros H; now inversion H. }
  subst g'. rewrite E.
  destruct Ha as [<-|[<-|[]]]; [now left | now right].
Qed.

(** X2: The seniority is read off the lowercased job title by three rules
    tried in order; when none matches, one draw is read and the result is
    Mid-level or Senior.  The text of the email is never looked at, but
    an email that is not a text raises [AttributeError]. *)
Theorem seniority_cascade (job_title email : string) (g : Py.rng) :
  let title := Text.lower job_title in
  let r1 :=
    Text.hits [ "ceo"; "cto"; "vp"; "head"; "director"; "chief" ] title in
  let r2 :=
    Text.hits [ "senior"; "lead"; "principal"; "staff"; "manager" ] title in
  let r3 := Text.hits [ "junior"; "associate"; "intern" ] title in
  let result :=
    LeadEnricher._determine_seniority job_title (Py.Str email) g in
  (r1 -> result = (inr "Executive", g))
  /\ (~ r1 -> r2 -> result = (inr "Senior", g))
  /\ (~ r1 -> ~ r2 -> r3 -> result = (inr "Junior", g))
  /\ (~ r1 -> ~ r2 -> ~ r3 -> Py.rng_ok g ->
      result = (inr "Mid-level", Py.advance g)
      \/ result = (inr "Senior", Py.advance g))
  /\ (forall other_email,
        LeadEnricher._determine_seniority job_title (Py.Str other_email) g
        = result)
  /\ (forall q,
        LeadEnricher._determine_seniority job_title (Py.Num q) g
        = (inl (Py.AttributeError "lower"), g)).
Proof.
  intros title r1 r2 r3 result.
  assert (Hrun : forall e,
    LeadEnricher._determine_seniority job_title (Py.Str e) g
    = if Text.any_in [ "ceo"; "cto"; "vp"; "head"; "director"; "chief" ]
           title
      then (inr "Executive", g)
      else if Text.any_in
                [ "senior"; "lead"; "principal"; "staff"; "manager" ] title
      then (inr "Senior", g)
      else if Text.any_in [ "junior"; "associate"; "intern" ] title
      then (inr "Junior", g)
      else Py.choice [ "Mid-level"; "Senior" ] g).
  { intros e. unfold LeadEnricher._determine_seniority, Py.bind,
      Py.str_lower, Py.ret. fold title.
    repeat match goal with
           | |- context [if Text.any_in ?ps ?s then _ else _] =>
               destruct (Text.any_in ps s)
           end; reflexivity. }
  unfold result, r1, r2, r3.
  split; [|split; [|split; [|split; [|split]]]].
  - intros H1. apply any_in_spec in H1. now rewrite Hrun, H1.
  - intros H1 H2. apply any_in_false in H1. apply any_in_spec in H2.
    now rewrite Hrun, H1, H2.
  - intros H1 H2 H3. apply any_in_false in H1, H2. apply any_in_spec in H3.
    now rewrite Hrun, H1, H2, H3.
  - intros H1 H2 H3 Hg. apply any_in_false in H1, H2, H3.
    rewrite Hrun, H1, H2, H3. now apply choice_of_two.
  - intros other. now rewrite !Hrun.
  - reflexivity.
Qed.

Lemma seniority_cascade_witness :
  LeadEnricher._determine_seniority "Data Engineer"
    (Py.Str "jane.doe@acme.com") (Samples.list_rng [ 0.25%Q ])
  = (inr "Mid-level", Py.advance (Samples.list_rng [ 0.25%Q ]))
  \/ LeadEnricher._determine_seniority "Data Engineer"
       (Py.Str "jane.doe@acme.com") (Samples.list_rng [ 0.25%Q ])
     = (inr "Senior", Py.advance (Samples.list_rng [ 0.25%Q ])).
Proof.
  refine (proj1 (proj2 (proj2 (proj2
            (seniority_cascade "Data Engineer" "jane.doe@acme.com"
               (Samples.list_rng [ 0.25%Q ]))))) _ _ _ _);
    try (apply any_in_false; reflexivity).
  exact (list_rng_ok [ 0.25%Q ] eq_refl).
Defined.

(** ** The enriched record *)

Lemma job_titles_pool category pool :
  LeadEnricher.job_titles !! category = Some pool ->
  In (category, pool)
    [ ("technical",
       [ "Software Engineer"; "Senior Software Engineer"; "Lead Developer";
         "Full Stack Developer"; "Frontend Developer"; "Backend Developer";
         "DevOps Engineer"; "Site Reliability Engineer"; "Data Engineer";
         "Machine Learning Engineer"; "AI Engineer"; "Cloud Architect" ]);
      ("management",
       [ "Engineering Manager"; "Technical Lead"; "Team Lead";
         "Principal Engineer"; "Staff Engineer"; "Senior Technical Lead" ]);
      ("executive",
       [ "CTO"; "VP Engineering"; "Head of Engineering";
         "Director of Technology"; "Chief Technology Officer";
         "VP of Product"; "Head of IT" ]);
      ("decision_maker",
       [ "CEO"; "Founder"; "Co-Founder"; "President"; "VP Sales";
         "Chief Executive Officer"; "Managing Director" ]);
      ("other",
       [ "Product Manager"; "Project Manager"; "Business Analyst";
         "Technical Writer"; "QA Engineer"; "Sales Engineer" ]) ].
Proof.
  intros H. apply elem_of_list_to_map_2 in H. now apply list_elem_of_In.
Qed.

Lemma pool_titles_not_junior category pool title :
  LeadEnricher.job_titles !! category = Some pool ->
  In title pool ->
  Text.any_in [ "junior"; "associate"; "intern" ] (Text.lower title) = false.
Proof.
  intros Hpool Hin. apply job_titles_pool in Hpool. simpl in Hpool.
  repeat (destruct Hpool as [Hpool|Hpool];
          [injection Hpool as <- <-; simpl in Hin;
           repeat (destruct Hin as [<-|Hin]; [reflexivity|]);
           contradiction|]).
  contradiction.
Qed.

Lemma succeeds_seniority_assigned job_title email :
  Text.any_in [ "junior"; "associate"; "intern" ] (Text.lower job_title)
  = false ->
  Py.succeeds
    (LeadEnricher._determine_seniority job_title (Py.Str email))
    (fun s => In s [ "Executive"; "Senior"; "Mid-level" ]).
Proof.
  intros Hj. unfold LeadEnricher._determine_seniority, Py.str_lower.
  apply (succeeds_bind _ _ (fun _ => True)); [now apply succeeds_ret|].
  intros ? _. rewrite Hj.
  repeat succeeds_step; try (simpl; now auto).
  eapply succeeds_weaken; [apply succeeds_choice; discriminate|].
  simpl. intros level [<-|[<-|[]]]; auto.
Qed.

Lemma succeeds_company_size_listed domain :
  Py.succeeds (LeadEnricher._determine_company_size (Py.Str domain))
    (fun size => In size LeadEnricher.company_sizes).
Proof.
  unfold LeadEnricher._determine_company_size, Py.str_lower.
  apply (succeeds_bind _ _ (fun _ => True)); [now apply succeeds_ret|].
  intros ? _.
  repeat succeeds_step; try (simpl; now auto 10).
  apply succeeds_choices_company_sizes.
Qed.

Lemma succeeds_phone_number_fits :
  Py.succeeds LeadEnricher._generate_phone_number
    (fun phone => Enriched.fits Enriched.phone_mask phone = true).
Proof.
  unfold LeadEnricher._generate_phone_number.
  eapply succeeds_bind; [apply (succeeds_randint_range 200 999); lia|].
  intros a Ha.
  eapply succeeds_bind; [apply (succeeds_randint_range 200 999); lia|].
  intros e He.
  eapply succeeds_bind; [apply (succeeds_randint_range 1000 9999); lia|].
  intros n Hn. apply succeeds_ret. now apply phone_text_fits.
Qed.

Lemma succeeds_enrich_single_lead_shape row :
  Schema.raw_lead row ->
  Py.succeeds (LeadEnricher._enrich_single_lead row)
    (fun out => Enriched.extends row out /\ Enriched.values out).
Proof.
  intros (name & email & domain & Hn & He & Hd).
  unfold LeadEnricher._enrich_single_lead.
  eapply succeeds_bind; [apply (succeeds_getitem _ _ _ Hn)|]. intros ? ->.
  eapply succeeds_bind; [apply (succeeds_getitem _ _ _ He)|]. intros ? ->.
  eapply succeeds_bind; [apply (succeeds_getitem _ _ _ Hd)|]. intros ? ->.
  eapply succeeds_bind; [apply succeeds_job_category|]. intros category Hc.
  destruct (job_titles_total category Hc) as (titles & Ht & Hne).
  eapply succeeds_bind; [apply (succeeds_getitem _ _ _ Ht)|]. intros ? ->.
  eapply succeeds_bind; [now apply succeeds_choice|]. intros job_title Hjt.
  eapply succeeds_bind;
    [apply succeeds_seniority_assigned;
     exact (pool_titles_not_junior category titles job_title Ht Hjt)|].
  intros seniority Hs.
  apply (succeeds_bind _ _
           (fun url => url = LeadEnricher.linkedin_prefix
                             ++ Text.replace_char " " "-"
                                  (Text.lower
                                     (Text.keep LeadEnricher.kept name))));
    [now apply succeeds_ret|].
  intros ? ->.
  eapply succeeds_bind; [apply succeeds_choice; discriminate|].
  intros tech Htech.
  eapply succeeds_bind; [apply succeeds_company_size_listed|].
  intros size Hsize.
  eapply succeeds_bind; [apply succeeds_phone_number_fits|].
  intros phone Hphone.
  apply succeeds_ret. split.
  - unfold Enriched.extends. rewrite Hn, He, Hd.
    split; [reflexivity|]. split; [reflexivity|]. split; [reflexivity|].
    split.
    + intros field Hin. simpl in Hin.
      repeat (destruct Hin as [<-|Hin]; [eexists; reflexivity|]).
      contradiction.
    + intros field [v Hv]. apply elem_of_list_to_map_2 in Hv.
      apply list_elem_of_In in Hv. simpl in Hv. simpl.
      repeat (destruct Hv as [Hv|Hv]; [injection Hv as <- _; auto 12|]).
      contradiction.
  - exists name, category, titles, job_title, seniority, tech, size, phone.
    repeat (split; [first [reflexivity | assumption]|]). assumption.
Qed.

Lemma succeeds_enrich_leads df :
  Forall Schema.raw_lead df ->
  Py.succeeds (LeadEnricher.enrich_leads df)
    (fun out => Forall2 Enriched.extends df out
                /\ Forall Enriched.values out).
Proof.
  induction 1 as [|row df Hrow Hdf IH]; simpl.
  - apply succeeds_ret. split; constructor.
  - eapply succeeds_bind; [now apply succeeds_enrich_single_lead_shape|].
    intros out [Hext Hval].
    eapply succeeds_bind; [exact IH|].
    intros outs [Hexts Hvals]. apply succeeds_ret.
    split; constructor; assumption.
Qed.

(** X3: A batch of raw leads is enriched without error, into as many records
    as there are rows and in the same order: the record at each position
    has the name, the email and the domain of the row at that position,
    and exactly the ten fields of an enriched lead, all of them texts. *)
Theorem enrich_leads_order (df : list (gmap string Py.pyval)) (g : Py.rng) :
  Py.rng_ok g ->
  Forall Schema.raw_lead df ->
  exists out g',
    LeadEnricher.enrich_leads df g = (inr out, g')
    /\ List.length out = List.length df
    /\ (forall i row,
          df !! i = Some row ->
          exists record,
            out !! i = Some record
            /\ record !! "name" = row !! "name"
            /\ record !! "email" = row !! "email"
            /\ record !! "company_domain" = row !! "company_domain"
            /\ (forall field,
                  (exists s, record !! field = Some (Py.Str s))
                  <-> In field
                        [ "name"; "email"; "company_domain"; "job_title";
                          "seniority_level"; "linkedin_url"; "tech_stack";
                          "company_size"; "phone"; "job_category" ])
            /\ (forall field, is_Some (record !! field) ->
                              exists s, record !! field = Some (Py.Str s))).
Proof.
  intros Hg Hdf.
  destruct (succeeds_enrich_leads df Hdf g Hg)
    as (out & g' & E & _ & Hext & _).
  exists out, g'. split; [exact E|]. split.
  - symmetry. eapply Forall2_length, Hext.
  - intros i row Hi.
    destruct (Forall2_lookup_l _ _ _ _ _ Hext Hi)
      as (record & Ho & Hn & He & Hd & Hall & Honly).
    exists record. repeat (split; [assumption|]).
    split.
    + intros field. split; [|apply Hall].
      intros [s Hs]. apply Honly. eauto.
    + intros field Hsome. apply Hall, Honly, Hsome.
Qed.

Lemma sample_raw_leads :
  Forall Schema.raw_lead [ Samples.raw_row; Samples.raw_row ].
Proof. repeat constructor; eexists _, _, _; repeat split; reflexivity. Qed.

Lemma enrich_leads_order_witness :
  exists out g',
    LeadEnricher.enrich_leads [ Samples.raw_row; Samples.raw_row ]
      (Samples.list_rng [ 0.5; 0.25; 0.75 ]%Q)
    = (inr out, g')
    /\ List.length out = 2%nat.
Proof.
  destruct (enrich_leads_order [ Samples.raw_row; Samples.raw_row ]
              (Samples.list_rng [ 0.5; 0.25; 0.75 ]%Q)
              (list_rng_ok [ 0.5; 0.25; 0.75 ]%Q eq_refl)
              sample_raw_leads)
    as (out & g' & E & Hlen & _).
  exists out, g'. split; [exact E | exact Hlen].
Defined.

(** X4: The record made for a raw lead has a category of the catalogue, a
    job title of the pool of that category, a seniority that is
    Executive, Senior or Mid-level (never Junior: no title of the pools
    holds one of the words that give it), the URL made from the name, a
    tech stack and a company size of the catalogues, and a phone number
    of the shape "+1 (ddd) ddd-dddd". *)
Theorem enriched_values (row : gmap string Py.pyval) (g : Py.rng) :
  Py.rng_ok g ->
  Schema.raw_lead row ->
  exists out g',
    LeadEnricher._enrich_single_lead row g = (inr out, g')
    /\ Enriched.values out
    /\ out !! "seniority_level" <> Some (Py.Str "Junior").
Proof.
  intros Hg Hrow.
  destruct (succeeds_enrich_single_lead_shape row Hrow g Hg)
    as (out & g' & E & _ & _ & Hval).
  exists out, g'. split; [exact E|]. split; [exact Hval|].
  destruct Hval as (? & ? & ? & ? & s & ? & ? & ? & _ & _ & _ & _ & _ & Hs
                    & Hin & _).
  rewrite Hs. intros [= ->]. simpl in Hin.
  destruct Hin as [H|[H|[H|[]]]]; discriminate H.
Qed.

Lemma sample_raw_lead : Schema.raw_lead Samples.raw_row.
Proof. eexists _, _, _; repeat split; reflexivity. Qed.

Lemma enriched_values_witness :
  exists out g',
    LeadEnricher._enrich_single_lead Samples.raw_row
      (Samples.list_rng [ 0.5; 0.25; 0.75 ]%Q)
    = (inr out, g')
    /\ Enriched.values out
    /\ out !! "seniority_level" <> Some (Py.Str "Junior").
Proof.
  exact (enriched_values Samples.raw_row
           (Samples.list_rng [ 0.5; 0.25; 0.75 ]%Q)
           (list_rng_ok [ 0.5; 0.25; 0.75 ]%Q eq_refl) sample_raw_lead).
Defined.

(** * Further properties of the scoring engine *)

(** ** The job-title and buying-intent sub-scores *)

Lemma pymax_spec a b :
  (a <= Py.pymax a b /\ b <= Py.pymax a b
   /\ (Py.pymax a b == a \/ Py.pymax a b == b))%Q.
Proof.
  unfold Py.pymax. destruct (Py.Qlt_bool a b) eqn:E.
  - apply Qlt_bool_iff in E. repeat split; lra.
  - apply not_true_iff_false in E. rewrite Qlt_bool_iff in E.
    apply Qnot_lt_le in E. repeat split; lra.
Qed.

Lemma pymin_spec a b :
  (Py.pymin a b <= a /\ Py.pymin a b <= b
   /\ (Py.pymin a b == a \/ Py.pymin a b == b))%Q.
Proof.
  unfold Py.pymin. destruct (Py.Qlt_bool b a) eqn:E.
  - apply Qlt_bool_iff in E. repeat split; lra.
  - apply not_true_iff_false in E. rewrite Qlt_bool_iff in E.
    apply Qnot_lt_le in E. repeat split; lra.
Qed.

Lemma Qle_bool_false x y : (y < x)%Q -> Qle_bool x y = false.
Proof.
  intros H. apply not_true_iff_false. rewrite Qle_bool_iff. lra.
Qed.

Lemma clamp_cases x :
  ((x <= 0 /\ ScoringEngine.clamp x == 0)
   \/ (0 <= x /\ x <= 100 /\ ScoringEngine.clamp x == x)
   \/ (100 <= x /\ ScoringEngine.clamp x == 100))%Q.
Proof.
  unfold ScoringEngine.clamp.
  destruct (pymin_spec 100 x) as (M1 & M2 & M3).
  destruct (pymax_spec 0 (Py.pymin 100 x)) as (X1 & X2 & X3).
  destruct (Qlt_le_dec x 0); [left|right; destruct (Qlt_le_dec 100 x);
                                     [right|left]];
    repeat split; try lra;
    destruct M3 as [M3|M3], X3 as [X3|X3]; lra.
Qed.

Lemma clamp_monotone x y :
  (x <= y)%Q -> (ScoringEngine.clamp x <= ScoringEngine.clamp y)%Q.
Proof.
  intros H.
  destruct (clamp_cases x) as [[? ?]|[[? [? ?]]|[? ?]]],
           (clamp_cases y) as [[? ?]|[[? [? ?]]|[? ?]]]; lra.
Qed.

Lemma dict_get_listed {V} (table : list (string * V)) (key : Py.pyval)
    (default : V) :
  Py.dict_get (list_to_map table) key default = default
  \/ In (Py.dict_get (list_to_map table) key default) (List.map snd table).
Proof.
  destruct key as [s|q]; [|now left]. simpl.
  destruct (list_to_map table !! s) as [v|] eqn:E; [right|now left].
  apply elem_of_list_to_map_2, list_elem_of_In in E.
  now apply (in_map snd) in E.
Qed.

(** Splits on the value a lookup with default can have in [table]. *)
Ltac table_cases table key default tac :=
  let H := fresh "H" in
  let r := fresh "r" in
  pose proof (dict_get_listed table key default) as H;
  set (r := Py.dict_get (list_to_map table) key default) in *;
  clearbody r;
  destruct H as [H|H];
  [ rewrite H; tac
  | simpl in H; repeat (destruct H as [H|H]; [rewrite <- H; tac|]);
    contradiction ].

(** X5: The job-title score is the draw from the range of the category plus
    the bonus of the seniority, clamped: it lies between the clamped ends
    of the shifted range, never below 20, and a decision maker of
    Executive seniority always scores 100. *)
Theorem job_title_score_range (category seniority : Py.pyval) (g : Py.rng) :
  Py.rng_ok g ->
  let range :=
    Py.dict_get ScoringEngine.job_title_scores category (30, 60)%Q in
  let bonus := Py.dict_get ScoringEngine.job_seniority_bonus seniority 0%Q in
  let u := Py.draws g (Py.cursor g) in
  exists score,
    ScoringEngine._score_job_title category seniority g
    = (inr score, Py.advance g)
    /\ score
       = ScoringEngine.clamp
           (fst range + (snd range - fst range) * u + bonus)%Q
    /\ (ScoringEngine.clamp (fst range + bonus) <= score)%Q
    /\ (score <= ScoringEngine.clamp (snd range + bonus))%Q
    /\ (20 <= score /\ score <= 100)%Q
    /\ (category = Py.Str "decision_maker" ->
        seniority = Py.Str "Executive" -> score == 100)%Q.
Proof.
  intros Hg range bonus u. destruct (Hg (Py.cursor g)) as [U0 U1].
  fold u in U0, U1.
  eexists. split; [reflexivity|]. split; [reflexivity|].
  fold range bonus u.
  assert (Hrange : (30 <= fst range /\ fst range <= snd range)%Q).
  { unfold range, ScoringEngine.job_title_scores.
    table_cases
      [ ("decision_maker", (90, 100)%Q); ("executive", (80, 95)%Q);
        ("management", (70, 85)%Q); ("technical", (60, 80)%Q);
        ("other", (30, 60)%Q) ] category (30, 60)%Q
      ltac:(simpl; split; lra). }
  assert (Hbonus : (-10 <= bonus)%Q).
  { unfold bonus, ScoringEngine.job_seniority_bonus.
    table_cases
      [ ("Executive", 10%Q); ("Senior", 5%Q);
        ("Mid-level", 0%Q); ("Junior", (-10)%Q) ] seniority 0%Q
      ltac:(lra). }
  destruct Hrange as [Hlo Hspan].
  set (lo := fst range) in *. set (hi := snd range) in *.
  assert (Hdraw : (lo <= lo + (hi - lo) * u /\ lo + (hi - lo) * u <= hi)%Q)
    by (split; nra).
  split; [apply clamp_monotone; lra|].
  split; [apply clamp_monotone; lra|].
  split.
  - destruct (clamp_cases (lo + (hi - lo) * u + bonus))
      as [[? ?]|[[? [? ?]]|[? ?]]]; split; lra.
  - intros -> ->.
    change lo with 90%Q. change hi with 100%Q. change bonus with 10%Q.
    destruct (clamp_cases (90 + (100 - 90) * u + 10))
      as [[? ?]|[[? [? ?]]|[? ?]]]; lra.
Qed.

Lemma job_title_score_range_witness :
  exists score,
    ScoringEngine._score_job_title (Py.Str "decision_maker")
      (Py.Str "Executive") (Samples.list_rng [ 0.25%Q ])
    = (inr score, Py.advance (Samples.list_rng [ 0.25%Q ]))
    /\ (score == 100)%Q.
Proof.
  destruct (job_title_score_range (Py.Str "decision_maker")
              (Py.Str "Executive") (Samples.list_rng [ 0.25%Q ])
              (list_rng_ok [ 0.25%Q ] eq_refl))
    as (score & E & _ & _ & _ & _ & H).
  exists score. split; [exact E | exact (H eq_refl eq_refl)].
Defined.

(** X6: The buying-intent score is the sum of the three bonuses read from
    the lead, at most 50 together, of a market factor of 25 times a draw
    and of a noise of -10 plus 20 times a draw, clamped at 0: it is at
    most 85, so the upper clamp at 100 is never reached, and a lead whose
    bonuses sum to less than 40 is never explained by strong buying
    signals. *)
Theorem buying_intent_range (lead : gmap string Py.pyval) (g : Py.rng)
    (category size seniority : Py.pyval) :
  Py.rng_ok g ->
  lead !! "job_category" = Some category ->
  lead !! "company_size" = Some size ->
  lead !! "seniority_level" = Some seniority ->
  let category_factor :=
    if Py.eq_str category "decision_maker" || Py.eq_str category "executive"
    then 20%Q
    else if Py.eq_str category "management" then 10%Q else 0%Q in
  let bonuses :=
    (category_factor
     + Py.dict_get ScoringEngine.intent_size_bonus size 0
     + Py.dict_get ScoringEngine.intent_seniority_bonus seniority 0)%Q in
  let market := (25 * Py.draws g (Py.cursor g))%Q in
  let noise := (-10 + 20 * Py.draws g (S (Py.cursor g)))%Q in
  exists score,
    ScoringEngine._score_buying_intent lead g
    = (inr score, Py.advance (Py.advance g))
    /\ (score == ScoringEngine.clamp (bonuses + market + noise))%Q
    /\ (0 <= bonuses /\ bonuses <= 50)%Q
    /\ (0 <= score /\ score <= 85)%Q
    /\ (bonuses - 10 <= score /\ score <= bonuses + 35)%Q
    /\ ((bonuses < 40)%Q ->
        ScoringEngine.intent_clause score <> "strong buying signals").
Proof.
  intros Hg Hc Hz Hs category_factor bonuses market noise.
  destruct (Hg (Py.cursor g)) as [U0 U1].
  destruct (Hg (S (Py.cursor g))) as [V0 V1].
  assert (Hcat : (0 <= category_factor /\ category_factor <= 20)%Q).
  { unfold category_factor.
    destruct (_ || _); [|destruct (Py.eq_str category "management")];
      split; lra. }
  assert (Hsize : (0 <= Py.dict_get ScoringEngine.intent_size_bonus size 0
                   /\ Py.dict_get ScoringEngine.intent_size_bonus size 0
                      <= 15)%Q).
  { unfold ScoringEngine.intent_size_bonus.
    table_cases
      [ ("Enterprise", 15%Q); ("Large", 10%Q); ("Medium", 5%Q);
        ("Small", 0%Q); ("Startup", 10%Q) ] size 0%Q
      ltac:(split; lra). }
  assert (Hsen : (0 <= Py.dict_get ScoringEngine.intent_seniority_bonus
                         seniority 0
                  /\ Py.dict_get ScoringEngine.intent_seniority_bonus
                       seniority 0 <= 15)%Q).
  { unfold ScoringEngine.intent_seniority_bonus.
    table_cases
      [ ("Executive", 15%Q); ("Senior", 10%Q);
        ("Mid-level", 5%Q); ("Junior", 0%Q) ] seniority 0%Q
      ltac:(split; lra). }
  set (size_bonus := Py.dict_get ScoringEngine.intent_size_bonus size 0%Q)
    in *.
  set (seniority_bonus :=
         Py.dict_get ScoringEngine.intent_seniority_bonus seniority 0%Q)
    in *.
  assert (Erun :
    ScoringEngine._score_buying_intent lead g
    = (inr (ScoringEngine.clamp
              (Py.sum_list
                 [ category_factor; size_bonus; seniority_bonus;
                   (0 + (25 - 0) * Py.draws g (Py.cursor g))%Q ]
               + (-10 + (10 - -10) * Py.draws g (S (Py.cursor g))))%Q),
       Py.advance (Py.advance g))).
  { unfold ScoringEngine._score_buying_intent, Py.bind, Py.getitem.
    rewrite Hc, Hz, Hs. unfold Py.ret. unfold category_factor.
    destruct (Py.eq_str category "decision_maker"
              || Py.eq_str category "executive");
      [|destruct (Py.eq_str category "management")]; reflexivity. }
  eexists. split; [exact Erun|].
  assert (Earg :
    (Py.sum_list
       [ category_factor; size_bonus; seniority_bonus;
         (0 + (25 - 0) * Py.draws g (Py.cursor g))%Q ]
     + (-10 + (10 - -10) * Py.draws g (S (Py.cursor g)))
     == bonuses + market + noise)%Q).
  { unfold Py.sum_list, bonuses, market, noise. simpl. ring. }
  set (x := (Py.sum_list _ + _)%Q) in *.
  assert (Hx : (bonuses - 10 <= x /\ x < bonuses + 35)%Q).
  { rewrite Earg. unfold market, noise. split; lra. }
  assert (Hb : (0 <= bonuses /\ bonuses <= 50)%Q)
    by (unfold bonuses; split; lra).
  assert (Hclamp : (ScoringEngine.clamp x
                    == ScoringEngine.clamp (bonuses + market + noise))%Q).
  { destruct (clamp_cases x) as [[? ?]|[[? [? ?]]|[? ?]]],
             (clamp_cases (bonuses + market + noise))
               as [[? ?]|[[? [? ?]]|[? ?]]]; lra. }
  split; [exact Hclamp|]. split; [exact Hb|].
  pose proof (clamp_cases x) as Hcases.
  split; [destruct Hcases as [[? ?]|[[? [? ?]]|[? ?]]]; split; lra|].
  split; [destruct Hcases as [[? ?]|[[? [? ?]]|[? ?]]]; split; lra|].
  intros Hlow. unfold ScoringEngine.intent_clause.
  rewrite (Qle_bool_false 75 (ScoringEngine.clamp x)).
  - destruct (Qle_bool 50 (ScoringEngine.clamp x)); discriminate.
  - destruct Hcases as [[? ?]|[[? [? ?]]|[? ?]]]; lra.
Qed.

Lemma buying_intent_range_witness :
  exists score,
    ScoringEngine._score_buying_intent Samples.enriched_lead
      (Samples.list_rng [ 0.5; 0.61 ]%Q)
    = (inr score, Py.advance (Py.advance (Samples.list_rng [ 0.5; 0.61 ]%Q)))
    /\ (0 <= score /\ score <= 85)%Q.
Proof.
  destruct (buying_intent_range Samples.enriched_lead
              (Samples.list_rng [ 0.5; 0.61 ]%Q)
              (Py.Str "technical") (Py.Str "Medium") (Py.Str "Mid-level")
              (list_rng_ok [ 0.5; 0.61 ]%Q eq_refl)
              eq_refl eq_refl eq_refl)
    as (score & E & _ & _ & H & _).
  exists score. split; [exact E | exact H].
Defined.

(** ** Scoring a table *)

Lemma bind_inr {A B} (m : Py.M A) (k : A -> Py.M B) g a g' :
  m g = (inr a, g') -> Py.bind m k g = k a g'.
Proof. intros E. unfold Py.bind. now rewrite E. Qed.

Lemma bind_inl {A B} (m : Py.M A) (k : A -> Py.M B) g e g' :
  m g = (inl e, g') -> Py.bind m k g = (inl e, g').
Proof. intros E. unfold Py.bind. now rewrite E. Qed.

Lemma succeeds_score_single_lead (repr_float : Q -> string)
    (self : ScoringEngine.t) (lead : gmap string Py.pyval) :
  Schema.enriched_lead lead ->
  Schema.scoring_weights (ScoringEngine.weights self) ->
  Py.succeeds (ScoringEngine._score_single_lead repr_float self lead)
    (Scored.extends lead).
Proof.
  intros ([c Hc] & [s Hs] & [z Hz] & [ts Ht]) ([wj Wj] & [wt Wt] & [wi Wi])
         g Hg.
  destruct (score_single_lead_run repr_float self lead g
              c s z ts wj wt wi Hc Hs Hz Ht Wj Wt Wi Hg)
    as (j & t & i & scored & H).
  cbv zeta in H.
  destruct H as (_ & _ & _ & Er & Fj & Ft & Fi & Fl & Fe & Frame
                 & Bj & Bt & Bi).
  exists scored. eexists. split; [exact Er|]. split.
  { now do 4 apply rng_ok_advance. }
  split; [exact Frame|].
  eexists _, _, _, _, _.
  split; [exact Fj|]. split; [exact Ft|]. split; [exact Fi|].
  split; [exact Fl|]. split; [exact Fe|].
  split; [apply round1_bounds; tauto|].
  split; [apply round1_bounds; lra|].
  split; [apply round1_bounds; tauto|].
  apply round1_bounds; apply clamp_bounds.
Qed.

Lemma succeeds_score_leads (repr_float : Q -> string)
    (self : ScoringEngine.t) (df : list (gmap string Py.pyval)) :
  Forall Schema.enriched_lead df ->
  Schema.scoring_weights (ScoringEngine.weights self) ->
  Py.succeeds (ScoringEngine.score_leads repr_float self df)
    (Forall2 Scored.extends df).
Proof.
  intros Hdf Hw. induction Hdf as [|lead df Hlead Hdf IH]; simpl.
  - apply succeeds_ret. constructor.
  - eapply succeeds_bind; [now apply succeeds_score_single_lead|].
    intros scored Hscored.
    eapply succeeds_bind; [exact IH|].
    intros rest Hrest. apply succeeds_ret. now constructor.
Qed.

(** X7: A table of enriched leads is scored without error, into as many
    records as there are leads and in the same order: the record at each
    position is the lead at that position with the five score fields
    written, the four scores between 0 and 100. *)
Theorem score_leads_order (repr_float : Q -> string)
    (self : ScoringEngine.t) (df : list (gmap string Py.pyval))
    (g : Py.rng) :
  Py.rng_ok g ->
  Forall Schema.enriched_lead df ->
  Schema.scoring_weights (ScoringEngine.weights self) ->
  exists out g',
    ScoringEngine.score_leads repr_float self df g = (inr out, g')
    /\ List.length out = List.length df
    /\ (forall i lead,
          df !! i = Some lead ->
          exists scored,
            out !! i = Some scored
            /\ (forall field,
                  ~ In field
                      [ "job_title_score"; "tech_stack_score";
                        "buying_intent_score"; "lead_score";
                        "score_explanation" ] ->
                  scored !! field = lead !! field)
            /\ (exists total,
                  scored !! "lead_score" = Some (Py.Num total)
                  /\ (0 <= total /\ total <= 100)%Q)).
Proof.
  intros Hg Hdf Hw.
  destruct (succeeds_score_leads repr_float self df Hdf Hw g Hg)
    as (out & g' & E & _ & Hall).
  exists out, g'. split; [exact E|]. split.
  - symmetry. eapply Forall2_length, Hall.
  - intros i lead Hi.
    destruct (Forall2_lookup_l _ _ _ _ _ Hall Hi)
      as (scored & Ho & Frame & j & t & n & total & e & _ & _ & _ & Fl & _
          & _ & _ & _ & Bl).
    exists scored. split; [exact Ho|]. split; [exact Frame|].
    now exists total.
Qed.

Lemma score_leads_order_witness :
  exists out g',
    ScoringEngine.score_leads Samples.repr_fraction ScoringEngine.__init__
      [ Samples.enriched_lead; Samples.senior_lead ]
      (Samples.list_rng [ 0.123; 0.456; 0.5; 0.61 ]%Q)
    = (inr out, g')
    /\ List.length out = 2%nat.
Proof.
  destruct (score_leads_order Samples.repr_fraction ScoringEngine.__init__
              [ Samples.enriched_lead; Samples.senior_lead ]
              (Samples.list_rng [ 0.123; 0.456; 0.5; 0.61 ]%Q)
              (list_rng_ok [ 0.123; 0.456; 0.5; 0.61 ]%Q eq_refl))
    as (out & g' & E & Hlen & _).
  - repeat constructor; vm_compute; eauto.
  - exact init_scoring_weights.
  - exists out, g'. split; [exact E | exact Hlen].
Defined.

(** ** What the scorer raises *)

Lemma score_single_lead_raises (repr_float : Q -> string) (self : ScoringEngine.t)
    (lead : gmap string Py.pyval) (g : Py.rng) :
  let run := ScoringEngine._score_single_lead repr_float self lead g in
  let g1 := Py.advance g in
  let g2 := Py.advance g1 in
  let g4 := Py.advance (Py.advance g2) in
  (lead !! "job_category" = None ->
   run = (inl (Py.KeyError "job_category"), g))
  /\ (is_Some (lead !! "job_category") ->
      lead !! "seniority_level" = None ->
      run = (inl (Py.KeyError "seniority_level"), g))
  /\ (is_Some (lead !! "job_category") ->
      is_Some (lead !! "seniority_level") ->
      lead !! "tech_stack" = None ->
      run = (inl (Py.KeyError "tech_stack"), g1))
  /\ (forall q,
        is_Some (lead !! "job_category") ->
        is_Some (lead !! "seniority_level") ->
        lead !! "tech_stack" = Some (Py.Num q) ->
        run = (inl (Py.AttributeError "lower"), g1))
  /\ (forall tech_stack,
        is_Some (lead !! "job_category") ->
        is_Some (lead !! "seniority_level") ->
        lead !! "tech_stack" = Some (Py.Str tech_stack) ->
        lead !! "company_size" = None ->
        run = (inl (Py.KeyError "company_size"), g2))
  /\ (Schema.enriched_lead lead ->
      ScoringEngine.weights self !! "job_title" = None ->
      run = (inl (Py.KeyError "job_title"), g4))
  /\ (Schema.enriched_lead lead ->
      is_Some (ScoringEngine.weights self !! "job_title") ->
      ScoringEngine.weights self !! "tech_stack" = None ->
      run = (inl (Py.KeyError "tech_stack"), g4))
  /\ (Schema.enriched_lead lead ->
      is_Some (ScoringEngine.weights self !! "job_title") ->
      is_Some (ScoringEngine.weights self !! "tech_stack") ->
      ScoringEngine.weights self !! "buying_intent" = None ->
      run = (inl (Py.KeyError "buying_intent"), g4)).
Proof.
  intros run g1 g2 g4. unfold run.
  assert (Hweights : forall c s z ts,
    lead !! "job_category" = Some c ->
    lead !! "seniority_level" = Some s ->
    lead !! "company_size" = Some z ->
    lead !! "tech_stack" = Some (Py.Str ts) ->
    exists j t i,
      ScoringEngine._score_single_lead repr_float self lead g
      = Py.bind (Py.getitem (ScoringEngine.weights self) "job_title")
          (fun w_job =>
             Py.bind (Py.getitem (ScoringEngine.weights self) "tech_stack")
               (fun w_tech =>
                  Py.bind
                    (Py.getitem (ScoringEngine.weights self) "buying_intent")
                    (fun w_intent =>
                       Py.ret
                         (<[ "job_title_score" := Py.Num (Py.round1 j) ]>
                            (<[ "tech_stack_score" :=
                                  Py.Num (Py.round1 t) ]>
                               (<[ "buying_intent_score" :=
                                     Py.Num (Py.round1 i) ]>
                                  (<[ "lead_score" :=
                                        Py.Num
                                          (Py.round1
                                             (ScoringEngine.clamp
                                                ((j * w_job + t * w_tech
                                                  + i * w_intent)
                                                 * Py.dict_get
                                                     ScoringEngine.size_multipliers
                                                     z 1.0)%Q)) ]>
                                     (<[ "score_explanation" :=
                                           Py.Str
                                             (ScoringEngine._generate_explanation
                                                repr_float j t i
                                                (ScoringEngine.clamp
                                                   ((j * w_job + t * w_tech
                                                     + i * w_intent)
                                                    * Py.dict_get
                                                        ScoringEngine.size_multipliers
                                                        z 1.0)%Q)) ]>
                                        lead)))))))) g4).
  { intros c s z ts Hc Hs Hz Ht.
    destruct (score_job_title_run c s g) as (j & Ej & _).
    assert (Et : exists t,
               ScoringEngine._score_tech_stack (Py.Str ts) g1
               = (inr t, g2)).
    { unfold ScoringEngine._score_tech_stack, Py.bind, Py.str_lower, Py.ret.
      destruct (3 <=? _)%nat; [|destruct (2 <=? _)%nat;
                                  [|destruct (1 <=? _)%nat]];
        eexists; reflexivity. }
    destruct Et as [t Et].
    destruct (score_buying_intent_run lead g2) as (i & Ei & _); eauto.
    exists j, t, i.
    unfold ScoringEngine._score_single_lead.
    unfold Py.bind at 1, Py.getitem at 1. rewrite Hc. unfold Py.ret at 1.
    unfold Py.bind at 1, Py.getitem at 1. rewrite Hs. unfold Py.ret at 1.
    rewrite (bind_inr _ _ _ _ _ Ej).
    unfold Py.bind at 1, Py.getitem at 1. rewrite Ht. unfold Py.ret at 1.
    rewrite (bind_inr _ _ _ _ _ Et).
    rewrite (bind_inr _ _ _ _ _ Ei).
    unfold Py.bind at 1, Py.getitem at 1. rewrite Hz. unfold Py.ret at 1.
    reflexivity. }
  split; [|split; [|split; [|split; [|split; [|split; [|split]]]]]].
  - intros Hc. unfold ScoringEngine._score_single_lead, Py.bind, Py.getitem.
    now rewrite Hc.
  - intros [c Hc] Hs.
    unfold ScoringEngine._score_single_lead, Py.bind, Py.getitem.
    now rewrite Hc, Hs.
  - intros [c Hc] [s Hs] Ht.
    unfold ScoringEngine._score_single_lead, Py.bind, Py.getitem.
    now rewrite Hc, Hs, Ht.
  - intros q [c Hc] [s Hs] Ht.
    unfold ScoringEngine._score_single_lead, Py.bind, Py.getitem.
    now rewrite Hc, Hs, Ht.
  - intros ts [c Hc] [s Hs] Ht Hz.
    destruct (score_job_title_run c s g) as (j & Ej & _).
    unfold ScoringEngine._score_single_lead.
    unfold Py.bind at 1, Py.getitem at 1. rewrite Hc. unfold Py.ret at 1.
    unfold Py.bind at 1, Py.getitem at 1. rewrite Hs. unfold Py.ret at 1.
    rewrite (bind_inr _ _ _ _ _ Ej).
    unfold Py.bind at 1, Py.getitem at 1. rewrite Ht. unfold Py.ret at 1.
    assert (Et : exists t,
               ScoringEngine._score_tech_stack (Py.Str ts) g1
               = (inr t, g2)).
    { unfold ScoringEngine._score_tech_stack, Py.bind, Py.str_lower, Py.ret.
      destruct (3 <=? _)%nat; [|destruct (2 <=? _)%nat;
                                  [|destruct (1 <=? _)%nat]];
        eexists; reflexivity. }
    destruct Et as [t Et]. rewrite (bind_inr _ _ _ _ _ Et).
    apply bind_inl.
    unfold ScoringEngine._score_buying_intent, Py.bind, Py.getitem.
    rewrite Hc, Hz. unfold Py.ret.
    destruct (_ || _); [|destruct (Py.eq_str c "management")]; reflexivity.
  - intros ([c Hc] & [s Hs] & [z Hz] & [ts Ht]) Wj.
    destruct (Hweights c s z ts Hc Hs Hz Ht) as (j & t & i & ->).
    unfold Py.bind, Py.getitem. now rewrite Wj.
  - intros ([c Hc] & [s Hs] & [z Hz] & [ts Ht]) [wj Wj] Wt.
    destruct (Hweights c s z ts Hc Hs Hz Ht) as (j & t & i & ->).
    unfold Py.bind, Py.getitem. now rewrite Wj, Wt.
  - intros ([c Hc] & [s Hs] & [z Hz] & [ts Ht]) [wj Wj] [wt Wt] Wi.
    destruct (Hweights c s z ts Hc Hs Hz Ht) as (j & t & i & ->).
    unfold Py.bind, Py.getitem. now rewrite Wj, Wt, Wi.
Qed.

(** ** Scoring with the three weights in place *)

Lemma seniority_bonus_bounds (seniority : Py.pyval) :
  (-10 <= Py.dict_get ScoringEngine.job_seniority_bonus seniority 0
   /\ Py.dict_get ScoringEngine.job_seniority_bonus seniority 0 <= 10)%Q.
Proof.
  unfold ScoringEngine.job_seniority_bonus.
  table_cases
    [ ("Executive", 10%Q); ("Senior", 5%Q);
      ("Mid-level", 0%Q); ("Junior", (-10)%Q) ] seniority 0%Q
    ltac:(split; lra).
Qed.

(** C1, as the code has it: scoring an enriched lead with a weights
    state that holds the three weights, whatever their values, returns,
    and the four scores it stores lie between 0 and 100.  A category
    outside the table is scored as [other]: the job-title score is the
    draw from 30 to 60 plus the bonus of the seniority, between 20 and
    70, and the score stored is that number rounded.  A size outside the
    table is scored with the neutral multiplier: the [lead_score] stored
    is the weighted sum of the three sub-scores, clamped and rounded. *)
Theorem score_bounds (repr_float : Q -> string) (self : ScoringEngine.t)
    (lead : gmap string Py.pyval) (g : Py.rng)
    (category seniority size : Py.pyval) (tech_stack : string)
    (w_job w_tech w_intent : Q) :
  Py.rng_ok g ->
  lead !! "job_category" = Some category ->
  lead !! "seniority_level" = Some seniority ->
  lead !! "company_size" = Some size ->
  lead !! "tech_stack" = Some (Py.Str tech_stack) ->
  ScoringEngine.weights self !! "job_title" = Some w_job ->
  ScoringEngine.weights self !! "tech_stack" = Some w_tech ->
  ScoringEngine.weights self !! "buying_intent" = Some w_intent ->
  exists scored g1 g2 g3 job tech intent
         stored_job stored_tech stored_intent stored,
    ScoringEngine._score_single_lead repr_float self lead g
    = (inr scored, g3)
    /\ ScoringEngine._score_job_title category seniority g = (inr job, g1)
    /\ ScoringEngine._score_tech_stack (Py.Str tech_stack) g1
       = (inr tech, g2)
    /\ ScoringEngine._score_buying_intent lead g2 = (inr intent, g3)
    /\ scored !! "job_title_score" = Some (Py.Num stored_job)
    /\ scored !! "tech_stack_score" = Some (Py.Num stored_tech)
    /\ scored !! "buying_intent_score" = Some (Py.Num stored_intent)
    /\ scored !! "lead_score" = Some (Py.Num stored)
    /\ (0 <= stored_job /\ stored_job <= 100)%Q
    /\ (0 <= stored_tech /\ stored_tech <= 100)%Q
    /\ (0 <= stored_intent /\ stored_intent <= 100)%Q
    /\ (0 <= stored /\ stored <= 100)%Q
    /\ stored_job = Py.round1 job
    /\ stored_tech = Py.round1 tech
    /\ stored_intent = Py.round1 intent
    /\ ((forall s, category = Py.Str s ->
                   ~ In s [ "decision_maker"; "executive"; "management";
                            "technical"; "other" ]) ->
        let u := Py.draws g (Py.cursor g) in
        let bonus :=
          Py.dict_get ScoringEngine.job_seniority_bonus seniority 0%Q in
        (job == 30 + (60 - 30) * u + bonus)%Q
        /\ (20 <= job /\ job <= 70)%Q
        /\ ScoringEngine._score_job_title category seniority g
           = ScoringEngine._score_job_title (Py.Str "other") seniority g)
    /\ ((forall s, size = Py.Str s ->
                   ~ In s [ "Enterprise"; "Large"; "Medium"; "Small";
                            "Startup" ]) ->
        stored
        = Py.round1
            (ScoringEngine.clamp
               ((job * w_job + tech * w_tech + intent * w_intent) * 1.0))).
Proof.
  intros Hg Hc Hs Hz Ht Wj Wt Wi.
  destruct (score_single_lead_run repr_float self lead g
              category seniority size tech_stack w_job w_tech w_intent
              Hc Hs Hz Ht Wj Wt Wi Hg)
    as (j & t & i & scored & H).
  cbv zeta in H.
  destruct H as (Ej & Et & Ei & Er & Fj & Ft & Fi & Fl & _ & _ & Bj & Bt & Bi).
  exists scored. eexists _, _, _. exists j, t, i. eexists _, _, _, _.
  split; [exact Er|]. split; [exact Ej|]. split; [exact Et|].
  split; [exact Ei|]. split; [exact Fj|]. split; [exact Ft|].
  split; [exact Fi|]. split; [exact Fl|].
  split; [apply round1_bounds; tauto|].
  split; [apply round1_bounds; lra|].
  split; [apply round1_bounds; tauto|].
  split; [apply round1_bounds; apply clamp_bounds|].
  do 3 (split; [reflexivity|]).
  split.
  - intros Hcat u bonus.
    assert (Erange :
              Py.dict_get ScoringEngine.job_title_scores category (30, 60)%Q
              = (30, 60)%Q).
    { unfold ScoringEngine.job_title_scores.
      now rewrite dict_get_unmapped. }
    destruct (Hg (Py.cursor g)) as [U0 U1]. fold u in U0, U1.
    destruct (seniority_bonus_bounds seniority) as [B0 B1].
    fold bonus in B0, B1.
    assert (Ejob : j = ScoringEngine.clamp (30 + (60 - 30) * u + bonus)).
    { unfold ScoringEngine._score_job_title, Py.bind, Py.uniform, Py.random,
        Py.ret in Ej.
      rewrite Erange in Ej. cbn [fst snd] in Ej.
      injection Ej as <-. reflexivity. }
    assert (Hin : (20 <= 30 + (60 - 30) * u + bonus
                   /\ 30 + (60 - 30) * u + bonus <= 70)%Q) by (split; nra).
    assert (Eclamp : (j == 30 + (60 - 30) * u + bonus)%Q).
    { rewrite Ejob.
      destruct (clamp_cases (30 + (60 - 30) * u + bonus))
        as [[? ?]|[[? [? ?]]|[? ?]]]; lra. }
    split; [exact Eclamp|]. split; [rewrite Eclamp; exact Hin|].
    unfold ScoringEngine._score_job_title. now rewrite Erange.
  - intros Hsize.
    assert (Emul : Py.dict_get ScoringEngine.size_multipliers size 1.0%Q
                   = 1.0%Q).
    { unfold ScoringEngine.size_multipliers. now apply dict_get_unmapped. }
    now rewrite Emul.
Qed.

Lemma unlisted_lead_fields :
  Samples.unlisted_lead !! "job_category" = Some (Py.Str "advisor")
  /\ Samples.unlisted_lead !! "seniority_level" = Some (Py.Str "Junior")
  /\ Samples.unlisted_lead !! "company_size" = Some (Py.Str "Unknown")
  /\ Samples.unlisted_lead !! "tech_stack"
     = Some (Py.Str "Go, Kubernetes, Docker").
Proof. repeat split. Qed.

Lemma score_bounds_witness :
  exists scored g' job stored,
    ScoringEngine._score_single_lead Samples.repr_fraction
      ScoringEngine.__init__ Samples.unlisted_lead
      (Samples.list_rng [ 0.123; 0.456; 0.5; 0.61 ]%Q)
    = (inr scored, g')
    /\ ScoringEngine._score_job_title (Py.Str "advisor") (Py.Str "Junior")
         (Samples.list_rng [ 0.123; 0.456; 0.5; 0.61 ]%Q)
       = ScoringEngine._score_job_title (Py.Str "other") (Py.Str "Junior")
           (Samples.list_rng [ 0.123; 0.456; 0.5; 0.61 ]%Q)
    /\ (20 <= job /\ job <= 70)%Q
    /\ scored !! "job_title_score" = Some (Py.Num (Py.round1 job))
    /\ scored !! "lead_score" = Some (Py.Num stored)
    /\ (0 <= stored /\ stored <= 100)%Q.
Proof.
  destruct unlisted_lead_fields as (Hc & Hs & Hz & Ht).
  destruct (score_bounds Samples.repr_fraction ScoringEngine.__init__
              Samples.unlisted_lead
              (Samples.list_rng [ 0.123; 0.456; 0.5; 0.61 ]%Q)
              (Py.Str "advisor") (Py.Str "Junior") (Py.Str "Unknown")
              "Go, Kubernetes, Docker" 0.4%Q 0.3%Q 0.3%Q
              (list_rng_ok [ 0.123; 0.456; 0.5; 0.61 ]%Q eq_refl)
              Hc Hs Hz Ht eq_refl eq_refl eq_refl)
    as (scored & g1 & g2 & g3 & job & tech & intent & sj & st & si & stored
        & Er & _ & _ & _ & Fj & _ & _ & Fl & _ & _ & _ & Bl & Rj & _ & _
        & Hcat & _).
  destruct Hcat as (_ & Bj & Eother).
  { intros s [= <-]. simpl. intuition discriminate. }
  exists scored, g3, job, stored.
  split; [exact Er|]. split; [exact Eother|]. split; [exact Bj|].
  split; [rewrite <- Rj; exact Fj|]. split; [exact Fl | exact Bl].
Defined.

(** C1, as stated, fails: [update_weights] stores the keys it is given,
    and with the weights it stores for a mapping that holds [job_title]
    only, scoring an enriched lead raises the [KeyError] of [tech_stack]. *)
Lemma score_missing_weight_counterexample :
  let self :=
    ScoringEngine.update_weights ScoringEngine.__init__
      {[ "job_title" := 1%Q ]} in
  let g := Samples.list_rng [ 0.123; 0.456; 0.5; 0.61 ]%Q in
  Schema.enriched_lead Samples.enriched_lead
  /\ ScoringEngine.weights self = {[ "job_title" := 1%Q ]}
  /\ ScoringEngine._score_single_lead Samples.repr_fraction self
       Samples.enriched_lead g
     = (inl (Py.KeyError "tech_stack"),
        Py.advance (Py.advance (Py.advance (Py.advance g)))).
Proof.
  intros self g.
  assert (Hw : ScoringEngine.weights self = {[ "job_title" := 1%Q ]}).
  { unfold self, ScoringEngine.update_weights.
    rewrite Qlt_bool_true by (vm_compute; reflexivity).
    cbn [ScoringEngine.weights]. now rewrite map_fmap_singleton. }
  split; [exact sample_enriched_lead|]. split; [exact Hw|].
  apply (score_single_lead_raises Samples.repr_fraction self
           Samples.enriched_lead g).
  - exact sample_enriched_lead.
  - rewrite Hw. now rewrite lookup_singleton_eq.
  - rewrite Hw. reflexivity.
Qed.

(** ** Stored scores against the explanation *)

Lemma job_clause_cases (job : Q) :
  ((85 <= job)%Q ->
   ScoringEngine.job_clause job = "High-value decision maker")
  /\ ((70 <= job)%Q -> (job < 85)%Q ->
      ScoringEngine.job_clause job = "Technical leader/manager")
  /\ ((50 <= job)%Q -> (job < 70)%Q ->
      ScoringEngine.job_clause job = "Technical professional")
  /\ ((job < 50)%Q -> ScoringEngine.job_clause job = "Lower relevance role").
Proof.
  unfold ScoringEngine.job_clause. repeat split.
  - intros H. apply Qle_bool_iff in H. now rewrite H.
  - intros H1 H2. rewrite (Qle_bool_false 85 job H2).
    apply Qle_bool_iff in H1. now rewrite H1.
  - intros H1 H2. rewrite (Qle_bool_false 85 job) by lra.
    rewrite (Qle_bool_false 70 job H2).
    apply Qle_bool_iff in H1. now rewrite H1.
  - intros H. rewrite (Qle_bool_false 85 job) by lra.
    rewrite (Qle_bool_false 70 job) by lra.
    now rewrite (Qle_bool_false 50 job H).
Qed.

Lemma tech_clause_cases (tech : Q) :
  ((80 <= tech)%Q -> ScoringEngine.tech_clause tech = "excellent tech fit")
  /\ ((60 <= tech)%Q -> (tech < 80)%Q ->
      ScoringEngine.tech_clause tech = "good tech alignment")
  /\ ((tech < 60)%Q ->
      ScoringEngine.tech_clause tech = "limited tech relevance").
Proof.
  unfold ScoringEngine.tech_clause. repeat split.
  - intros H. apply Qle_bool_iff in H. now rewrite H.
  - intros H1 H2. rewrite (Qle_bool_false 80 tech H2).
    apply Qle_bool_iff in H1. now rewrite H1.
  - intros H. rewrite (Qle_bool_false 80 tech) by lra.
    now rewrite (Qle_bool_false 60 tech H).
Qed.

Lemma intent_clause_cases (intent : Q) :
  ((75 <= intent)%Q ->
   ScoringEngine.intent_clause intent = "strong buying signals")
  /\ ((50 <= intent)%Q -> (intent < 75)%Q ->
      ScoringEngine.intent_clause intent = "moderate buying intent")
  /\ ((intent < 50)%Q ->
      ScoringEngine.intent_clause intent = "weak buying signals").
Proof.
  unfold ScoringEngine.intent_clause. repeat split.
  - intros H. apply Qle_bool_iff in H. now rewrite H.
  - intros H1 H2. rewrite (Qle_bool_false 75 intent H2).
    apply Qle_bool_iff in H1. now rewrite H1.
  - intros H. rewrite (Qle_bool_false 75 intent) by lra.
    now rewrite (Qle_bool_false 50 intent H).
Qed.

(** C10: the four scores stored in the record are the sub-scores and the
    clamped total rounded to one decimal place, while the explanation is
    built from the unrounded values.  Its first clause says whether the
    unrounded job-title score is at least 85, at least 70, at least 50 or
    below; its second whether the unrounded tech-stack score is at least
    80, at least 60 or below; its third whether the unrounded
    buying-intent score is at least 75, at least 50 or below; and the
    number after "(Score: " is the unrounded total.  So the number in the
    explanation can differ from the stored [lead_score] (56.13 against
    56.1), and each clause can disagree with the stored sub-score: a job
    score of 84.96 is stored as 85.0 and explained as a score below 85,
    a tech score of 79.96 is stored as 80.0 and explained as below 80,
    an intent score of 74.96 is stored as 75.0 and explained as below
    75. *)
Theorem stored_scores_rounded (repr_float : Q -> string)
    (self : ScoringEngine.t) (lead : gmap string Py.pyval) (g : Py.rng)
    (category seniority size : Py.pyval) (tech_stack : string)
    (w_job w_tech w_intent : Q) :
  Py.rng_ok g ->
  lead !! "job_category" = Some category ->
  lead !! "seniority_level" = Some seniority ->
  lead !! "company_size" = Some size ->
  lead !! "tech_stack" = Some (Py.Str tech_stack) ->
  ScoringEngine.weights self !! "job_title" = Some w_job ->
  ScoringEngine.weights self !! "tech_stack" = Some w_tech ->
  ScoringEngine.weights self !! "buying_intent" = Some w_intent ->
  (exists job tech intent total scored c_job c_tech c_intent,
      let g1 := Py.advance g in
      let g2 := Py.advance g1 in
      let g3 := Py.advance (Py.advance g2) in
      ScoringEngine._score_job_title category seniority g = (inr job, g1)
      /\ ScoringEngine._score_tech_stack (Py.Str tech_stack) g1
         = (inr tech, g2)
      /\ ScoringEngine._score_buying_intent lead g2 = (inr intent, g3)
      /\ total
         = ScoringEngine.clamp
             ((job * w_job + tech * w_tech + intent * w_intent)
              * Py.dict_get ScoringEngine.size_multipliers size 1.0)%Q
      /\ ScoringEngine._score_single_lead repr_float self lead g
         = (inr scored, g3)
      /\ scored !! "job_title_score" = Some (Py.Num (Py.round1 job))
      /\ scored !! "tech_stack_score" = Some (Py.Num (Py.round1 tech))
      /\ scored !! "buying_intent_score" = Some (Py.Num (Py.round1 intent))
      /\ scored !! "lead_score" = Some (Py.Num (Py.round1 total))
      /\ scored !! "score_explanation"
         = Some (Py.Str
                   ((c_job ++ ", " ++ c_tech ++ ", " ++ c_intent)
                    ++ " (Score: " ++ repr_float total ++ ")"))
      /\ ((85 <= job)%Q -> c_job = "High-value decision maker")
      /\ ((70 <= job)%Q -> (job < 85)%Q ->
          c_job = "Technical leader/manager")
      /\ ((50 <= job)%Q -> (job < 70)%Q -> c_job = "Technical professional")
      /\ ((job < 50)%Q -> c_job = "Lower relevance role")
      /\ ((80 <= tech)%Q -> c_tech = "excellent tech fit")
      /\ ((60 <= tech)%Q -> (tech < 80)%Q -> c_tech = "good tech alignment")
      /\ ((tech < 60)%Q -> c_tech = "limited tech relevance")
      /\ ((75 <= intent)%Q -> c_intent = "strong buying signals")
      /\ ((50 <= intent)%Q -> (intent < 75)%Q ->
          c_intent = "moderate buying intent")
      /\ ((intent < 50)%Q -> c_intent = "weak buying signals"))
  /\ (forall x,
        (exists n : Z, Py.round1 x = (inject_Z n / 10)%Q)
        /\ (- (1 # 20) <= Py.round1 x - x /\ Py.round1 x - x <= 1 # 20)%Q)
  /\ (exists scored g' stored total,
        ScoringEngine._score_single_lead repr_float ScoringEngine.__init__
          Samples.enriched_lead
          (Samples.list_rng [ 0.123; 0.456; 0.5; 0.61 ]%Q)
        = (inr scored, g')
        /\ scored !! "lead_score" = Some (Py.Num stored)
        /\ scored !! "score_explanation"
           = Some (Py.Str
                     ("Technical professional, good tech alignment, "
                      ++ "weak buying signals"
                      ++ " (Score: " ++ repr_float total ++ ")"))
        /\ (stored == 56.1)%Q
        /\ (total == 56.13)%Q
        /\ ~ (stored == total)%Q)
  /\ (exists scored g' job stored_job total,
        ScoringEngine._score_single_lead repr_float ScoringEngine.__init__
          Samples.senior_lead
          (Samples.list_rng [ 0.998; 0.456; 0.5; 0.61 ]%Q)
        = (inr scored, g')
        /\ ScoringEngine._score_job_title
             (Py.Str "technical") (Py.Str "Senior")
             (Samples.list_rng [ 0.998; 0.456; 0.5; 0.61 ]%Q)
           = (inr job, Py.advance
                         (Samples.list_rng [ 0.998; 0.456; 0.5; 0.61 ]%Q))
        /\ (job == 84.96)%Q
        /\ scored !! "job_title_score" = Some (Py.Num stored_job)
        /\ (stored_job == 85)%Q
        /\ scored !! "score_explanation"
           = Some (Py.Str
                     ("Technical leader/manager, good tech alignment, "
                      ++ "weak buying signals"
                      ++ " (Score: " ++ repr_float total ++ ")")))
  /\ (let g0 := Samples.list_rng [ 0.25; 0.498; 0.8; 0.748 ]%Q in
      exists scored g' tech intent stored_tech stored_intent total,
        ScoringEngine._score_single_lead repr_float ScoringEngine.__init__
          Samples.executive_lead g0
        = (inr scored, g')
        /\ ScoringEngine._score_tech_stack
             (Py.Str "Go, Kubernetes, Docker") (Py.advance g0)
           = (inr tech, Py.advance (Py.advance g0))
        /\ ScoringEngine._score_buying_intent Samples.executive_lead
             (Py.advance (Py.advance g0))
           = (inr intent, g')
        /\ (tech == 79.96)%Q
        /\ (intent == 74.96)%Q
        /\ scored !! "tech_stack_score" = Some (Py.Num stored_tech)
        /\ scored !! "buying_intent_score" = Some (Py.Num stored_intent)
        /\ (stored_tech == 80)%Q
        /\ (stored_intent == 75)%Q
        /\ scored !! "score_explanation"
           = Some (Py.Str
                     ("High-value decision maker, good tech alignment, "
                      ++ "moderate buying intent"
                      ++ " (Score: " ++ repr_float total ++ ")"))).
Proof.
  intros Hg Hc Hs Hz Ht Wj Wt Wi.
  split; [|split; [|split; [|split]]].
  - destruct (score_single_lead_run repr_float self lead g
                category seniority size tech_stack w_job w_tech w_intent
                Hc Hs Hz Ht Wj Wt Wi Hg)
      as (j & t & i & scored & H).
    cbv zeta in H.
    destruct H as (Ej & Et & Ei & Er & Fj & Ft & Fi & Fl & Fe & _).
    exists j, t, i. eexists. exists scored.
    exists (ScoringEngine.job_clause j), (ScoringEngine.tech_clause t),
      (ScoringEngine.intent_clause i).
    cbv zeta.
    split; [exact Ej|]. split; [exact Et|]. split; [exact Ei|].
    split; [reflexivity|]. split; [exact Er|]. split; [exact Fj|].
    split; [exact Ft|]. split; [exact Fi|]. split; [exact Fl|].
    split; [exact Fe|].
    destruct (job_clause_cases j) as (J1 & J2 & J3 & J4).
    destruct (tech_clause_cases t) as (T1 & T2 & T3).
    destruct (intent_clause_cases i) as (I1 & I2 & I3).
    repeat split; assumption.
  - exact round1_one_decimal.
  - destruct (score_single_lead_run repr_float
                ScoringEngine.__init__ Samples.enriched_lead
                (Samples.list_rng [ 0.123; 0.456; 0.5; 0.61 ]%Q)
                (Py.Str "technical") (Py.Str "Mid-level") (Py.Str "Medium")
                "Go, Kubernetes, Docker" 0.4%Q 0.3%Q 0.3%Q
                eq_refl eq_refl eq_refl eq_refl eq_refl eq_refl eq_refl
                (list_rng_ok [ 0.123; 0.456; 0.5; 0.61 ]%Q eq_refl))
      as (j & t & i & scored & H).
    cbv zeta in H.
    destruct H as (Ej & Et & Ei & Er & _ & _ & _ & Fl & Fe & _).
    injection Ej as <-. injection Et as <-. injection Ei as <-.
    exists scored. eexists _, _, _.
    split; [exact Er|]. split; [exact Fl|]. split; [exact Fe|].
    split; [vm_compute; reflexivity|].
    split; [vm_compute; reflexivity|].
    vm_compute. discriminate.
  - destruct (score_single_lead_run repr_float
                ScoringEngine.__init__ Samples.senior_lead
                (Samples.list_rng [ 0.998; 0.456; 0.5; 0.61 ]%Q)
                (Py.Str "technical") (Py.Str "Senior") (Py.Str "Small")
                "Python, Django, PostgreSQL" 0.4%Q 0.3%Q 0.3%Q
                eq_refl eq_refl eq_refl eq_refl eq_refl eq_refl eq_refl
                (list_rng_ok [ 0.998; 0.456; 0.5; 0.61 ]%Q eq_refl))
      as (j & t & i & scored & H).
    cbv zeta in H.
    destruct H as (Ej & Et & Ei & Er & Fj & _ & _ & _ & Fe & _).
    exists scored. eexists. exists j. eexists _, _.
    split; [exact Er|]. split; [exact Ej|].
    injection Ej as <-. injection Et as <-. injection Ei as <-.
    split; [vm_compute; reflexivity|].
    split; [exact Fj|].
    split; [vm_compute; reflexivity|].
    exact Fe.
  - intros g0.
    destruct (score_single_lead_run repr_float
                ScoringEngine.__init__ Samples.executive_lead g0
                (Py.Str "decision_maker") (Py.Str "Executive")
                (Py.Str "Enterprise")
                "Go, Kubernetes, Docker" 0.4%Q 0.3%Q 0.3%Q
                eq_refl eq_refl eq_refl eq_refl eq_refl eq_refl eq_refl
                (list_rng_ok [ 0.25; 0.498; 0.8; 0.748 ]%Q eq_refl))
      as (j & t & i & scored & H).
    cbv zeta in H.
    destruct H as (Ej & Et & Ei & Er & _ & Ft & Fi & _ & Fe & _).
    exists scored. eexists. exists t, i. eexists _, _, _.
    split; [exact Er|]. split; [exact Et|]. split; [exact Ei|].
    injection Ej as <-. injection Et as <-. injection Ei as <-.
    split; [vm_compute; reflexivity|].
    split; [vm_compute; reflexivity|].
    split; [exact Ft|]. split; [exact Fi|].
    split; [vm_compute; reflexivity|].
    split; [vm_compute; reflexivity|].
    exact Fe.
Qed.

Lemma stored_scores_rounded_witness :
  let g0 := Samples.list_rng [ 0.25; 0.498; 0.8; 0.748 ]%Q in
  exists scored g' tech intent,
    ScoringEngine._score_single_lead Samples.repr_fraction
      ScoringEngine.__init__ Samples.executive_lead g0
    = (inr scored, g')
    /\ ScoringEngine._score_tech_stack (Py.Str "Go, Kubernetes, Docker")
         (Py.advance g0)
       = (inr tech, Py.advance (Py.advance g0))
    /\ ScoringEngine._score_buying_intent Samples.executive_lead
         (Py.advance (Py.advance g0))
       = (inr intent, g')
    /\ (tech == 79.96)%Q
    /\ (intent == 74.96)%Q
    /\ scored !! "tech_stack_score" = Some (Py.Num (Py.round1 tech))
    /\ scored !! "buying_intent_score" = Some (Py.Num (Py.round1 intent))
    /\ (Py.round1 tech == 80)%Q
    /\ (Py.round1 intent == 75)%Q
    /\ scored !! "score_explanation"
       = Some (Py.Str
                 ("High-value decision maker, good tech alignment, "
                  ++ "moderate buying intent"
                  ++ " (Score: "
                  ++ Samples.repr_fraction
                       (ScoringEngine.clamp
                          ((100 * 0.4 + tech * 0.3 + intent * 0.3) * 1.2))
                  ++ ")")).
Proof.
  intros g0.
  destruct (proj1 (stored_scores_rounded Samples.repr_fraction
                     ScoringEngine.__init__ Samples.executive_lead g0
                     (Py.Str "decision_maker") (Py.Str "Executive")
                     (Py.Str "Enterprise") "Go, Kubernetes, Docker"
                     0.4%Q 0.3%Q 0.3%Q
                     (list_rng_ok [ 0.25; 0.498; 0.8; 0.748 ]%Q eq_refl)
                     eq_refl eq_refl eq_refl eq_refl
                     eq_refl eq_refl eq_refl))
    as (j & t & i & total & scored & cj & ct & ci & H).
  cbv zeta in H.
  destruct H as (Ej & Et & Ei & Etotal & Er & _ & Ft & Fi & _ & Fe
                 & J1 & _ & _ & _ & _ & T2 & _ & _ & I2 & _).
  exists scored. eexists. exists t, i.
  split; [exact Er|]. split; [exact Et|]. split; [exact Ei|].
  injection Ej as <-. injection Et as <-. injection Ei as <-.
  rewrite J1, T2, I2 in Fe by (vm_compute; first [reflexivity | discriminate]).
  split; [vm_compute; reflexivity|].
  split; [vm_compute; reflexivity|].
  split; [exact Ft|]. split; [exact Fi|].
  split; [vm_compute; reflexivity|].
  split; [vm_compute; reflexivity|].
  rewrite Fe, Etotal. reflexivity.
Defined.

(** ** The keys and the values of the weights *)



(** ** The total with normalised weights *)

Lemma size_multiplier_cases (size : Py.pyval) :
  let m := Py.dict_get ScoringEngine.size_multipliers size 1.0%Q in
  (size = Py.Str "Enterprise" /\ m = 1.2%Q)
  \/ (size = Py.Str "Large" /\ m = 1.1%Q)
  \/ (size <> Py.Str "Enterprise" /\ size <> Py.Str "Large"
      /\ (0.8 <= m /\ m <= 1)%Q).
Proof.
  intros m. unfold m. clear m.
  destruct size as [s|q]; [|right; right; repeat split; (discriminate || lra)].
  destruct (String.eqb_spec s "Enterprise") as [->|N1]; [now left|].
  destruct (String.eqb_spec s "Large") as [->|N2]; [right; now left|].
  right; right.
  split; [congruence|]. split; [congruence|].
  destruct (String.eqb_spec s "Medium") as [->|N3];
    [change (Py.dict_get _ _ _) with 1.0%Q; split; lra|].
  destruct (String.eqb_spec s "Small") as [->|N4];
    [change (Py.dict_get _ _ _) with 0.9%Q; split; lra|].
  destruct (String.eqb_spec s "Startup") as [->|N5];
    [change (Py.dict_get _ _ _) with 0.8%Q; split; lra|].
  unfold ScoringEngine.size_multipliers. rewrite dict_get_unmapped.
  - split; lra.
  - intros s' [= <-]. simpl. intuition congruence.
Qed.

(** X11: With weights that are not negative and sum to 1, the weighted sum of
    the sub-scores lies between 0 and 100, so the total is never clamped
    from below and is clamped from above only for an Enterprise or a
    Large company: for any other size the stored [lead_score] is the
    rounded product of the weighted sum and the multiplier, and it is at
    most the rounded weighted sum. *)
Theorem lead_score_normalised (repr_float : Q -> string)
    (self : ScoringEngine.t) (lead : gmap string Py.pyval) (g : Py.rng)
    (category seniority size : Py.pyval) (tech_stack : string)
    (w_job w_tech w_intent : Q) :
  Py.rng_ok g ->
  lead !! "job_category" = Some category ->
  lead !! "seniority_level" = Some seniority ->
  lead !! "company_size" = Some size ->
  lead !! "tech_stack" = Some (Py.Str tech_stack) ->
  ScoringEngine.weights self !! "job_title" = Some w_job ->
  ScoringEngine.weights self !! "tech_stack" = Some w_tech ->
  ScoringEngine.weights self !! "buying_intent" = Some w_intent ->
  (0 <= w_job)%Q -> (0 <= w_tech)%Q -> (0 <= w_intent)%Q ->
  (w_job + w_tech + w_intent == 1)%Q ->
  let multiplier := Py.dict_get ScoringEngine.size_multipliers size 1.0%Q in
  exists job tech intent total scored g1 g2 g3,
    ScoringEngine._score_job_title category seniority g = (inr job, g1)
    /\ ScoringEngine._score_tech_stack (Py.Str tech_stack) g1
       = (inr tech, g2)
    /\ ScoringEngine._score_buying_intent lead g2 = (inr intent, g3)
    /\ ScoringEngine._score_single_lead repr_float self lead g
       = (inr scored, g3)
    /\ scored !! "lead_score" = Some (Py.Num (Py.round1 total))
    /\ (let sum := (job * w_job + tech * w_tech + intent * w_intent)%Q in
        (0 <= sum /\ sum <= 100)%Q
        /\ (sum * multiplier <= 100 -> total == sum * multiplier)%Q
        /\ (100 <= sum * multiplier -> total == 100)%Q
        /\ (size <> Py.Str "Enterprise" -> size <> Py.Str "Large" ->
            total == sum * multiplier /\ total <= sum)%Q).
Proof.
  intros Hg Hc Hs Hz Ht Wj Wt Wi Pj Pt Pi Hsum multiplier.
  destruct (score_single_lead_run repr_float self lead g
              category seniority size tech_stack w_job w_tech w_intent
              Hc Hs Hz Ht Wj Wt Wi Hg)
    as (j & t & i & scored & H).
  cbv zeta in H.
  destruct H as (Ej & Et & Ei & Er & _ & _ & _ & Fl & _ & _ & Bj & Bt & Bi).
  exists j, t, i. eexists. exists scored. eexists _, _, _.
  split; [exact Ej|]. split; [exact Et|]. split; [exact Ei|].
  split; [exact Er|]. split; [exact Fl|].
  fold multiplier. cbv zeta.
  set (sum := (j * w_job + t * w_tech + i * w_intent)%Q).
  assert (Hlo : (0 <= sum)%Q) by (unfold sum; nra).
  assert (Hhi : (sum <= 100)%Q).
  { unfold sum.
    assert (j * w_job <= 100 * w_job)%Q by nra.
    assert (t * w_tech <= 100 * w_tech)%Q by nra.
    assert (i * w_intent <= 100 * w_intent)%Q by nra.
    lra. }
  assert (Hm : (0.8 <= multiplier /\ multiplier <= 1.2)%Q).
  { destruct (size_multiplier_cases size)
      as [[_ E]|[[_ E]|(_ & _ & E)]]; fold multiplier in E;
      try rewrite E; split; lra. }
  assert (Hprod : (0 <= sum * multiplier)%Q) by nra.
  split; [split; assumption|].
  destruct (clamp_cases (sum * multiplier))
    as [[? E]|[[? [? E]]|[? E]]].
  - split; [intros _; lra|]. split; [intros; lra|].
    intros N1 N2.
    destruct (size_multiplier_cases size)
      as [[? _]|[[? _]|(_ & _ & B)]]; [contradiction..|].
    fold multiplier in B. split; [lra | nra].
  - split; [intros _; lra|]. split; [intros; lra|].
    intros N1 N2.
    destruct (size_multiplier_cases size)
      as [[? _]|[[? _]|(_ & _ & B)]]; [contradiction..|].
    fold multiplier in B. split; [lra | nra].
  - split; [intros; lra|]. split; [intros _; lra|].
    intros N1 N2.
    destruct (size_multiplier_cases size)
      as [[? _]|[[? _]|(_ & _ & B)]]; [contradiction..|].
    fold multiplier in B. split; nra.
Qed.

Lemma lead_score_normalised_witness :
  exists scored g' total,
    ScoringEngine._score_single_lead Samples.repr_fraction
      ScoringEngine.__init__ Samples.enriched_lead
      (Samples.list_rng [ 0.123; 0.456; 0.5; 0.61 ]%Q)
    = (inr scored, g')
    /\ scored !! "lead_score" = Some (Py.Num (Py.round1 total))
    /\ (total <= 100)%Q.
Proof.
  destruct (lead_score_normalised Samples.repr_fraction
              ScoringEngine.__init__ Samples.enriched_lead
              (Samples.list_rng [ 0.123; 0.456; 0.5; 0.61 ]%Q)
              (Py.Str "technical") (Py.Str "Mid-level") (Py.Str "Medium")
              "Go, Kubernetes, Docker" 0.4%Q 0.3%Q 0.3%Q
              (list_rng_ok [ 0.123; 0.456; 0.5; 0.61 ]%Q eq_refl)
              eq_refl eq_refl eq_refl eq_refl eq_refl eq_refl eq_refl)
    as (j & t & i & total & scored & g1 & g2 & g3 & _ & _ & _ & Er & Fl
        & Hsum & _ & _ & Hsize);
    try (vm_compute; discriminate).
  - vm_compute. reflexivity.
  - cbv zeta in Hsum, Hsize.
    destruct Hsize as [E B]; [discriminate..|].
    exists scored, g3, total. split; [exact Er|]. split; [exact Fl|].
    destruct Hsum as [_ H100]. lra.
Defined.

(** * The pipeline *)

Lemma enriched_lead_of_extends row out :
  Enriched.extends row out -> Schema.enriched_lead out.
Proof.
  intros (_ & _ & _ & Hall & _).
  assert (H : forall field, In field Enriched.fields ->
                            is_Some (out !! field)).
  { intros field Hin. destruct (Hall field Hin) as [s ->]. eauto. }
  repeat split; try (apply H; simpl; auto 12).
  apply Hall. simpl. auto 12.
Qed.

Lemma enriched_leads_of_extends df out :
  Forall2 Enriched.extends df out -> Forall Schema.enriched_lead out.
Proof.
  induction 1; constructor; eauto using enriched_lead_of_extends.
Qed.

Lemma process_leads_run (repr_float : Q -> string)
    (scorer : ScoringEngine.t) (df : list (gmap string Py.pyval))
    (processed_leads : option (list (gmap string Py.pyval))) (g : Py.rng) :
  Py.rng_ok g ->
  Forall Schema.raw_lead df ->
  Schema.scoring_weights (ScoringEngine.weights scorer) ->
  exists scored_df g',
    App.process_leads repr_float scorer df processed_leads g
    = (Some scored_df, g')
    /\ List.length scored_df = List.length df
    /\ (forall i row,
          df !! i = Some row ->
          exists record total,
            scored_df !! i = Some record
            /\ record !! "name" = row !! "name"
            /\ record !! "email" = row !! "email"
            /\ record !! "company_domain" = row !! "company_domain"
            /\ record !! "lead_score" = Some (Py.Num total)
            /\ (0 <= total /\ total <= 100)%Q).
Proof.
  intros Hg Hdf Hw.
  destruct (succeeds_enrich_leads df Hdf g Hg)
    as (enriched & g1 & E1 & Hg1 & Hext & _).
  pose proof (enriched_leads_of_extends df enriched Hext) as Hen.
  destruct (succeeds_score_leads repr_float scorer enriched Hen Hw g1 Hg1)
    as (scored & g2 & E2 & _ & Hsc).
  exists scored, g2. split.
  { unfold App.process_leads. rewrite (bind_inr _ _ _ _ _ E1).
    now rewrite E2. }
  split.
  { rewrite <- (Forall2_length _ _ _ Hsc). symmetry.
    eapply Forall2_length, Hext. }
  intros i row Hi.
  destruct (Forall2_lookup_l _ _ _ _ _ Hext Hi)
    as (out & Ho & Hn & He & Hd & _).
  destruct (Forall2_lookup_l _ _ _ _ _ Hsc Ho)
    as (record & Hr & Frame & j & t & n & total & e & _ & _ & _ & Fl & _
        & _ & _ & _ & Bl).
  exists record, total. split; [exact Hr|].
  assert (Hkeep : forall field,
             In field [ "name"; "email"; "company_domain" ] ->
             record !! field = out !! field).
  { intros field Hin. apply Frame. simpl in *.
    intros Hs.
    repeat (destruct Hin as [<-|Hin];
            [repeat (destruct Hs as [Hs|Hs]; [discriminate Hs|]);
             exact Hs|]).
    exact Hin. }
  rewrite !Hkeep by (simpl; auto).
  auto.
Qed.

(** X12: [process_leads] on a table of raw leads, with the three weights in
    place, stores a table of as many records as there are rows, in the
    same order, each with the name, the email and the domain of its row
    and a [lead_score] between 0 and 100; when a row lacks a required
    field, preceded by raw leads only, the stored table is left as it
    was. *)
Theorem process_leads_result (repr_float : Q -> string)
    (scorer : ScoringEngine.t) (df : list (gmap string Py.pyval))
    (processed_leads : option (list (gmap string Py.pyval))) (g : Py.rng) :
  Py.rng_ok g ->
  (Forall Schema.raw_lead df ->
   Schema.scoring_weights (ScoringEngine.weights scorer) ->
   exists scored_df g',
     App.process_leads repr_float scorer df processed_leads g
     = (Some scored_df, g')
     /\ List.length scored_df = List.length df
     /\ (forall i row,
           df !! i = Some row ->
           exists record total,
             scored_df !! i = Some record
             /\ record !! "name" = row !! "name"
             /\ record !! "email" = row !! "email"
             /\ record !! "company_domain" = row !! "company_domain"
             /\ record !! "lead_score" = Some (Py.Num total)
             /\ (0 <= total /\ total <= 100)%Q))
  /\ (forall before row after field,
        df = (before ++ row :: after)%list ->
        Forall Schema.raw_lead before ->
        Schema.first_missing row = Some field ->
        exists g',
          App.process_leads repr_float scorer df processed_leads g
          = (processed_leads, g')).
Proof.
  intros Hg. split.
  - intros Hdf Hw. now apply process_leads_run.
  - intros before row after field -> Hbefore Hmiss.
    destruct (enrich_leads_abort before row after field g Hg Hbefore Hmiss)
      as [g' E].
    exists g'. unfold App.process_leads.
    now rewrite (bind_inl _ _ _ _ _ E).
Qed.

Lemma process_leads_result_witness :
  exists scored_df g',
    App.process_leads Samples.repr_fraction ScoringEngine.__init__
      [ Samples.raw_row; Samples.raw_row ] None
      (Samples.list_rng [ 0.5; 0.25; 0.75 ]%Q)
    = (Some scored_df, g')
    /\ List.length scored_df = 2%nat.
Proof.
  destruct (proj1 (process_leads_result Samples.repr_fraction
                     ScoringEngine.__init__
                     [ Samples.raw_row; Samples.raw_row ] None
                     (Samples.list_rng [ 0.5; 0.25; 0.75 ]%Q)
                     (list_rng_ok [ 0.5; 0.25; 0.75 ]%Q eq_refl))
              sample_raw_leads init_scoring_weights)
    as (scored & g' & E & Hlen & _).
  exists scored, g'. split; [exact E | exact Hlen].
Defined.

(** ** Cells that are not texts *)

Lemma choices_cursor {A} (population : list A) weights g r g' :
  Py.choices population weights g = (r, g') ->
  Py.cursor g' = S (Py.cursor g).
Proof.
  unfold Py.choices, Py.bind, Py.random, Py.ret, Py.raise.
  destruct (_ !! _); intros H; inversion H; reflexivity.
Qed.

Lemma choice_cursor {A} (seq : list A) g x g' :
  Py.choice seq g = (inr x, g') -> Py.cursor g' = S (Py.cursor g).
Proof.
  destruct seq as [|x0 seq]; [discriminate|].
  unfold Py.choice, Py.randbelow, Py.bind, Py.random, Py.ret, Py.raise.
  destruct (_ !! _); intros H; inversion H; reflexivity.
Qed.

Lemma job_category_cursor email name g r g' :
  LeadEnricher._determine_job_category (Py.Str email) (Py.Str name) g
  = (r, g') ->
  (Py.cursor g <= Py.cursor g')%nat.
Proof.
  unfold LeadEnricher._determine_job_category, Py.bind, Py.str_lower, Py.ret.
  repeat match goal with
         | |- context [if Text.any_in ?ps ?s then _ else _] =>
             destruct (Text.any_in ps s)
         end;
    try (intros H; inversion H; lia).
  intros H. apply choices_cursor in H. lia.
Qed.

Lemma seniority_cursor job_title email g r g' :
  LeadEnricher._determine_seniority job_title (Py.Str email) g
  = (inr r, g') ->
  (Py.cursor g <= Py.cursor g')%nat.
Proof.
  unfold LeadEnricher._determine_seniority, Py.bind, Py.str_lower, Py.ret.
  repeat match goal with
         | |- context [if Text.any_in ?ps ?s then _ else _] =>
             destruct (Text.any_in ps s)
         end;
    try (intros H; inversion H; lia).
  intros H. apply choice_cursor in H. lia.
Qed.

(** X13: A row that has the three required fields but a name or an email that
    is not a text (an empty cell is the number [nan]) raises
    [AttributeError] before any draw is read; a domain that is not a
    text raises it after the title and the tech stack have been drawn.
    None of these is the [KeyError] of a missing field. *)
Theorem enrich_non_text_cell (row : gmap string Py.pyval) (g : Py.rng) :
  Py.rng_ok g ->
  let run := LeadEnricher._enrich_single_lead row g in
  (forall name q,
      row !! "name" = Some name ->
      row !! "email" = Some (Py.Num q) ->
      is_Some (row !! "company_domain") ->
      run = (inl (Py.AttributeError "lower"), g))
  /\ (forall q email,
        row !! "name" = Some (Py.Num q) ->
        row !! "email" = Some (Py.Str email) ->
        is_Some (row !! "company_domain") ->
        run = (inl (Py.AttributeError "lower"), g))
  /\ (forall name email q,
        row !! "name" = Some (Py.Str name) ->
        row !! "email" = Some (Py.Str email) ->
        row !! "company_domain" = Some (Py.Num q) ->
        exists g',
          run = (inl (Py.AttributeError "lower"), g')
          /\ (Py.cursor g + 2 <= Py.cursor g')%nat).
Proof.
  intros Hg run. unfold run. split; [|split].
  - intros name q Hn He [d Hd].
    unfold LeadEnricher._enrich_single_lead, Py.bind, Py.getitem.
    now rewrite Hn, He, Hd.
  - intros q email Hn He [d Hd].
    unfold LeadEnricher._enrich_single_lead, Py.bind, Py.getitem.
    now rewrite Hn, He, Hd.
  - intros name email q Hn He Hd.
    destruct (succeeds_job_category email name g Hg)
      as (category & g1 & E1 & Hg1 & Hc).
    destruct (job_titles_total category Hc) as (titles & Ht & Hne).
    destruct (succeeds_choice titles Hne g1 Hg1)
      as (title & g2 & E2 & Hg2 & _).
    destruct (succeeds_seniority title email g2 Hg2)
      as (seniority & g3 & E3 & Hg3 & _).
    destruct (succeeds_choice LeadEnricher.tech_stacks
                ltac:(discriminate) g3 Hg3)
      as (tech & g4 & E4 & Hg4 & _).
    exists g4. split.
    + unfold LeadEnricher._enrich_single_lead.
      unfold Py.bind at 1, Py.getitem at 1. rewrite Hn. unfold Py.ret at 1.
      unfold Py.bind at 1, Py.getitem at 1. rewrite He. unfold Py.ret at 1.
      unfold Py.bind at 1, Py.getitem at 1. rewrite Hd. unfold Py.ret at 1.
      rewrite (bind_inr (LeadEnricher._determine_job_category _ _)
                 _ _ _ _ E1).
      unfold Py.bind at 1, Py.getitem at 1. rewrite Ht. unfold Py.ret at 1.
      rewrite (bind_inr (Py.choice titles) _ _ _ _ E2).
      rewrite (bind_inr (LeadEnricher._determine_seniority _ _) _ _ _ _ E3).
      unfold Py.bind at 1, LeadEnricher._generate_linkedin_url, Py.ret at 1.
      rewrite (bind_inr (Py.choice LeadEnricher.tech_stacks) _ _ _ _ E4).
      reflexivity.
    + apply job_category_cursor in E1. apply choice_cursor in E2.
      apply seniority_cursor in E3. apply choice_cursor in E4.
      lia.
Qed.

Lemma enrich_non_text_cell_witness :
  LeadEnricher._enrich_single_lead
    (<[ "email" := Py.Num 0 ]> Samples.raw_row)
    (Samples.list_rng [ 0.5%Q ])
  = (inl (Py.AttributeError "lower"), Samples.list_rng [ 0.5%Q ]).
Proof.
  refine (proj1 (enrich_non_text_cell
                   (<[ "email" := Py.Num 0 ]> Samples.raw_row)
                   (Samples.list_rng [ 0.5%Q ])
                   (list_rng_ok [ 0.5%Q ] eq_refl))
            (Py.Str "Jane Doe") 0%Q _ _ _).
  - reflexivity.
  - reflexivity.
  - vm_compute. eauto.
Defined.

(** * [utils.py] *)

(** ** Matching *)

Lemma fullmatch_empty s : Re.fullmatch Re.Empty s = false.
Proof. induction s; simpl; auto. Qed.

Lemma fullmatch_eps s : Re.fullmatch Re.Eps s = true <-> s = EmptyString.
Proof.
  destruct s as [|c s]; simpl; [tauto|].
  rewrite fullmatch_empty. split; discriminate.
Qed.

Lemma fullmatch_class f s :
  Re.fullmatch (Re.Class f) s = true
  <-> exists c, s = String c EmptyString /\ f c = true.
Proof.
  destruct s as [|c s]; simpl.
  - split; [discriminate | intros (c & H & _); discriminate].
  - destruct (f c) eqn:E.
    + rewrite fullmatch_eps. split.
      * intros ->. now exists c.
      * intros (c' & H & _). now injection H.
    + rewrite fullmatch_empty. split; [discriminate|].
      intros (c' & H & Hc). injection H as -> _. congruence.
Qed.

Lemma fullmatch_alt r1 r2 s :
  Re.fullmatch (Re.Alt r1 r2) s = Re.fullmatch r1 s || Re.fullmatch r2 s.
Proof. revert r1 r2. induction s as [|c s IH]; intros; simpl; auto. Qed.

Lemma fullmatch_seq r1 r2 s :
  Re.fullmatch (Re.Seq r1 r2) s = true
  <-> exists s1 s2,
        s = s1 ++ s2
        /\ Re.fullmatch r1 s1 = true /\ Re.fullmatch r2 s2 = true.
Proof.
  revert r1 r2. induction s as [|c s IH]; intros r1 r2.
  - simpl. rewrite andb_true_iff. split.
    + intros [H1 H2]. now exists EmptyString, EmptyString.
    + intros (s1 & s2 & E & H1 & H2).
      destruct s1; [|discriminate]. destruct s2; [|discriminate].
      auto.
  - cbn [Re.fullmatch Re.deriv]. split.
    + intros H.
      assert (Hcases :
        Re.fullmatch (Re.Seq (Re.deriv c r1) r2) s = true
        \/ (Re.nullable r1 = true /\ Re.fullmatch (Re.deriv c r2) s = true)).
      { destruct (Re.nullable r1); [|now left].
        rewrite fullmatch_alt, orb_true_iff in H. tauto. }
      destruct Hcases as [H'|[Hn H']].
      * apply IH in H' as (s1 & s2 & -> & H1 & H2).
        now exists (String c s1), s2.
      * exists EmptyString, (String c s). auto.
    + intros (s1 & s2 & E & H1 & H2).
      assert (Hgoal :
        Re.fullmatch (Re.Seq (Re.deriv c r1) r2) s = true
        \/ (Re.nullable r1 = true /\ Re.fullmatch (Re.deriv c r2) s = true)).
      { destruct s1 as [|c1 s1].
        - right. change (String c s = s2) in E. subst s2. auto.
        - left. change (String c s = String c1 (s1 ++ s2)) in E.
          injection E as <- ->. apply IH. now exists s1, s2. }
      destruct (Re.nullable r1).
      * rewrite fullmatch_alt, orb_true_iff.
        destruct Hgoal as [?|[_ ?]]; auto.
      * destruct Hgoal as [?|[? _]]; [assumption | discriminate].
Qed.

Lemma fullmatch_star_class f s :
  Re.fullmatch (Re.Star (Re.Class f)) s = Utils.all_chars f s.
Proof.
  induction s as [|c s IH]; [reflexivity|].
  cbn [Re.fullmatch Re.deriv Utils.all_chars].
  destruct (f c); simpl.
  - rewrite <- IH. apply eq_true_iff_eq. rewrite fullmatch_seq. split.
    + intros (s1 & s2 & -> & H1 & H2). apply fullmatch_eps in H1.
      now subst s1.
    + intros H. now exists EmptyString, s.
  - apply not_true_iff_false. rewrite fullmatch_seq.
    intros (s1 & s2 & _ & H1 & _). now rewrite fullmatch_empty in H1.
Qed.

Lemma fullmatch_plus_class f s :
  Re.fullmatch (Re.plus (Re.Class f)) s = true
  <-> s <> EmptyString /\ Utils.all_chars f s = true.
Proof.
  unfold Re.plus. rewrite fullmatch_seq. split.
  - intros (s1 & s2 & -> & H1 & H2).
    apply fullmatch_class in H1 as (c & -> & Hc).
    rewrite fullmatch_star_class in H2.
    change (String c EmptyString ++ s2) with (String c s2).
    simpl. rewrite Hc, H2.
    split; [discriminate | reflexivity].
  - intros [Hne Hall]. destruct s as [|c s]; [congruence|].
    simpl in Hall. apply andb_true_iff in Hall as [Hc Hs].
    exists (String c EmptyString), s. split; [reflexivity|].
    split; [apply fullmatch_class; eauto|].
    now rewrite fullmatch_star_class.
Qed.

Lemma fullmatch_at_least_two_class f s :
  Re.fullmatch (Re.at_least_two (Re.Class f)) s = true
  <-> (2 <= String.length s)%nat /\ Utils.all_chars f s = true.
Proof.
  unfold Re.at_least_two. rewrite fullmatch_seq. split.
  - intros (s1 & s2 & -> & H1 & H2).
    apply fullmatch_class in H1 as (c & -> & Hc).
    apply (fullmatch_plus_class f s2) in H2 as [Hne Hall].
    destruct s2 as [|d s2]; [congruence|].
    change (String c EmptyString ++ String d s2) with (String c (String d s2)).
    simpl in *. rewrite Hc. split; [lia | exact Hall].
  - intros [Hlen Hall]. destruct s as [|c [|d s]]; simpl in Hlen; try lia.
    cbn [Utils.all_chars] in Hall.
    apply andb_true_iff in Hall as [Hc Hs].
    exists (String c EmptyString), (String d s). split; [reflexivity|].
    split; [apply fullmatch_class; eauto|].
    apply (fullmatch_plus_class f (String d s)).
    split; [discriminate | exact Hs].
Qed.

Lemma before_final_newline_intro t :
  Re.before_final_newline (t ++ String "010" EmptyString) = Some t.
Proof.
  induction t as [|e t IH]; [reflexivity|].
  change (String e t ++ String "010" EmptyString)
    with (String e (t ++ String "010" EmptyString)).
  cbn [Re.before_final_newline]. rewrite IH.
  destruct t; reflexivity.
Qed.

Lemma before_final_newline_spec s t :
  Re.before_final_newline s = Some t
  <-> s = t ++ String "010" EmptyString.
Proof.
  split; [|intros ->; apply before_final_newline_intro].
  revert t. induction s as [|c s IH]; intros t; [discriminate|].
  cbn [Re.before_final_newline]. destruct s as [|d s].
  - destruct (Ascii.eqb_spec c "010") as [->|N]; [|discriminate].
    intros [= <-]. reflexivity.
  - destruct (Re.before_final_newline (String d s)) as [u|];
      [|discriminate].
    intros [= <-]. rewrite (IH u eq_refl). reflexivity.
Qed.

(** ** Emails *)

Lemma fullmatch_char c s :
  Re.fullmatch (Re.Class (Ascii.eqb c)) s = true <-> s = String c EmptyString.
Proof.
  rewrite fullmatch_class. split.
  - intros (d & -> & H). apply Ascii.eqb_eq in H. now subst.
  - intros ->. exists c. split; [reflexivity | apply Ascii.eqb_refl].
Qed.

Lemma fullmatch_email_pattern s :
  Re.fullmatch Utils.email_pattern s = true
  <-> exists local domain tld,
        s = local ++ "@" ++ domain ++ "." ++ tld
        /\ local <> EmptyString
        /\ Utils.all_chars Utils.local_char local = true
        /\ domain <> EmptyString
        /\ Utils.all_chars Utils.domain_char domain = true
        /\ (2 <= String.length tld)%nat
        /\ Utils.all_chars Text.is_letter tld = true.
Proof.
  unfold Utils.email_pattern. split.
  - intros H.
    apply fullmatch_seq in H as (local & r1 & -> & Hl & H).
    apply fullmatch_seq in H as (at_sign & r2 & -> & Ha & H).
    apply fullmatch_seq in H as (domain & r3 & -> & Hd & H).
    apply fullmatch_seq in H as (dot & tld & -> & Hdot & Ht).
    apply fullmatch_char in Ha, Hdot. subst at_sign dot.
    apply fullmatch_plus_class in Hl as [? ?], Hd as [? ?].
    apply fullmatch_at_least_two_class in Ht as [? ?].
    now exists local, domain, tld.
  - intros (local & domain & tld & -> & Hl & Hla & Hd & Hda & Ht & Hta).
    apply fullmatch_seq. exists local, ("@" ++ domain ++ "." ++ tld).
    split; [reflexivity|]. split; [now apply fullmatch_plus_class|].
    apply fullmatch_seq. exists "@", (domain ++ "." ++ tld).
    split; [reflexivity|]. split; [now apply fullmatch_char|].
    apply fullmatch_seq. exists domain, ("." ++ tld).
    split; [reflexivity|]. split; [now apply fullmatch_plus_class|].
    apply fullmatch_seq. exists ".", tld.
    split; [reflexivity|]. split; [now apply fullmatch_char|].
    now apply fullmatch_at_least_two_class.
Qed.

(** X14: An email is valid exactly when it is a local part, an at sign, a
    domain, a dot and a top-level domain, possibly followed by one line
    feed: the local part is not empty and made of letters, digits and
    the characters . _ % + -, the domain is not empty and made of
    letters, digits, dots and hyphens, and the top-level domain is two
    letters or more. *)
Theorem validate_email_shape (email : string) :
  Utils.validate_email email = true
  <-> exists local domain tld,
        (email = local ++ "@" ++ domain ++ "." ++ tld
         \/ email = (local ++ "@" ++ domain ++ "." ++ tld)
                    ++ String "010" EmptyString)
        /\ local <> EmptyString
        /\ Utils.all_chars Utils.local_char local = true
        /\ domain <> EmptyString
        /\ Utils.all_chars Utils.domain_char domain = true
        /\ (2 <= String.length tld)%nat
        /\ Utils.all_chars Text.is_letter tld = true.
Proof.
  unfold Utils.validate_email, Re.match_anchored.
  rewrite orb_true_iff. split.
  - intros [H|H].
    + apply fullmatch_email_pattern in H as (l & d & t & -> & H).
      exists l, d, t. split; [now left | exact H].
    + destruct (Re.before_final_newline email) as [body|] eqn:E;
        [|discriminate].
      apply before_final_newline_spec in E.
      apply fullmatch_email_pattern in H as (l & d & t & -> & H).
      exists l, d, t. split; [now right | exact H].
  - intros (l & d & t & [->| ->] & H).
    + left. apply fullmatch_email_pattern. now exists l, d, t.
    + right. rewrite before_final_newline_intro.
      apply fullmatch_email_pattern. now exists l, d, t.
Qed.

(** ** The domain of an email *)

Lemma split_without sep s :
  Utils.all_chars (Utils.is_not sep) s = true -> Utils.split sep s = [ s ].
Proof.
  induction s as [|c s IH]; [reflexivity|].
  cbn [Utils.all_chars Utils.split]. unfold Utils.is_not at 1.
  rewrite andb_true_iff, negb_true_iff. intros [Hc Hs].
  now rewrite Hc, (IH Hs).
Qed.

Lemma split_at sep a b :
  Utils.all_chars (Utils.is_not sep) a = true ->
  Utils.split sep (a ++ String sep b) = a :: Utils.split sep b.
Proof.
  induction a as [|c a IH].
  - intros _. change (EmptyString ++ String sep b) with (String sep b).
    cbn [Utils.split]. now rewrite Ascii.eqb_refl.
  - cbn [Utils.all_chars]. unfold Utils.is_not at 1.
    rewrite andb_true_iff, negb_true_iff. intros [Hc Ha].
    change (String c a ++ String sep b) with (String c (a ++ String sep b)).
    cbn [Utils.split]. now rewrite Hc, (IH Ha).
Qed.

Lemma split_parts sep s :
  Forall (fun part => Utils.all_chars (Utils.is_not sep) part = true)
    (Utils.split sep s).
Proof.
  induction s as [|c s IH]; [repeat constructor|].
  cbn [Utils.split]. destruct (Ascii.eqb c sep) eqn:E.
  - constructor; [reflexivity | exact IH].
  - destruct (Utils.split sep s) as [|part parts].
    + repeat constructor. simpl. unfold Utils.is_not. now rewrite E.
    + apply Forall_cons in IH as [Hp Hps]. constructor; [|exact Hps].
      simpl. unfold Utils.is_not at 1. now rewrite E, Hp.
Qed.

Lemma lower_char_not_at c :
  Utils.is_not "@" c = true -> Utils.is_not "@" (Text.lower_char c) = true.
Proof.
  destruct c as [[] [] [] [] [] [] [] []]; vm_compute; congruence.
Qed.

Lemma lower_without_at s :
  Utils.all_chars (Utils.is_not "@") s = true ->
  Utils.all_chars (Utils.is_not "@") (Text.lower s) = true.
Proof.
  induction s as [|c s IH]; [reflexivity|].
  cbn [Utils.all_chars Text.lower]. rewrite !andb_true_iff.
  intros [Hc Hs]. split; [now apply lower_char_not_at | now apply IH].
Qed.

Lemma extract_domain_run (email : Py.pyval) :
  let without_at s := Utils.all_chars (Utils.is_not "@") s = true in
  (forall s, email = Py.Str s -> without_at s ->
             Utils.extract_domain email = EmptyString)
  /\ (forall local domain,
        email = Py.Str (local ++ "@" ++ domain) ->
        without_at local -> without_at domain ->
        Utils.extract_domain email = Text.lower domain)
  /\ (forall local domain rest,
        email = Py.Str (local ++ "@" ++ domain ++ "@" ++ rest) ->
        without_at local -> without_at domain ->
        Utils.extract_domain email = Text.lower domain)
  /\ (forall q, email = Py.Num q -> Utils.extract_domain email = EmptyString)
  /\ without_at (Utils.extract_domain email).
Proof.
  intros without_at. unfold without_at.
  split; [|split; [|split; [|split]]].
  - intros s -> Hs. simpl. now rewrite split_without.
  - intros local domain -> Hl Hd. simpl.
    change (local ++ "@" ++ domain) with (local ++ String "@" domain).
    now rewrite split_at, split_without.
  - intros local domain rest -> Hl Hd. simpl.
    change (local ++ "@" ++ domain ++ "@" ++ rest)
      with (local ++ String "@" (domain ++ String "@" rest)).
    now rewrite split_at, split_at.
  - intros q ->. reflexivity.
  - destruct email as [s|q]; [|reflexivity]. simpl.
    pose proof (split_parts "@" s) as Hparts.
    destruct (Utils.split "@" s) as [|p0 [|p1 ps]]; try reflexivity.
    apply Forall_cons in Hparts as [_ Hparts].
    apply Forall_cons in Hparts as [Hp1 _].
    now apply lower_without_at.
Qed.

(** X15: [extract_domain] gives the lowercased text between the first at sign
    and the second one, or the end; without an at sign, or for a value
    that is not a text, it gives the empty text.  It never raises, and
    its result never holds an at sign. *)
Theorem extract_domain_cases (email : Py.pyval) :
  let without_at s := Utils.all_chars (Utils.is_not "@") s = true in
  (forall s, email = Py.Str s -> without_at s ->
             Utils.extract_domain email = EmptyString)
  /\ (forall local domain,
        email = Py.Str (local ++ "@" ++ domain) ->
        without_at local -> without_at domain ->
        Utils.extract_domain email = Text.lower domain)
  /\ (forall local domain rest,
        email = Py.Str (local ++ "@" ++ domain ++ "@" ++ rest) ->
        without_at local -> without_at domain ->
        Utils.extract_domain email = Text.lower domain)
  /\ (forall q, email = Py.Num q -> Utils.extract_domain email = EmptyString)
  /\ without_at (Utils.extract_domain email).
Proof. exact (extract_domain_run email). Qed.

Lemma extract_domain_cases_witness :
  Utils.extract_domain (Py.Str "Jane.Doe@Acme.COM") = "acme.com".
Proof.
  exact (proj1 (proj2 (extract_domain_cases (Py.Str "Jane.Doe@Acme.COM")))
           "Jane.Doe" "Acme.COM" eq_refl eq_refl eq_refl).
Defined.

Lemma append_assoc (a b c : string) : (a ++ b) ++ c = a ++ (b ++ c).
Proof.
  induction a as [|x a IH]; [reflexivity|].
  change ((String x a ++ b) ++ c) with (String x ((a ++ b) ++ c)).
  now rewrite IH.
Qed.

Lemma all_chars_app f a b :
  Utils.all_chars f (a ++ b) = Utils.all_chars f a && Utils.all_chars f b.
Proof.
  induction a as [|x a IH]; [reflexivity|].
  change (String x a ++ b) with (String x (a ++ b)).
  simpl. now rewrite IH, andb_assoc.
Qed.

Lemma all_chars_impl (f h : ascii -> bool) s :
  (forall c, f c = true -> h c = true) ->
  Utils.all_chars f s = true -> Utils.all_chars h s = true.
Proof.
  intros Hfh. induction s as [|c s IH]; [reflexivity|].
  simpl. rewrite !andb_true_iff. intros [Hc Hs]. auto.
Qed.

Lemma local_char_not_at c :
  Utils.local_char c = true -> Utils.is_not "@" c = true.
Proof. destruct c as [[] [] [] [] [] [] [] []]; vm_compute; congruence. Qed.

Lemma domain_char_not_at c :
  Utils.domain_char c = true -> Utils.is_not "@" c = true.
Proof. destruct c as [[] [] [] [] [] [] [] []]; vm_compute; congruence. Qed.

Lemma letter_domain_char c :
  Text.is_letter c = true -> Utils.domain_char c = true.
Proof. destruct c as [[] [] [] [] [] [] [] []]; vm_compute; congruence. Qed.

Lemma lower_app a b : Text.lower (a ++ b) = Text.lower a ++ Text.lower b.
Proof.
  induction a as [|x a IH]; [reflexivity|].
  change (String x a ++ b) with (String x (a ++ b)).
  simpl. now rewrite IH.
Qed.

(** X16: A valid email is a local part without an at sign, an at sign, a
    domain without one, a dot and a top-level domain of at least two
    letters, with or without a line feed after them; the domain extracted
    from it is the lowercased domain, dot and top-level domain of that
    very email, followed by the line feed when the email ends with one:
    it is never empty. *)
Theorem valid_email_domain (email : string) :
  Utils.validate_email email = true ->
  exists local domain tld,
    ((email = local ++ "@" ++ domain ++ "." ++ tld
      /\ Utils.extract_domain (Py.Str email)
         = Text.lower domain ++ "." ++ Text.lower tld)
     \/ (email = (local ++ "@" ++ domain ++ "." ++ tld)
                 ++ String "010" EmptyString
         /\ Utils.extract_domain (Py.Str email)
            = Text.lower domain ++ "." ++ Text.lower tld
              ++ String "010" EmptyString))
    /\ local <> EmptyString
    /\ Utils.all_chars (Utils.is_not "@") local = true
    /\ domain <> EmptyString
    /\ Utils.all_chars (Utils.is_not "@") domain = true
    /\ (2 <= String.length tld)%nat
    /\ Utils.all_chars Text.is_letter tld = true
    /\ Utils.extract_domain (Py.Str email) <> EmptyString.
Proof.
  intros H.
  assert (Hparts : exists l d t,
            (email = l ++ "@" ++ d ++ "." ++ t
             \/ email = (l ++ "@" ++ d ++ "." ++ t)
                        ++ String "010" EmptyString)
            /\ l <> EmptyString
            /\ Utils.all_chars Utils.local_char l = true
            /\ d <> EmptyString
            /\ Utils.all_chars Utils.domain_char d = true
            /\ (2 <= String.length t)%nat
            /\ Utils.all_chars Text.is_letter t = true).
  { unfold Utils.validate_email, Re.match_anchored in H.
    apply orb_true_iff in H as [H|H].
    - apply fullmatch_email_pattern in H as (l & d & t & -> & H).
      exists l, d, t. split; [now left | exact H].
    - destruct (Re.before_final_newline email) as [body|] eqn:E;
        [|discriminate].
      apply before_final_newline_spec in E.
      apply fullmatch_email_pattern in H as (l & d & t & -> & H).
      exists l, d, t. split; [now right | exact H]. }
  destruct Hparts as (l & d & t & Hshape & Hl & Hla & Hd & Hda & Ht & Hta).
  pose proof (all_chars_impl _ _ l local_char_not_at Hla) as Nl.
  pose proof (all_chars_impl _ _ d domain_char_not_at Hda) as Nd.
  pose proof (all_chars_impl _ _ t letter_domain_char Hta) as Dt.
  pose proof (all_chars_impl _ _ t domain_char_not_at Dt) as Nt.
  assert (Hne : Text.lower d <> EmptyString)
    by (destruct d; [congruence | discriminate]).
  exists l, d, t.
  destruct Hshape as [->| ->].
  - assert (E : Utils.extract_domain (Py.Str (l ++ "@" ++ d ++ "." ++ t))
                = Text.lower d ++ "." ++ Text.lower t).
    { rewrite (proj1 (proj2 (extract_domain_run
                               (Py.Str (l ++ "@" ++ d ++ "." ++ t))))
                 l (d ++ "." ++ t) eq_refl Nl).
      - now rewrite !lower_app.
      - now rewrite !all_chars_app, Nd, Nt. }
    rewrite E. split; [left; now split|].
    split; [exact Hl|]. split; [exact Nl|].
    split; [exact Hd|]. split; [exact Nd|].
    split; [exact Ht|]. split; [exact Hta|].
    destruct (Text.lower d); [congruence | discriminate].
  - assert (E : Utils.extract_domain
                  (Py.Str ((l ++ "@" ++ d ++ "." ++ t)
                           ++ String "010" EmptyString))
                = Text.lower d ++ "." ++ Text.lower t
                  ++ String "010" EmptyString).
    { rewrite (proj1 (proj2 (extract_domain_run
                               (Py.Str ((l ++ "@" ++ d ++ "." ++ t)
                                        ++ String "010" EmptyString))))
                 l (d ++ "." ++ t ++ String "010" EmptyString)).
      - now rewrite !lower_app.
      - now rewrite !append_assoc.
      - exact Nl.
      - now rewrite !all_chars_app, Nd, Nt. }
    rewrite E. split; [right; now split|].
    split; [exact Hl|]. split; [exact Nl|].
    split; [exact Hd|]. split; [exact Nd|].
    split; [exact Ht|]. split; [exact Hta|].
    destruct (Text.lower d); [congruence | discriminate].
Qed.

Lemma validate_email_shape_witness :
  Utils.validate_email "john.smith@techcorp.com" = true.
Proof.
  apply (proj2 (validate_email_shape "john.smith@techcorp.com")).
  exists "john.smith", "techcorp", "com".
  repeat split; try discriminate; try (now left); vm_compute; lia.
Defined.

Lemma valid_email_domain_witness :
  exists local domain tld,
    (("John.Smith@TechCorp.COM" = local ++ "@" ++ domain ++ "." ++ tld
      /\ Utils.extract_domain (Py.Str "John.Smith@TechCorp.COM")
         = Text.lower domain ++ "." ++ Text.lower tld)
     \/ ("John.Smith@TechCorp.COM"
         = (local ++ "@" ++ domain ++ "." ++ tld)
           ++ String "010" EmptyString
         /\ Utils.extract_domain (Py.Str "John.Smith@TechCorp.COM")
            = Text.lower domain ++ "." ++ Text.lower tld
              ++ String "010" EmptyString))
    /\ local <> EmptyString
    /\ Utils.all_chars (Utils.is_not "@") local = true
    /\ domain <> EmptyString
    /\ Utils.all_chars (Utils.is_not "@") domain = true
    /\ (2 <= String.length tld)%nat
    /\ Utils.all_chars Text.is_letter tld = true
    /\ Utils.extract_domain (Py.Str "John.Smith@TechCorp.COM")
       <> EmptyString.
Proof.
  exact (valid_email_domain "John.Smith@TechCorp.COM" eq_refl).
Defined.

(** ** The company domain *)

Lemma lstrip_suffix s : exists a, s = a ++ Utils.lstrip s.
Proof.
  induction s as [|c s [a IH]]; [now exists EmptyString|].
  simpl. destruct (Text.is_space c).
  - exists (String c a).
    change (String c a ++ Utils.lstrip s)
      with (String c (a ++ Utils.lstrip s)).
    now rewrite <- IH.
  - now exists EmptyString.
Qed.

Lemma append_empty_r s : s ++ EmptyString = s.
Proof.
  induction s as [|c s IH]; [reflexivity|].
  change (String c s ++ EmptyString) with (String c (s ++ EmptyString)).
  now rewrite IH.
Qed.

Lemma rstrip_prefix s : exists b, s = Utils.rstrip s ++ b.
Proof.
  induction s as [|c s [b IH]]; [now exists EmptyString|].
  cbn [Utils.rstrip]. destruct (Utils.rstrip s) as [|d t].
  - destruct (Text.is_space c).
    + now exists (String c s).
    + exists s. reflexivity.
  - exists b.
    change (String c (String d t) ++ b) with (String c (String d t ++ b)).
    now rewrite <- IH.
Qed.

Lemma drop_suffix n s : exists a, s = a ++ Utils.drop n s.
Proof.
  revert s. induction n as [|n IH]; intros s; [now exists EmptyString|].
  destruct s as [|c s]; [now exists EmptyString|].
  destruct (IH s) as [a Ha]. exists (String c a). simpl.
  change (String c a ++ Utils.drop n s) with (String c (a ++ Utils.drop n s)).
  now rewrite <- Ha.
Qed.

Lemma split_head_prefix sep s :
  exists b, s = hd EmptyString (Utils.split sep s) ++ b.
Proof.
  induction s as [|c s [b IH]]; [now exists EmptyString|].
  cbn [Utils.split]. destruct (Ascii.eqb c sep).
  - now exists (String c s).
  - destruct (Utils.split sep s) as [|part parts]; simpl in *.
    + exists s. reflexivity.
    + exists b.
      change (String c part ++ b) with (String c (part ++ b)).
      now rewrite <- IH.
Qed.

Lemma occurs_refl s : Text.occurs s s.
Proof. exists EmptyString, EmptyString. now rewrite append_empty_r. Qed.

Lemma occurs_trans a b c :
  Text.occurs a b -> Text.occurs b c -> Text.occurs a c.
Proof.
  intros (x & y & ->) (u & v & ->).
  exists (u ++ x), (y ++ v). now rewrite !append_assoc.
Qed.

Lemma occurs_suffix a s : Text.occurs s (a ++ s).
Proof. exists a, EmptyString. now rewrite append_empty_r. Qed.

Lemma occurs_prefix s b : Text.occurs s (s ++ b).
Proof. now exists EmptyString, b. Qed.

Lemma all_chars_occurs f part s :
  Text.occurs part s ->
  Utils.all_chars f s = true -> Utils.all_chars f part = true.
Proof.
  intros (a & b & ->). rewrite !all_chars_app, !andb_true_iff. tauto.
Qed.

Lemma lower_char_idempotent c :
  Text.lower_char (Text.lower_char c) = Text.lower_char c.
Proof. destruct c as [[] [] [] [] [] [] [] []]; reflexivity. Qed.

Lemma lower_all_lowered s :
  Utils.all_chars (fun c => Ascii.eqb (Text.lower_char c) c) (Text.lower s)
  = true.
Proof.
  induction s as [|c s IH]; [reflexivity|].
  simpl. now rewrite lower_char_idempotent, Ascii.eqb_refl, IH.
Qed.

Lemma lowered_fixed s :
  Utils.all_chars (fun c => Ascii.eqb (Text.lower_char c) c) s = true ->
  Text.lower s = s.
Proof.
  induction s as [|c s IH]; [reflexivity|].
  simpl. rewrite andb_true_iff, Ascii.eqb_eq. intros [-> Hs].
  now rewrite IH.
Qed.

Lemma occurs_of_prefix part s :
  (exists b, s = part ++ b) -> Text.occurs part s.
Proof. intros [b ->]. apply occurs_prefix. Qed.

Lemma occurs_of_suffix part s :
  (exists a, s = a ++ part) -> Text.occurs part s.
Proof. intros [a ->]. apply occurs_suffix. Qed.

Lemma strip_occurs s : Text.occurs (Utils.strip s) s.
Proof.
  unfold Utils.strip.
  apply (occurs_trans _ (Utils.lstrip s)).
  - apply occurs_of_prefix, rstrip_prefix.
  - apply occurs_of_suffix, lstrip_suffix.
Qed.

Lemma clean_prefixes_occurs (ps : list string) s :
  Text.occurs
    (fold_left
       (fun domain prefix =>
          if Text.startswith prefix domain
          then Utils.drop (String.length prefix) domain
          else domain)
       ps s) s.
Proof.
  revert s. induction ps as [|p ps IH]; intros s; [apply occurs_refl|].
  cbn [fold_left]. eapply occurs_trans; [apply IH|].
  destruct (Text.startswith p s); [|apply occurs_refl].
  apply occurs_of_suffix, drop_suffix.
Qed.

(** X17: Cleaning a domain given as a text never raises; the result is a
    contiguous part of the lowercased text, holds no slash and no capital
    letter, and the empty text is cleaned to itself.  A number other than
    zero, such as the [nan] of an empty cell, raises [AttributeError]. *)
Theorem clean_company_domain_result (domain : string) :
  (exists host,
      Utils.clean_company_domain (Py.Str domain) = inr host
      /\ Text.occurs host (Text.lower domain)
      /\ Utils.all_chars (Utils.is_not "/") host = true
      /\ Text.lower host = host)
  /\ Utils.clean_company_domain (Py.Str EmptyString) = inr EmptyString
  /\ (forall q, ~ (q == 0)%Q ->
                Utils.clean_company_domain (Py.Num q)
                = inl (Py.AttributeError "lower")).
Proof.
  split; [|split].
  - destruct domain as [|c s].
    { exists EmptyString. repeat split. apply occurs_refl. }
    set (d := String c s).
    eexists. split; [reflexivity|].
    set (stripped := Utils.strip (Text.lower d)).
    set (cut := Utils.strip_prefixes stripped).
    assert (Hocc : Text.occurs (hd EmptyString (Utils.split "/" cut))
                     (Text.lower d)).
    { apply (occurs_trans _ cut);
        [apply occurs_of_prefix, split_head_prefix|].
      apply (occurs_trans _ stripped);
        [apply clean_prefixes_occurs | apply strip_occurs]. }
    split; [exact Hocc|]. split.
    + pose proof (split_parts "/" cut) as Hparts.
      destruct (Utils.split "/" cut) as [|p0 ps]; [reflexivity|].
      now apply Forall_cons in Hparts as [Hp _].
    + apply lowered_fixed.
      exact (all_chars_occurs _ _ _ Hocc (lower_all_lowered d)).
  - reflexivity.
  - intros q Hq. simpl.
    destruct (Qeq_bool q 0) eqn:E; [|reflexivity].
    apply Qeq_bool_iff in E. contradiction.
Qed.

Lemma startswith_colon_false p host rest :
  Utils.colon_first p = true ->
  Utils.all_chars (Utils.is_not ":") host = true ->
  rest = EmptyString \/ (exists path, rest = String "/" path) ->
  Text.startswith p (host ++ rest) = false.
Proof.
  intros Hp Hhost Hrest. revert host Hhost.
  induction p as [|c p IH]; intros host Hhost; [discriminate|].
  cbn [Utils.colon_first] in Hp.
  destruct host as [|x host].
  - change (EmptyString ++ rest) with rest.
    destruct Hrest as [->|[path ->]]; [reflexivity|].
    cbn [Text.startswith].
    destruct (Ascii.eqb_spec c ":") as [->|Nc]; [reflexivity|].
    destruct (Ascii.eqb c "/") eqn:E; [discriminate|]. reflexivity.
  - change (String x host ++ rest) with (String x (host ++ rest)).
    cbn [Text.startswith Utils.all_chars] in *.
    apply andb_true_iff in Hhost as [Hx Hhost].
    destruct (Ascii.eqb_spec c ":") as [->|Nc].
    + unfold Utils.is_not in Hx. apply negb_true_iff in Hx.
      rewrite Ascii.eqb_sym, Hx. reflexivity.
    + destruct (Ascii.eqb c "/"); [discriminate|].
      rewrite (IH Hp host Hhost). apply andb_false_r.
Qed.

Lemma startswith_app_false p host rest :
  Utils.all_chars (Utils.is_not "/") p = true ->
  Text.startswith p host = false ->
  rest = EmptyString \/ (exists path, rest = String "/" path) ->
  Text.startswith p (host ++ rest) = false.
Proof.
  intros Hp Hhost Hrest. revert host Hhost.
  induction p as [|c p IH]; intros host Hhost; [discriminate|].
  cbn [Utils.all_chars] in Hp. apply andb_true_iff in Hp as [Hc Hp].
  destruct host as [|x host].
  - change (EmptyString ++ rest) with rest.
    destruct Hrest as [->|[path ->]]; [reflexivity|].
    cbn [Text.startswith]. unfold Utils.is_not in Hc.
    apply negb_true_iff in Hc. now rewrite Hc.
  - change (String x host ++ rest) with (String x (host ++ rest)).
    cbn [Text.startswith] in *.
    destruct (Ascii.eqb c x); [|reflexivity].
    simpl in *. now apply IH.
Qed.

Lemma split_head_host host rest :
  Utils.all_chars (Utils.is_not "/") host = true ->
  rest = EmptyString \/ (exists path, rest = String "/" path) ->
  hd EmptyString (Utils.split "/" (host ++ rest)) = host.
Proof.
  intros Hhost [->|[path ->]].
  - rewrite append_empty_r. now rewrite split_without.
  - now rewrite split_at.
Qed.

Ltac decide_prefix :=
  match goal with
  | H : Text.startswith ?p ?d = _ |- context [Text.startswith ?p ?d] =>
      rewrite H
  | |- context [Text.startswith ?p ?d] =>
      first [ change (Text.startswith p d) with true
            | change (Text.startswith p d) with false ]
  end;
  cbv beta iota.

Lemma strip_prefixes_forms tail :
  let bare := Utils.strip_prefixes tail = tail in
  (Text.startswith "http://" tail = false ->
   Text.startswith "https://" tail = false ->
   Text.startswith "www." tail = false -> bare)
  /\ Utils.strip_prefixes ("www." ++ tail) = tail
  /\ (Text.startswith "https://" tail = false ->
      Text.startswith "www." tail = false ->
      Utils.strip_prefixes ("http://" ++ tail) = tail)
  /\ Utils.strip_prefixes ("http://" ++ "www." ++ tail) = tail
  /\ (Text.startswith "www." tail = false ->
      Utils.strip_prefixes ("https://" ++ tail) = tail)
  /\ Utils.strip_prefixes ("https://" ++ "www." ++ tail) = tail.
Proof.
  unfold Utils.strip_prefixes, Utils.prefixes. cbn [fold_left].
  repeat split; intros;
    repeat (decide_prefix;
            repeat match goal with
                   | |- context [Utils.drop ?n (?p ++ ?t)] =>
                       change (Utils.drop n (p ++ t)) with t
                   end);
    reflexivity.
Qed.

(** X18: A web address is cleaned to its host: with or without a scheme
    [http://] or [https://], with or without [www.] after it, whatever
    the case of the letters and the whitespace around, and whatever
    follows the first slash after the host.  The host is any text
    without slash or colon; only one [www.] is removed. *)
Theorem clean_company_domain_url (domain scheme www host rest : string) :
  Utils.strip (Text.lower domain) = scheme ++ www ++ host ++ rest ->
  In scheme [ EmptyString; "http://"; "https://" ] ->
  In www [ EmptyString; "www." ] ->
  Utils.all_chars (Utils.is_not "/") host = true ->
  Utils.all_chars (Utils.is_not ":") host = true ->
  rest = EmptyString \/ (exists path, rest = String "/" path) ->
  (www = EmptyString -> Text.startswith "www." host = false) ->
  Utils.clean_company_domain (Py.Str domain) = inr host.
Proof.
  intros Hshape Hscheme Hwww Hslash Hcolon Hrest Hbare.
  assert (Hcut : Utils.strip_prefixes (scheme ++ www ++ host ++ rest)
                 = host ++ rest).
  { pose proof (startswith_colon_false "http://" host rest eq_refl
                  Hcolon Hrest) as F1.
    pose proof (startswith_colon_false "https://" host rest eq_refl
                  Hcolon Hrest) as F2.
    destruct (strip_prefixes_forms (host ++ rest))
      as (C0 & C1 & C2 & C3 & C4 & C5).
    simpl in Hscheme, Hwww.
    destruct Hscheme as [<-|[<-|[<-|[]]]], Hwww as [<-|[<-|[]]];
      try assert (F3 := startswith_app_false "www." host rest eq_refl
                          (Hbare eq_refl) Hrest);
      auto. }
  destruct domain as [|c s].
  - change (Utils.strip (Text.lower EmptyString)) with EmptyString in Hshape.
    assert (Hhost : host = EmptyString).
    { destruct scheme; [|discriminate]. destruct www; [|discriminate].
      destruct host; [reflexivity | discriminate]. }
    now rewrite Hhost.
  - unfold Utils.clean_company_domain. cbv zeta.
    rewrite Hshape, Hcut. f_equal. now apply split_head_host.
Qed.

Lemma clean_company_domain_url_witness :
  Utils.clean_company_domain (Py.Str "  HTTPS://WWW.Example.com/about ")
  = inr "example.com".
Proof.
  apply (clean_company_domain_url "  HTTPS://WWW.Example.com/about "
           "https://" "www." "example.com" "/about");
    try reflexivity; simpl; eauto.
Defined.

(** ** The quality metrics *)

Lemma count_cons f (s : Q) l :
  Utils.count f (s :: l)
  = ((if f s then 1 else 0) + Utils.count f l)%nat.
Proof. unfold Utils.count. simpl. now destruct (f s). Qed.

Lemma count_ext f h (l : list Q) :
  (forall s, f s = h s) -> Utils.count f l = Utils.count h l.
Proof.
  intros Hfh. induction l as [|s l IH]; [reflexivity|].
  now rewrite !count_cons, Hfh, IH.
Qed.

Lemma count_le f (l : list Q) : (Utils.count f l <= List.length l)%nat.
Proof.
  induction l as [|s l IH]; [reflexivity|].
  rewrite count_cons. simpl. destruct (f s); lia.
Qed.

Lemma buckets_partition (l : list Q) :
  (Utils.count (fun s => Qle_bool 80 s) l
   + Utils.count (fun s => Qle_bool 60 s && Py.Qlt_bool s 80) l
   + Utils.count (fun s => Py.Qlt_bool s 60) l
   = List.length l)%nat.
Proof.
  induction l as [|s l IH]; [reflexivity|].
  rewrite !count_cons. simpl List.length. unfold Py.Qlt_bool in *.
  destruct (Qle_bool 80 s) eqn:E80, (Qle_bool 60 s) eqn:E60; simpl; try lia.
  apply Qle_bool_iff in E80. apply not_true_iff_false in E60.
  rewrite Qle_bool_iff in E60. lra.
Qed.

Lemma sum_from_bounds (l : list Q) (acc : Q) :
  Forall (fun s => 0 <= s /\ s <= 100)%Q l ->
  (acc <= fold_left Qplus l acc
   /\ fold_left Qplus l acc <= acc + 100 * Utils.of_nat (List.length l))%Q.
Proof.
  intros Hl. revert acc.
  induction Hl as [|s l [H0 H1] Hl IH]; intros acc.
  - cbn [fold_left List.length]. unfold Utils.of_nat.
    change (inject_Z (Z.of_nat 0)) with 0%Q. split; lra.
  - cbn [fold_left List.length]. destruct (IH (acc + s)%Q) as [L U].
    unfold Utils.of_nat in *. rewrite Nat2Z.inj_succ, <- Z.add_1_r.
    rewrite inject_Z_plus. change (inject_Z 1) with 1%Q. split; lra.
Qed.

(** X19: The three quality counts partition the table: every lead is counted
    once, as high from 80, as medium from 60 and as low below, and these
    are the leads that [format_score_color] paints green, yellow and red.
    The quality rate lies between 0 and 100, and so does the average when
    the scores do; an empty table gives zeros instead of dividing by
    zero. *)
Theorem quality_metrics_partition (lead_score : list Q) :
  let m := Utils.calculate_quality_metrics lead_score in
  Utils.total_leads m = List.length lead_score
  /\ (Utils.high_quality m + Utils.medium_quality m + Utils.low_quality m
      = Utils.total_leads m)%nat
  /\ Utils.high_quality m
     = Utils.count
         (fun s => String.eqb (Utils.format_score_color s) "#28a745")
         lead_score
  /\ Utils.medium_quality m
     = Utils.count
         (fun s => String.eqb (Utils.format_score_color s) "#ffc107")
         lead_score
  /\ Utils.low_quality m
     = Utils.count
         (fun s => String.eqb (Utils.format_score_color s) "#dc3545")
         lead_score
  /\ (0 <= Utils.quality_rate m /\ Utils.quality_rate m <= 100)%Q
  /\ (Forall (fun s => 0 <= s /\ s <= 100)%Q lead_score ->
      (0 <= Utils.average_score m /\ Utils.average_score m <= 100)%Q)
  /\ (lead_score = [] ->
      Utils.average_score m = 0%Q /\ Utils.quality_rate m = 0%Q).
Proof.
  intros m. subst m.
  destruct lead_score as [|s0 l0].
  { simpl. repeat split; try reflexivity; try lra. }
  set (l := s0 :: l0).
  assert (Hpos : (0 < Utils.of_nat (List.length l))%Q).
  { unfold Utils.of_nat. change 0%Q with (inject_Z 0).
    rewrite <- Zlt_Qlt. simpl. lia. }
  cbn [Utils.calculate_quality_metrics l Utils.total_leads
       Utils.high_quality Utils.medium_quality Utils.low_quality
       Utils.average_score Utils.quality_rate].
  fold l.
  split; [reflexivity|]. split; [apply buckets_partition|].
  split; [|split; [|split]].
  - apply count_ext. intros s. unfold Utils.format_score_color.
    destruct (Qle_bool 80 s); [reflexivity|].
    now destruct (Qle_bool 60 s).
  - apply count_ext. intros s.
    unfold Utils.format_score_color, Py.Qlt_bool.
    destruct (Qle_bool 80 s) eqn:E80, (Qle_bool 60 s) eqn:E60;
      try reflexivity.
  - apply count_ext. intros s.
    unfold Utils.format_score_color, Py.Qlt_bool.
    destruct (Qle_bool 80 s) eqn:E80, (Qle_bool 60 s) eqn:E60;
      try reflexivity.
    apply Qle_bool_iff in E80. apply not_true_iff_false in E60.
    rewrite Qle_bool_iff in E60. lra.
  - split; [|split].
    + change (0 <? List.length l)%nat with true. cbv beta iota.
      set (high := Utils.count (fun s => Qle_bool 80 s) l).
      assert (Hh : (0 <= Utils.of_nat high
                    /\ Utils.of_nat high <= Utils.of_nat (List.length l))%Q).
      { unfold Utils.of_nat. split.
        - change 0%Q with (inject_Z 0). rewrite <- Zle_Qle. lia.
        - rewrite <- Zle_Qle. pose proof (count_le (fun s => Qle_bool 80 s) l).
          fold high in H. lia. }
      apply round1_bounds.
      * apply Qmult_le_0_compat; [|lra].
        apply Qle_shift_div_l; [exact Hpos | lra].
      * assert (Utils.of_nat high / Utils.of_nat (List.length l) <= 1)%Q
          by (apply Qle_shift_div_r; [exact Hpos | lra]).
        lra.
    + intros Hall.
      destruct (sum_from_bounds l 0 Hall) as [L U].
      apply round1_bounds.
      * apply Qle_shift_div_l; [exact Hpos | unfold Py.sum_list; lra].
      * apply Qle_shift_div_r; [exact Hpos | unfold Py.sum_list; lra].
    + discriminate.
Qed.

Lemma quality_metrics_partition_witness :
  let m := Utils.calculate_quality_metrics [ 85; 70; 50; 80; 60 ]%Q in
  (0 <= Utils.average_score m /\ Utils.average_score m <= 100)%Q.
Proof.
  refine (proj1 (proj2 (proj2 (proj2 (proj2 (proj2 (proj2
            (quality_metrics_partition [ 85; 70; 50; 80; 60 ]%Q))))))) _).
  repeat constructor; vm_compute; discriminate.
Defined.

(** ** The columns of an uploaded table *)

Lemma index_some label labels i :
  Frame.index label labels = Some i -> List.nth_error labels i = Some label.
Proof.
  revert i. induction labels as [|l rest IH]; intros i; [discriminate|].
  cbn [Frame.index]. destruct (String.eqb_spec label l) as [->|N].
  - now intros [= <-].
  - destruct (Frame.index label rest) as [j|]; [|discriminate].
    intros [= <-]. now apply IH.
Qed.

Lemma index_none label labels :
  Frame.index label labels = None <-> ~ In label labels.
Proof.
  induction labels as [|l rest IH]; [simpl; tauto|].
  cbn [Frame.index]. destruct (String.eqb_spec label l) as [->|N].
  - split; [discriminate | intros H; exfalso; apply H; now left].
  - destruct (Frame.index label rest) as [j|].
    + split; [discriminate|]. intros H. exfalso.
      assert (Hr : ~ In label rest) by (intros Hin; apply H; now right).
      apply IH in Hr. discriminate.
    + split; [|reflexivity]. intros _ [E|Hin]; [congruence|].
      now apply (proj1 IH).
Qed.

Lemma index_in label labels :
  In label labels -> exists i, Frame.index label labels = Some i.
Proof.
  intros Hin. destruct (Frame.index label labels) as [i|] eqn:E; [eauto|].
  now apply index_none in E.
Qed.

Lemma mem_in label labels : Frame.mem label labels = true <-> In label labels.
Proof.
  unfold Frame.mem. rewrite existsb_exists. split.
  - intros (l & Hin & E). apply String.eqb_eq in E. now subst.
  - intros Hin. exists label. split; [exact Hin | apply String.eqb_refl].
Qed.

Lemma find_column_some names labels actual :
  Frame.find_column names labels = Some actual ->
  In actual labels /\ In (Frame.normal actual) names.
Proof.
  induction names as [|p names IH]; [discriminate|].
  cbn [Frame.find_column].
  destruct (Frame.index p (List.map Frame.normal labels)) as [i|] eqn:E.
  - intros Hn. apply index_some in E.
    rewrite nth_error_map, Hn in E. injection E as E.
    split; [eapply nth_error_In, Hn | now left].
  - intros H. destruct (IH H) as [H1 H2]. split; [exact H1 | now right].
Qed.

Lemma find_column_none names labels :
  Frame.find_column names labels = None <->
  (forall l, In l labels -> ~ In (Frame.normal l) names).
Proof.
  induction names as [|p names IH]; [simpl; tauto|].
  cbn [Frame.find_column].
  destruct (Frame.index p (List.map Frame.normal labels)) as [i|] eqn:E.
  - apply index_some in E. rewrite nth_error_map in E.
    destruct (List.nth_error labels i) as [a|] eqn:Ea; [|discriminate].
    injection E as E. split; [discriminate|].
    intros H. exfalso. apply (H a); [eapply nth_error_In, Ea | now left].
  - apply index_none in E. rewrite IH. split.
    + intros H l Hin [Ep|Hn]; [|now apply (H l)].
      apply E. rewrite Ep. now apply in_map.
    + intros H l Hin Hn. apply (H l Hin). now right.
Qed.

Lemma find_columns_required labels found :
  Frame.find_columns Frame.required_mappings labels = Some found ->
  exists n e c,
    found = [ ("name", n); ("email", e); ("company_domain", c) ]
    /\ Frame.find_column [ "name"; "full_name"; "contact_name"; "lead_name" ]
         labels = Some n
    /\ Frame.find_column [ "email"; "email_address"; "contact_email" ]
         labels = Some e
    /\ Frame.find_column
         [ "company_domain"; "domain"; "website"; "company_website";
           "company" ] labels = Some c.
Proof.
  unfold Frame.required_mappings. cbn [Frame.find_columns].
  destruct (Frame.find_column [ "name"; _; _; _ ] labels) as [n|];
    [|discriminate].
  destruct (Frame.find_column [ "email"; _; _ ] labels) as [e|];
    [|discriminate].
  destruct (Frame.find_column [ "company_domain"; _; _; _; _ ] labels)
    as [c|]; [|discriminate].
  intros [= <-]. now exists n, e, c.
Qed.

Lemma half_ratio (invalid total : nat) :
  (0 < total)%nat ->
  Py.Qlt_bool 0.5 (Utils.of_nat invalid / Utils.of_nat total) = false ->
  (2 * invalid <= total)%nat.
Proof.
  intros Hpos H. apply not_true_iff_false in H. rewrite Qlt_bool_iff in H.
  apply Qnot_lt_le in H.
  assert (Ht : (0 < Utils.of_nat total)%Q).
  { unfold Utils.of_nat. change 0%Q with (inject_Z 0).
    rewrite <- Zlt_Qlt. lia. }
  assert (Hle : (Utils.of_nat invalid <= 0.5 * Utils.of_nat total)%Q).
  { assert (E : (Utils.of_nat invalid / Utils.of_nat total
                 * Utils.of_nat total == Utils.of_nat invalid)%Q).
    { field. intros E0. rewrite E0 in Ht. now apply Qlt_irrefl in Ht. }
    rewrite <- E. apply Qmult_le_compat_r; [exact H | now apply Qlt_le_weak]. }
  assert (Hz : (inject_Z (2 * Z.of_nat invalid) <= inject_Z (Z.of_nat total))%Q).
  { rewrite inject_Z_mult. unfold Utils.of_nat in Hle.
    change (inject_Z 2) with 2%Q. lra. }
  rewrite <- Zle_Qle in Hz. lia.
Qed.

(** X20: [validate_csv_format] on a table whose labels are distinct and whose
    rows have a cell for each label.  When it accepts the table, it has
    stored a column for each of the three required fields: a label of
    the table whose lowercased and stripped form is one of the names
    allowed for the field; the table has a row, and at most half of the
    cells of the email column fail the email pattern.  A table in which
    no label stands for one of the fields is refused, and nothing is
    stored. *)
Theorem validate_csv_format_accepts (df : Frame.DataFrame)
    (Hlabels : NoDup (Frame.columns df)) (Hrows : Frame.well_formed df) :
  (fst (Frame.validate_csv_format df) = true ->
   exists n e c,
     snd (Frame.validate_csv_format df)
     = Some [ ("name", n); ("email", e); ("company_domain", c) ]
     /\ In n (Frame.columns df)
     /\ In (Frame.normal n)
          [ "name"; "full_name"; "contact_name"; "lead_name" ]
     /\ In e (Frame.columns df)
     /\ In (Frame.normal e) [ "email"; "email_address"; "contact_email" ]
     /\ In c (Frame.columns df)
     /\ In (Frame.normal c)
          [ "company_domain"; "domain"; "website"; "company_website";
            "company" ]
     /\ Frame.data df <> []
     /\ (2 * List.length
               (List.filter
                  (fun row =>
                     negb (Frame.email_matches (Frame.cell df e row)))
                  (Frame.data df))
         <= List.length (Frame.data df))%nat)
  /\ (forall field names,
        In (field, names) Frame.required_mappings ->
        (forall l, In l (Frame.columns df) ->
                   ~ In (Frame.normal l) names) ->
        Frame.validate_csv_format df = (false, None)).
Proof.
  clear Hlabels Hrows. split.
  - unfold Frame.validate_csv_format.
    destruct (Frame.find_columns Frame.required_mappings (Frame.columns df))
      as [found|] eqn:Ef; [|discriminate].
    destruct (find_columns_required _ _ Ef) as (n & e & c & -> & Fn & Fe & Fc).
    destruct (Frame.data df) as [|row rows] eqn:Ed; [discriminate|].
    cbn [Frame.assoc String.eqb Ascii.eqb Bool.eqb].
    change (Frame.assoc "email" _) with (Some e). cbv beta iota.
    destruct (Py.Qlt_bool 0.5 _) eqn:Er; [discriminate|].
    intros _. exists n, e, c. split; [reflexivity|].
    apply find_column_some in Fn as [? ?], Fe as [? ?], Fc as [? ?].
    repeat (split; [assumption|]). split; [discriminate|].
    apply half_ratio; [simpl; lia | exact Er].
  - intros field names Hin Hnone.
    pose proof (proj2 (find_column_none names (Frame.columns df)) Hnone)
      as Hf.
    unfold Frame.validate_csv_format, Frame.required_mappings.
    cbn [Frame.find_columns].
    unfold Frame.required_mappings in Hin. simpl in Hin.
    destruct Hin as [E|[E|[E|[]]]]; injection E as <- <-;
      repeat match goal with
             | |- context [match Frame.find_column ?a ?b with _ => _ end] =>
                 let X := fresh "X" in
                 destruct (Frame.find_column a b) eqn:X
             end;
      try reflexivity; congruence.
Qed.

Lemma sample_table_labels : NoDup (Frame.columns Frame.sample_table).
Proof.
  cbn [Frame.columns Frame.sample_table].
  repeat (apply NoDup_cons; split;
          [rewrite ?elem_of_cons, elem_of_nil; intuition discriminate|]).
  apply NoDup_nil_2.
Qed.

Lemma sample_table_rows : Frame.well_formed Frame.sample_table.
Proof. repeat constructor. Qed.

Lemma validate_csv_format_accepts_witness :
  exists n e c,
    snd (Frame.validate_csv_format Frame.sample_table)
    = Some [ ("name", n); ("email", e); ("company_domain", c) ]
    /\ In n (Frame.columns Frame.sample_table)
    /\ In e (Frame.columns Frame.sample_table)
    /\ In c (Frame.columns Frame.sample_table).
Proof.
  destruct (proj1 (validate_csv_format_accepts Frame.sample_table
                     sample_table_labels sample_table_rows) eq_refl)
    as (n & e & c & E & Hn & _ & He & _ & Hc & _).
  exists n, e, c. split; [exact E|]. split; [exact Hn|].
  split; [exact He | exact Hc].
Defined.

(** ** The labels and the rows after normalisation *)

Lemma rename_absent actual standard labels :
  Frame.mem actual labels = false ->
  Frame.rename actual standard labels = labels.
Proof.
  unfold Frame.mem, Frame.rename.
  induction labels as [|l rest IH]; [reflexivity|].
  cbn [existsb List.map]. rewrite orb_false_iff. intros [E Hrest].
  rewrite String.eqb_sym, E. now rewrite IH.
Qed.

Lemma rename_all_required n e c labels :
  Frame.rename_all [ ("name", n); ("email", e); ("company_domain", c) ]
    labels
  = Frame.rename c "company_domain"
      (Frame.rename e "email" (Frame.rename n "name" labels)).
Proof.
  unfold Frame.rename_all. cbn [fold_left].
  assert (H : forall a s ls,
             (if Frame.mem a ls then Frame.rename a s ls else ls)
             = Frame.rename a s ls).
  { intros a s ls. destruct (Frame.mem a ls) eqn:E; [reflexivity|].
    symmetry. now apply rename_absent. }
  now rewrite !H.
Qed.

Lemma rename_parallel n e c labels :
  "name" <> e -> "name" <> c -> "email" <> c ->
  Frame.rename c "company_domain"
    (Frame.rename e "email" (Frame.rename n "name" labels))
  = List.map
      (fun l =>
         if String.eqb l n then "name"
         else if String.eqb l e then "email"
         else if String.eqb l c then "company_domain"
         else l)
      labels.
Proof.
  intros Hne Hnc Hec. unfold Frame.rename. rewrite !List.map_map.
  apply List.map_ext. intros l.
  destruct (String.eqb_spec l n) as [_|_].
  - destruct (String.eqb_spec "name" e); [contradiction|].
    now destruct (String.eqb_spec "name" c).
  - destruct (String.eqb_spec l e) as [_|_]; [|reflexivity].
    now destruct (String.eqb_spec "email" c).
Qed.

(** The label found for a field is the one whose normal form is the
    first of the possible names, if there is such a label. *)
Lemma index_unique {A} (f : A -> string) p labels i a l :
  NoDup (List.map f labels) ->
  Frame.index p (List.map f labels) = Some i ->
  List.nth_error labels i = Some a ->
  In l labels -> f l = p -> l = a.
Proof.
  revert i. induction labels as [|x xs IH]; intros i Hd Hi Ha Hl Hp;
    [destruct Hl|].
  cbn [List.map] in Hd. apply NoDup_cons in Hd as [Hx Hd].
  cbn [List.map Frame.index] in Hi.
  destruct (String.eqb_spec p (f x)) as [E|N].
  - injection Hi as <-. injection Ha as <-.
    destruct Hl as [->|Hl]; [reflexivity|]. exfalso. apply Hx.
    apply list_elem_of_In, in_map_iff. exists l. split; congruence.
  - destruct (Frame.index p (List.map f xs)) as [j|] eqn:Ej; [|discriminate].
    injection Hi as <-. cbn [List.nth_error] in Ha.
    destruct Hl as [->|Hl]; [congruence|].
    now apply (IH j).
Qed.

Lemma find_column_first p rest labels a l :
  NoDup (List.map Frame.normal labels) ->
  Frame.find_column (p :: rest) labels = Some a ->
  In l labels -> Frame.normal l = p -> l = a.
Proof.
  intros Hd Hf Hl Hp. cbn [Frame.find_column] in Hf.
  destruct (Frame.index p (List.map Frame.normal labels)) as [i|] eqn:Ei.
  - now apply (index_unique Frame.normal p labels i a l).
  - apply index_none in Ei. exfalso. apply Ei.
    apply in_map_iff. now exists l.
Qed.

Lemma names_apart (x : string) :
  (In x [ "name"; "full_name"; "contact_name"; "lead_name" ] ->
   In x [ "email"; "email_address"; "contact_email" ] -> False)
  /\ (In x [ "name"; "full_name"; "contact_name"; "lead_name" ] ->
      In x [ "company_domain"; "domain"; "website"; "company_website";
             "company" ] -> False)
  /\ (In x [ "email"; "email_address"; "contact_email" ] ->
      In x [ "company_domain"; "domain"; "website"; "company_website";
             "company" ] -> False).
Proof.
  repeat split; simpl; intros H1 H2;
    repeat (destruct H1 as [H1|H1]; [subst x|]); try contradiction;
    repeat (destruct H2 as [H2|H2]; [discriminate H2|]); contradiction.
Qed.

Lemma found_columns_apart labels n e c :
  NoDup (List.map Frame.normal labels) ->
  Frame.find_column [ "name"; "full_name"; "contact_name"; "lead_name" ]
    labels = Some n ->
  Frame.find_column [ "email"; "email_address"; "contact_email" ] labels
  = Some e ->
  Frame.find_column
    [ "company_domain"; "domain"; "website"; "company_website"; "company" ]
    labels = Some c ->
  (In "name" labels -> n = "name")
  /\ (In "email" labels -> e = "email")
  /\ (In "company_domain" labels -> c = "company_domain")
  /\ "name" <> e /\ "name" <> c /\ "email" <> c.
Proof.
  intros Hd Fn Fe Fc.
  pose proof (find_column_some _ _ _ Fn) as [_ Nn].
  pose proof (find_column_some _ _ _ Fe) as [_ Ne].
  pose proof (find_column_some _ _ _ Fc) as [_ Nc].
  split; [|split; [|split]].
  - intros H. symmetry. now apply (find_column_first _ _ _ _ _ Hd Fn H).
  - intros H. symmetry. now apply (find_column_first _ _ _ _ _ Hd Fe H).
  - intros H. symmetry. now apply (find_column_first _ _ _ _ _ Hd Fc H).
  - repeat split; intros <-.
    + apply (proj1 (names_apart "name")); [now left | exact Ne].
    + apply (proj1 (proj2 (names_apart "name"))); [now left | exact Nc].
    + apply (proj2 (proj2 (names_apart "email"))); [now left | exact Nc].
Qed.

Lemma relabel_injective labels n e c x y :
  (In "name" labels -> n = "name") ->
  (In "email" labels -> e = "email") ->
  (In "company_domain" labels -> c = "company_domain") ->
  In x labels -> In y labels ->
  (if String.eqb x n then "name"
   else if String.eqb x e then "email"
   else if String.eqb x c then "company_domain" else x)
  = (if String.eqb y n then "name"
     else if String.eqb y e then "email"
     else if String.eqb y c then "company_domain" else y) ->
  x = y.
Proof.
  intros Pn Pe Pc Hx Hy.
  destruct (String.eqb_spec x n), (String.eqb_spec x e),
    (String.eqb_spec x c), (String.eqb_spec y n), (String.eqb_spec y e),
    (String.eqb_spec y c);
    intros E; try congruence; try discriminate E;
    try (subst y; first [ specialize (Pn Hy) | specialize (Pe Hy)
                        | specialize (Pc Hy) ]; congruence);
    try (subst x; first [ specialize (Pn Hx) | specialize (Pe Hx)
                        | specialize (Pc Hx) ]; congruence).
Qed.

Lemma NoDup_map_on {A B} (f : A -> B) (l : list A) :
  (forall x y, In x l -> In y l -> f x = f y -> x = y) ->
  NoDup l -> NoDup (List.map f l).
Proof.
  induction l as [|a l IH]; intros Hinj Hd; [apply NoDup_nil_2|].
  apply NoDup_cons in Hd as [Ha Hd]. cbn [List.map].
  apply NoDup_cons. split.
  - rewrite list_elem_of_In, in_map_iff. intros (x & E & Hx).
    apply Ha, list_elem_of_In.
    rewrite <- (Hinj x a); [exact Hx | now right | now left | exact E].
  - apply IH; [|exact Hd]. intros x y Hx Hy. apply Hinj; now right.
Qed.

Lemma NoDup_of_map {A B} (f : A -> B) (l : list A) :
  NoDup (List.map f l) -> NoDup l.
Proof.
  induction l as [|a l IH]; intros Hd; [apply NoDup_nil_2|].
  cbn [List.map] in Hd. apply NoDup_cons in Hd as [Ha Hd].
  apply NoDup_cons. split; [|now apply IH].
  intros Hin. apply Ha. apply list_elem_of_In, in_map.
  now apply list_elem_of_In.
Qed.

Lemma index_map_on (f : string -> string) labels l :
  (forall x y, In x labels -> In y labels -> f x = f y -> x = y) ->
  In l labels ->
  Frame.index (f l) (List.map f labels) = Frame.index l labels.
Proof.
  induction labels as [|a rest IH]; intros Hinj Hl; [destruct Hl|].
  cbn [List.map Frame.index].
  destruct (String.eqb_spec l a) as [->|N].
  - now rewrite String.eqb_refl.
  - destruct (String.eqb_spec (f l) (f a)) as [E|_].
    + exfalso. apply N, Hinj; [exact Hl | now left | exact E].
    + destruct Hl as [->|Hl]; [congruence|].
      rewrite IH; [reflexivity| |exact Hl].
      intros x y Hx Hy. apply Hinj; now right.
Qed.

(** [apply] on one row and on the rows *)

Lemma apply_at_spec f i row :
  match Frame.apply_at f i row with
  | inr row' =>
      List.length row' = List.length row
      /\ (forall j, j <> i -> List.nth_error row' j = List.nth_error row j)
      /\ (forall v, List.nth_error row i = Some v ->
                    exists s, f v = inr s
                              /\ List.nth_error row' i = Some (Py.Str s))
  | inl err => exists v, List.nth_error row i = Some v /\ f v = inl err
  end.
Proof.
  revert i. induction row as [|c rest IH]; intros i.
  - destruct i; cbn; repeat split; try discriminate; auto;
      intros v Hv; destruct i; discriminate.
  - destruct i as [|i]; cbn [Frame.apply_at].
    + destruct (f c) as [err|s] eqn:E.
      * exists c. now split.
      * repeat split.
        -- intros [|j] Hj; [congruence | reflexivity].
        -- intros v [= <-]. now exists s.
    + specialize (IH i). destruct (Frame.apply_at f i rest) as [err|rest'].
      * exact IH.
      * destruct IH as (Hlen & Hother & Hat). repeat split.
        -- cbn [List.length]. now rewrite Hlen.
        -- intros [|j] Hj; [reflexivity|]. cbn [List.nth_error].
           apply Hother. congruence.
        -- exact Hat.
Qed.

Lemma apply_rows_spec f i rows :
  match Frame.apply_rows f i rows with
  | inr rows' =>
      Forall2 (fun row row' => Frame.apply_at f i row = inr row') rows rows'
  | inl err => exists row, In row rows /\ Frame.apply_at f i row = inl err
  end.
Proof.
  induction rows as [|row rest IH]; [constructor|].
  cbn [Frame.apply_rows].
  destruct (Frame.apply_at f i row) as [err|row'] eqn:E.
  - exists row. split; [now left | exact E].
  - destruct (Frame.apply_rows f i rest) as [err|rest'].
    + destruct IH as (r & Hr & Er). exists r. split; [now right | exact Er].
    + now constructor.
Qed.

Lemma clean_company_domain_raises v err :
  Utils.clean_company_domain v = inl err ->
  err = Py.AttributeError "lower"
  /\ exists q, v = Py.Num q /\ ~ (q == 0)%Q.
Proof.
  destruct v as [s|q]; cbn [Utils.clean_company_domain].
  - destruct s; discriminate.
  - destruct (Qeq_bool q 0) eqn:E; [discriminate|].
    intros [= <-]. split; [reflexivity|]. exists q. split; [reflexivity|].
    intros H. apply Qeq_bool_iff in H. congruence.
Qed.

(** What [normalize_dataframe_columns] does with the mapping stored by a
    validation, on labels whose normal forms are distinct. *)
Lemma normalize_run (df : Frame.DataFrame) n e c :
  NoDup (List.map Frame.normal (Frame.columns df)) ->
  Frame.find_columns Frame.required_mappings (Frame.columns df)
  = Some [ ("name", n); ("email", e); ("company_domain", c) ] ->
  let labels :=
    List.map
      (fun l =>
         if String.eqb l n then "name"
         else if String.eqb l e then "email"
         else if String.eqb l c then "company_domain"
         else l)
      (Frame.columns df) in
  NoDup labels
  /\ In "name" labels /\ In "email" labels /\ In "company_domain" labels
  /\ exists i,
       Frame.index c (Frame.columns df) = Some i
       /\ Frame.index "company_domain" labels = Some i
       /\ match
            Frame.normalize_dataframe_columns df
              (Some [ ("name", n); ("email", e); ("company_domain", c) ])
          with
          | inr out =>
              Frame.columns out = labels
              /\ Forall2
                   (fun row row' =>
                      Frame.apply_at Utils.clean_company_domain i row
                      = inr row')
                   (Frame.data df) (Frame.data out)
          | inl err =>
              exists row,
                In row (Frame.data df)
                /\ Frame.apply_at Utils.clean_company_domain i row = inl err
          end.
Proof.
  intros Hd Hfound labels.
  destruct (find_columns_required _ _ Hfound)
    as (n' & e' & c' & [= <- <- <-] & Fn & Fe & Fc).
  destruct (found_columns_apart _ _ _ _ Hd Fn Fe Fc)
    as (Pn & Pe & Pc & Hne & Hnc & Hec).
  pose proof (find_column_some _ _ _ Fn) as [In_n _].
  pose proof (find_column_some _ _ _ Fe) as [In_e _].
  pose proof (find_column_some _ _ _ Fc) as [In_c _].
  assert (Hinj : forall x y,
             In x (Frame.columns df) -> In y (Frame.columns df) ->
             (if String.eqb x n then "name"
              else if String.eqb x e then "email"
              else if String.eqb x c then "company_domain" else x)
             = (if String.eqb y n then "name"
                else if String.eqb y e then "email"
                else if String.eqb y c then "company_domain" else y) ->
             x = y).
  { intros x y. now apply relabel_injective. }
  assert (Hn : n <> e).
  { intros <-. apply (proj1 (names_apart (Frame.normal n)));
      [apply (find_column_some _ _ _ Fn) | apply (find_column_some _ _ _ Fe)]. }
  assert (Hc1 : c <> n).
  { intros ->. apply (proj1 (proj2 (names_apart (Frame.normal n))));
      [apply (find_column_some _ _ _ Fn) | apply (find_column_some _ _ _ Fc)]. }
  assert (Hc2 : c <> e).
  { intros ->. apply (proj2 (proj2 (names_apart (Frame.normal e))));
      [apply (find_column_some _ _ _ Fe) | apply (find_column_some _ _ _ Fc)]. }
  assert (Rn : In "name" labels).
  { apply in_map_iff. exists n. now rewrite String.eqb_refl. }
  assert (Re : In "email" labels).
  { apply in_map_iff. exists e. split; [|exact In_e].
    destruct (String.eqb_spec e n); [congruence|].
    now rewrite String.eqb_refl. }
  assert (Rc : In "company_domain" labels).
  { apply in_map_iff. exists c. split; [|exact In_c].
    destruct (String.eqb_spec c n); [congruence|].
    destruct (String.eqb_spec c e); [congruence|].
    now rewrite String.eqb_refl. }
  split; [|split; [exact Rn | split; [exact Re | split; [exact Rc|]]]].
  { apply NoDup_map_on; [exact Hinj | now apply (NoDup_of_map Frame.normal)]. }
  destruct (index_in _ _ In_c) as [i Hi]. exists i. split; [exact Hi|].
  assert (Hi' : Frame.index "company_domain" labels = Some i).
  { rewrite <- Hi. subst labels.
    rewrite <- (index_map_on _ (Frame.columns df) c Hinj In_c).
    destruct (String.eqb_spec c n); [congruence|].
    destruct (String.eqb_spec c e); [congruence|].
    now rewrite String.eqb_refl. }
  split; [exact Hi'|].
  unfold Frame.normalize_dataframe_columns.
  rewrite rename_all_required, (rename_parallel _ _ _ _ Hne Hnc Hec).
  fold labels. cbv zeta. rewrite Hi'.
  pose proof (apply_rows_spec Utils.clean_company_domain i (Frame.data df))
    as Hrows.
  destruct (Frame.apply_rows Utils.clean_company_domain i (Frame.data df))
    as [err|rows]; [exact Hrows|].
  now split.
Qed.

Lemma validate_found (df : Frame.DataFrame) mapping :
  Frame.validate_csv_format df = (true, mapping) ->
  exists n e c,
    mapping = Some [ ("name", n); ("email", e); ("company_domain", c) ]
    /\ Frame.find_columns Frame.required_mappings (Frame.columns df)
       = Some [ ("name", n); ("email", e); ("company_domain", c) ].
Proof.
  intros Hv. unfold Frame.validate_csv_format in Hv.
  destruct (Frame.find_columns Frame.required_mappings (Frame.columns df))
    as [found|] eqn:Ef; [|discriminate].
  destruct (find_columns_required _ _ Ef) as (n & e & c & -> & _).
  exists n, e, c. split; [|reflexivity].
  destruct (Frame.data df); [discriminate|].
  change (Frame.assoc "email" _) with (Some e) in Hv.
  cbv beta iota zeta in Hv.
  destruct (Py.Qlt_bool 0.5 _); congruence.
Qed.

(** X21: After [validate_csv_format] has accepted a table whose labels have
    distinct normal forms and whose rows have a cell for each label,
    [normalize_dataframe_columns] with the stored mapping renames the
    three columns found to [name], [email] and [company_domain] and
    leaves the other labels: the new labels are distinct.  It returns
    the rows in their order, each with the cell of the domain column
    replaced by the text [clean_company_domain] gives for it and the
    other cells as they were, unless that cell is a number other than
    zero in some row: then it raises [AttributeError]. *)
Theorem normalize_dataframe_columns_result (df : Frame.DataFrame)
    (mapping : option (list (string * string))) :
  NoDup (List.map Frame.normal (Frame.columns df)) ->
  Frame.well_formed df ->
  Frame.validate_csv_format df = (true, mapping) ->
  exists n e c i,
    mapping = Some [ ("name", n); ("email", e); ("company_domain", c) ]
    /\ Frame.index c (Frame.columns df) = Some i
    /\ let labels :=
         List.map
           (fun l =>
              if String.eqb l n then "name"
              else if String.eqb l e then "email"
              else if String.eqb l c then "company_domain"
              else l)
           (Frame.columns df) in
       NoDup labels
       /\ In "name" labels /\ In "email" labels
       /\ Frame.index "company_domain" labels = Some i
       /\ match Frame.normalize_dataframe_columns df mapping with
          | inr out =>
              Frame.columns out = labels
              /\ Frame.well_formed out
              /\ Forall2
                   (fun row row' =>
                      (forall j, j <> i ->
                                 List.nth_error row' j
                                 = List.nth_error row j)
                      /\ exists v s,
                           List.nth_error row i = Some v
                           /\ Utils.clean_company_domain v = inr s
                           /\ List.nth_error row' i = Some (Py.Str s))
                   (Frame.data df) (Frame.data out)
          | inl err =>
              err = Py.AttributeError "lower"
              /\ exists row q,
                   In row (Frame.data df)
                   /\ List.nth_error row i = Some (Py.Num q)
                   /\ ~ (q == 0)%Q
          end.
Proof.
  intros Hd Hwf Hv.
  destruct (validate_found df mapping Hv) as (n & e & c & -> & Hfound).
  destruct (normalize_run df n e c Hd Hfound)
    as (Hnd & Rn & Re & Rc & i & Hi & Hi' & Hrun).
  exists n, e, c, i. split; [reflexivity|]. split; [exact Hi|].
  cbv zeta. split; [exact Hnd|]. split; [exact Rn|]. split; [exact Re|].
  split; [exact Hi'|].
  assert (Hlt : forall row, In row (Frame.data df) ->
                            (i < List.length row)%nat).
  { intros row Hrow. unfold Frame.well_formed in Hwf.
    rewrite Forall_forall in Hwf.
    rewrite (Hwf row) by now apply list_elem_of_In.
    apply index_some in Hi. apply nth_error_Some. congruence. }
  destruct (Frame.normalize_dataframe_columns df _) as [err|out].
  - destruct Hrun as (row & Hrow & Hat).
    pose proof (apply_at_spec Utils.clean_company_domain i row) as Hs.
    rewrite Hat in Hs. destruct Hs as (v & Hv' & Hf).
    destruct (clean_company_domain_raises _ _ Hf) as (-> & q & -> & Hq).
    split; [reflexivity|]. now exists row, q.
  - destruct Hrun as (Hcols & Hrows). split; [exact Hcols|].
    assert (Hall : Forall2
                     (fun row row' =>
                        In row (Frame.data df)
                        /\ Frame.apply_at Utils.clean_company_domain i row
                           = inr row')
                     (Frame.data df) (Frame.data out)).
    { clear -Hrows. induction Hrows as [|row row' rows rows' H _ IH];
        constructor.
      - split; [now left | exact H].
      - eapply Forall2_impl; [exact IH|]. cbv beta.
        intros r r' [Hin Hr]. split; [now right | exact Hr]. }
    split.
    + unfold Frame.well_formed in *. rewrite Hcols.
      rewrite length_map.
      rewrite Forall_forall in Hwf. apply Forall_forall. intros row' Hin'.
      apply list_elem_of_lookup in Hin' as [k Hk].
      destruct (Forall2_lookup_r _ _ _ _ _ Hall Hk)
        as (row & Hrow & Hin & Hat).
      pose proof (apply_at_spec Utils.clean_company_domain i row) as Hs.
      rewrite Hat in Hs. destruct Hs as (Hlen & _).
      rewrite Hlen. apply Hwf. now apply list_elem_of_In.
    + eapply Forall2_impl; [exact Hall|]. cbv beta.
      intros row row' [Hin Hat].
      pose proof (apply_at_spec Utils.clean_company_domain i row) as Hs.
      rewrite Hat in Hs. destruct Hs as (_ & Hother & Hcell).
      split; [exact Hother|].
      destruct (List.nth_error row i) as [v|] eqn:Ev.
      * destruct (Hcell v eq_refl) as (s & Hf & Hn). now exists v, s.
      * apply nth_error_None in Ev. specialize (Hlt row Hin). lia.
Qed.

Lemma website_table_labels :
  NoDup (List.map Frame.normal (Frame.columns Tables.website_table)).
Proof.
  vm_compute.
  repeat (apply NoDup_cons; split;
          [rewrite ?elem_of_cons, elem_of_nil; intuition discriminate|]).
  apply NoDup_nil_2.
Qed.

Lemma website_table_rows : Frame.well_formed Tables.website_table.
Proof. repeat constructor. Qed.

Lemma normalize_dataframe_columns_result_witness :
  exists n e c i,
    snd (Frame.validate_csv_format Tables.website_table)
    = Some [ ("name", n); ("email", e); ("company_domain", c) ]
    /\ Frame.index c (Frame.columns Tables.website_table) = Some i.
Proof.
  destruct (normalize_dataframe_columns_result Tables.website_table
              (snd (Frame.validate_csv_format Tables.website_table))
              website_table_labels website_table_rows eq_refl)
    as (n & e & c & i & E & Hi & _).
  exists n, e, c, i. split; [exact E | exact Hi].
Defined.

(** ** From the upload to the scores *)

Lemma lookup_zip label labels i (row : list Py.pyval) v :
  Frame.index label labels = Some i ->
  List.nth_error row i = Some v ->
  (list_to_map (zip labels row) : gmap string Py.pyval) !! label = Some v.
Proof.
  revert i row. induction labels as [|l rest IH]; intros i row Hi Hv;
    [discriminate|].
  cbn [Frame.index] in Hi.
  destruct row as [|c cells]; [destruct i; discriminate|].
  cbn [zip_with]. rewrite list_to_map_cons.
  destruct (String.eqb_spec label l) as [->|N].
  - injection Hi as <-. injection Hv as ->. apply lookup_insert_eq.
  - destruct (Frame.index label rest) as [j|] eqn:Ej; [|discriminate].
    injection Hi as <-. rewrite lookup_insert_ne by congruence.
    now apply (IH j).
Qed.

Lemma text_cell label labels (row : list Py.pyval) :
  In label labels ->
  List.length row = List.length labels ->
  Forall Frame.is_text row ->
  exists s,
    (list_to_map (zip labels row) : gmap string Py.pyval) !! label
    = Some (Py.Str s).
Proof.
  intros Hin Hlen Htext. destruct (index_in _ _ Hin) as [i Hi].
  assert (Hlt : (i < List.length row)%nat).
  { rewrite Hlen. apply nth_error_Some. apply index_some in Hi. congruence. }
  destruct (List.nth_error row i) as [v|] eqn:Ev.
  - assert (Hv : Frame.is_text v).
    { rewrite Forall_forall in Htext. apply Htext, list_elem_of_In.
      eapply nth_error_In, Ev. }
    destruct Hv as [s ->]. exists s. now apply (lookup_zip _ _ i).
  - apply nth_error_None in Ev. lia.
Qed.

Lemma iterrows_raw (out : Frame.DataFrame) :
  In "name" (Frame.columns out) ->
  In "email" (Frame.columns out) ->
  In "company_domain" (Frame.columns out) ->
  Frame.well_formed out -> Frame.text_table out ->
  Forall Schema.raw_lead (Frame.iterrows out).
Proof.
  intros Hn He Hc. unfold Frame.well_formed, Frame.text_table, Frame.iterrows.
  induction (Frame.data out) as [|row rows IH]; intros Hwf Ht; [constructor|].
  apply Forall_cons in Hwf as [Hlen Hwf]. apply Forall_cons in Ht as [Hrow Ht].
  cbn [List.map]. constructor; [|now apply IH].
  destruct (text_cell _ _ row Hn Hlen Hrow) as [name En].
  destruct (text_cell _ _ row He Hlen Hrow) as [email Ee].
  destruct (text_cell _ _ row Hc Hlen Hrow) as [domain Ed].
  now exists name, email, domain.
Qed.

Lemma clean_company_domain_text v :
  Frame.is_text v -> exists s, Utils.clean_company_domain v = inr s.
Proof. intros [s ->]. destruct s; cbn [Utils.clean_company_domain]; eauto. Qed.

Lemma apply_at_text i row :
  Forall Frame.is_text row ->
  exists row',
    Frame.apply_at Utils.clean_company_domain i row = inr row'
    /\ Forall Frame.is_text row'
    /\ List.length row' = List.length row.
Proof.
  intros H. revert i. induction H as [|c rest Hc Hrest IH]; intros i.
  - exists []. destruct i; repeat split; constructor.
  - destruct i as [|i]; cbn [Frame.apply_at].
    + destruct (clean_company_domain_text c Hc) as [s ->].
      exists (Py.Str s :: rest). repeat split.
      constructor; [now exists s | exact Hrest].
    + destruct (IH i) as (rest' & -> & Ht & Hl). exists (c :: rest').
      repeat split; [now constructor | cbn [List.length]; now rewrite Hl].
Qed.

Lemma applied_rows_text i rows rows' width :
  Forall2
    (fun row row' =>
       Frame.apply_at Utils.clean_company_domain i row = inr row')
    rows rows' ->
  Forall (Forall Frame.is_text) rows ->
  Forall (fun row => List.length row = width) rows ->
  Forall (Forall Frame.is_text) rows'
  /\ Forall (fun row => List.length row = width) rows'.
Proof.
  induction 1 as [|row row' rows rows' Hrow _ IH]; intros Ht Hw;
    [split; constructor|].
  apply Forall_cons in Ht as [Htr Ht]. apply Forall_cons in Hw as [Hwr Hw].
  destruct (IH Ht Hw) as [IH1 IH2].
  destruct (apply_at_text i row Htr) as (row'' & E & Htext & Hlen).
  rewrite Hrow in E. injection E as <-.
  split; constructor; auto. congruence.
Qed.

(** X22: A table of texts whose labels have distinct normal forms, once
    [validate_csv_format] has accepted it, goes through the whole
    pipeline: [normalize_dataframe_columns] returns a table, and
    [process_leads] on it, with the three weights in place, stores one
    record for each row of the upload, each with a [lead_score] between
    0 and 100. *)
Theorem validated_upload_is_scored (repr_float : Q -> string)
    (scorer : ScoringEngine.t) (df : Frame.DataFrame)
    (processed_leads : option (list (gmap string Py.pyval))) (g : Py.rng) :
  NoDup (List.map Frame.normal (Frame.columns df)) ->
  Frame.well_formed df ->
  Frame.text_table df ->
  fst (Frame.validate_csv_format df) = true ->
  Schema.scoring_weights (ScoringEngine.weights scorer) ->
  Py.rng_ok g ->
  exists normalized_df scored_df g',
    Frame.normalize_dataframe_columns df
      (snd (Frame.validate_csv_format df)) = inr normalized_df
    /\ App.process_leads repr_float scorer (Frame.iterrows normalized_df)
         processed_leads g
       = (Some scored_df, g')
    /\ List.length scored_df = List.length (Frame.data df)
    /\ (forall k record,
          scored_df !! k = Some record ->
          exists total,
            record !! "lead_score" = Some (Py.Num total)
            /\ (0 <= total /\ total <= 100)%Q).
Proof.
  intros Hd Hwf Htext Hv Hw Hg.
  destruct (Frame.validate_csv_format df) as [answer mapping] eqn:Ev.
  cbn [fst snd] in *. subst answer.
  destruct (validate_found df mapping Ev) as (n & e & c & -> & Hfound).
  destruct (normalize_run df n e c Hd Hfound)
    as (_ & Rn & Re & Rc & i & _ & _ & Hrun).
  destruct (Frame.normalize_dataframe_columns df _) as [err|out].
  { destruct Hrun as (row & Hrow & Hat). exfalso.
    unfold Frame.text_table in Htext. rewrite Forall_forall in Htext.
    apply list_elem_of_In, Htext in Hrow.
    destruct (apply_at_text i row Hrow) as (row' & E & _). congruence. }
  destruct Hrun as (Hcols & Hrows).
  destruct (applied_rows_text i _ _ _ Hrows Htext Hwf) as [Ht' Hw'].
  assert (Hraw : Forall Schema.raw_lead (Frame.iterrows out)).
  { apply iterrows_raw; rewrite ?Hcols; try assumption.
    unfold Frame.well_formed. rewrite Hcols, length_map. exact Hw'. }
  destruct (process_leads_run repr_float scorer (Frame.iterrows out)
              processed_leads g Hg Hraw Hw)
    as (scored & g' & E & Hlen & Hrec).
  exists out, scored, g'. split; [reflexivity|]. split; [exact E|].
  assert (Hrows_len : List.length (Frame.iterrows out)
                      = List.length (Frame.data df)).
  { unfold Frame.iterrows. rewrite length_map. symmetry.
    eapply Forall2_length, Hrows. }
  split; [congruence|].
  intros k record Hk.
  assert (Hlt : (k < List.length (Frame.iterrows out))%nat).
  { rewrite <- Hlen. eapply lookup_lt_Some, Hk. }
  apply lookup_lt_is_Some in Hlt as [row Hrow].
  destruct (Hrec k row Hrow) as (record' & total & Hk' & _ & _ & _ & Hs & Hb).
  exists total. split; [congruence | exact Hb].
Qed.

Lemma website_table_texts : Frame.text_table Tables.website_table.
Proof. repeat constructor; eexists; reflexivity. Qed.

Lemma validated_upload_is_scored_witness :
  exists normalized_df scored_df g',
    Frame.normalize_dataframe_columns Tables.website_table
      (snd (Frame.validate_csv_format Tables.website_table))
    = inr normalized_df
    /\ App.process_leads Samples.repr_fraction ScoringEngine.__init__
         (Frame.iterrows normalized_df) None
         (Samples.list_rng [ 0.5; 0.25; 0.75 ]%Q)
       = (Some scored_df, g')
    /\ List.length scored_df = 2%nat.
Proof.
  destruct (validated_upload_is_scored Samples.repr_fraction
              ScoringEngine.__init__ Tables.website_table None
              (Samples.list_rng [ 0.5; 0.25; 0.75 ]%Q)
              website_table_labels website_table_rows website_table_texts
              eq_refl init_scoring_weights
              (list_rng_ok [ 0.5; 0.25; 0.75 ]%Q eq_refl))
    as (out & scored & g' & E1 & E2 & Hlen & _).
  exists out, scored, g'. split; [exact E1|].
  split; [exact E2 | exact Hlen].
Defined.

(** * Tables handed to the enricher and to the scorer *)

(** ** A table that lacks a required column, or a required cell *)

Lemma lookup_zip_absent label labels (row : list Py.pyval) :
  ~ In label labels ->
  (list_to_map (zip labels row) : gmap string Py.pyval) !! label = None.
Proof.
  revert row. induction labels as [|l rest IH]; intros row Hnot;
    [reflexivity|].
  destruct row as [|c cells]; [reflexivity|].
  cbn [zip_with]. rewrite list_to_map_cons.
  rewrite lookup_insert_ne by (intros ->; apply Hnot; now left).
  apply IH. intros Hin. apply Hnot. now right.
Qed.

Lemma lookup_cell (df : Frame.DataFrame) label row v :
  Frame.cell df label row = Some v ->
  (list_to_map (zip (Frame.columns df) row) : gmap string Py.pyval) !! label
  = Some v.
Proof.
  unfold Frame.cell.
  destruct (Frame.index label (Frame.columns df)) as [i|] eqn:Ei;
    [|discriminate].
  intros Hv. now apply (lookup_zip _ _ i).
Qed.

Lemma cell_present (df : Frame.DataFrame) label row :
  In label (Frame.columns df) ->
  List.length row = List.length (Frame.columns df) ->
  is_Some (Frame.cell df label row).
Proof.
  intros Hin Hlen. unfold Frame.cell.
  destruct (index_in _ _ Hin) as [i Hi]. rewrite Hi.
  destruct (List.nth_error row i) as [v|] eqn:Ev; [eauto|].
  apply nth_error_None in Ev. apply index_some in Hi.
  assert (i < List.length (Frame.columns df))%nat
    by (apply nth_error_Some; congruence).
  lia.
Qed.

Lemma enrich_single_lead_non_text row g :
  Py.rng_ok g ->
  is_Some (row !! "name") -> is_Some (row !! "email") ->
  is_Some (row !! "company_domain") ->
  (exists field q,
      In field Schema.required_fields /\ row !! field = Some (Py.Num q)) ->
  exists g',
    LeadEnricher._enrich_single_lead row g
    = (inl (Py.AttributeError "lower"), g').
Proof.
  intros Hg [n Hn] [e He] [d Hd] (field & q & Hin & Hq).
  destruct e as [email|qe].
  2:{ exists g.
      unfold LeadEnricher._enrich_single_lead, Py.bind, Py.getitem.
      now rewrite Hn, He, Hd. }
  destruct n as [name|qn].
  2:{ exists g.
      unfold LeadEnricher._enrich_single_lead, Py.bind, Py.getitem.
      now rewrite Hn, He, Hd. }
  destruct d as [domain|qd].
  { exfalso. destruct Hin as [<-|[<-|[<-|[]]]]; congruence. }
  destruct (succeeds_job_category email name g Hg)
    as (category & g1 & E1 & Hg1 & Hc).
  destruct (job_titles_total category Hc) as (titles & Ht & Hne).
  destruct (succeeds_choice titles Hne g1 Hg1)
    as (title & g2 & E2 & Hg2 & _).
  destruct (succeeds_seniority title email g2 Hg2)
    as (seniority & g3 & E3 & Hg3 & _).
  destruct (succeeds_choice LeadEnricher.tech_stacks
              ltac:(discriminate) g3 Hg3)
    as (tech & g4 & E4 & Hg4 & _).
  exists g4. unfold LeadEnricher._enrich_single_lead.
  unfold Py.bind at 1, Py.getitem at 1. rewrite Hn. unfold Py.ret at 1.
  unfold Py.bind at 1, Py.getitem at 1. rewrite He. unfold Py.ret at 1.
  unfold Py.bind at 1, Py.getitem at 1. rewrite Hd. unfold Py.ret at 1.
  rewrite (bind_inr (LeadEnricher._determine_job_category _ _) _ _ _ _ E1).
  unfold Py.bind at 1, Py.getitem at 1. rewrite Ht. unfold Py.ret at 1.
  rewrite (bind_inr (Py.choice titles) _ _ _ _ E2).
  rewrite (bind_inr (LeadEnricher._determine_seniority _ _) _ _ _ _ E3).
  unfold Py.bind at 1, LeadEnricher._generate_linkedin_url, Py.ret at 1.
  rewrite (bind_inr (Py.choice LeadEnricher.tech_stacks) _ _ _ _ E4).
  reflexivity.
Qed.

Lemma enrich_leads_raises before row after err g :
  Py.rng_ok g ->
  Forall Schema.raw_lead before ->
  (forall h, Py.rng_ok h ->
             exists h', LeadEnricher._enrich_single_lead row h
                        = (inl err, h')) ->
  exists g',
    LeadEnricher.enrich_leads (before ++ row :: after)%list g
    = (inl err, g').
Proof.
  intros Hg Hbefore Hrow. revert g Hg.
  induction Hbefore as [|r before Hr Hbefore IH]; intros g Hg; simpl.
  - destruct (Hrow g Hg) as [g' E]. exists g'. now apply bind_inl.
  - destruct (succeeds_enrich_single_lead r Hr g Hg)
      as (out & g1 & E1 & Hg1 & _).
    destruct (IH g1 Hg1) as (g' & E').
    exists g'. rewrite (bind_inr _ _ _ _ _ E1). now apply bind_inl.
Qed.

Lemma enrich_empty_cell (df : Frame.DataFrame) (g : Py.rng)
    before row after field q :
  Frame.well_formed df ->
  Py.rng_ok g ->
  In "name" (Frame.columns df) -> In "email" (Frame.columns df) ->
  In "company_domain" (Frame.columns df) ->
  Frame.data df = (before ++ row :: after)%list ->
  Forall (fun r => forall f, In f Schema.required_fields ->
                             exists s, Frame.cell df f r = Some (Py.Str s))
    before ->
  In field Schema.required_fields ->
  Frame.cell df field row = Some (Py.Num q) ->
  exists g',
    LeadEnricher.enrich_leads (Frame.iterrows df) g
    = (inl (Py.AttributeError "lower"), g').
Proof.
  intros Hwf Hg Hn He Hd Hdata Hbefore Hfield Hcell.
  unfold Frame.iterrows. rewrite Hdata, List.map_app. cbn [List.map].
  unfold Frame.well_formed in Hwf. rewrite Hdata in Hwf.
  apply Forall_app in Hwf as [_ Hwf].
  apply Forall_cons in Hwf as [Hlen _].
  apply enrich_leads_raises; [exact Hg| |].
  - clear Hdata. induction Hbefore as [|r before Hr Hbefore IH];
      [constructor|].
    cbn [List.map]. constructor; [|exact IH].
    destruct (Hr "name") as [n En]; [simpl; auto|].
    destruct (Hr "email") as [e Ee]; [simpl; auto|].
    destruct (Hr "company_domain") as [d Ed]; [simpl; auto 6|].
    exists n, e, d. split; [|split]; now apply lookup_cell.
  - intros h Hh. apply enrich_single_lead_non_text; [exact Hh| | | |].
    + destruct (cell_present df "name" row Hn Hlen) as [v Hv].
      exists v. now apply lookup_cell.
    + destruct (cell_present df "email" row He Hlen) as [v Hv].
      exists v. now apply lookup_cell.
    + destruct (cell_present df "company_domain" row Hd Hlen) as [v Hv].
      exists v. now apply lookup_cell.
    + exists field, q. split; [exact Hfield | now apply lookup_cell].
Qed.

(** C3, as the code has it: every row that [df.iterrows()] gives carries
    all the columns of the table, so a required field is missing from a
    row only when its column is missing from the table.  Then, as soon as
    the table has a row, [enrich_leads] raises the [KeyError] (the
    [MissingFieldError] of the specification) that names the first
    required field, in the order name, email, company_domain, that has no
    column; no draw is read and no table is returned, whatever the rows
    are.  A table without a [company_domain] column raises the error that
    names [company_domain].  A row whose cell under a required column is
    not a text (an empty cell is the number [nan]) also ends the whole
    call, the rows before it being lost and the rows after it not read,
    but the error is [AttributeError], which names no field. *)
Theorem enrich_missing_field (df : Frame.DataFrame) (g : Py.rng) :
  Frame.well_formed df ->
  let labels := Frame.columns df in
  let run := LeadEnricher.enrich_leads (Frame.iterrows df) g in
  (Frame.data df = [] -> run = (inr [], g))
  /\ (Frame.data df <> [] ->
      (~ In "name" labels -> run = (inl (Py.KeyError "name"), g))
      /\ (In "name" labels -> ~ In "email" labels ->
          run = (inl (Py.KeyError "email"), g))
      /\ (In "name" labels -> In "email" labels ->
          ~ In "company_domain" labels ->
          run = (inl (Py.KeyError "company_domain"), g)))
  /\ (forall before row after field q,
        Py.rng_ok g ->
        In "name" labels -> In "email" labels ->
        In "company_domain" labels ->
        Frame.data df = (before ++ row :: after)%list ->
        Forall (fun r => forall f, In f Schema.required_fields ->
                                   exists s,
                                     Frame.cell df f r = Some (Py.Str s))
          before ->
        In field Schema.required_fields ->
        Frame.cell df field row = Some (Py.Num q) ->
        exists g', run = (inl (Py.AttributeError "lower"), g')).
Proof.
  intros Hwf labels run. unfold run, labels.
  split; [|split].
  - intros E. unfold Frame.iterrows. now rewrite E.
  - intros Hrows.
    destruct (Frame.data df) as [|row rows] eqn:Edata; [congruence|].
    unfold Frame.well_formed in Hwf. rewrite Edata in Hwf.
    apply Forall_cons in Hwf as [Hlen _].
    unfold Frame.iterrows. rewrite Edata. cbn [List.map].
    set (lead := list_to_map (zip (Frame.columns df) row)
                 : gmap string Py.pyval).
    assert (Hfirst : forall field,
              Schema.first_missing lead = Some field ->
              LeadEnricher.enrich_leads
                (lead :: List.map
                           (fun row => list_to_map (zip (Frame.columns df) row))
                           rows) g
              = (inl (Py.KeyError field), g)).
    { intros field Hf. cbn [LeadEnricher.enrich_leads].
      apply bind_inl. now apply enrich_single_lead_missing. }
    assert (Hsome : forall label, In label (Frame.columns df) ->
                                  is_Some (lead !! label)).
    { intros label Hin.
      destruct (cell_present df label row Hin Hlen) as [v Hv].
      exists v. now apply lookup_cell. }
    split; [|split].
    + intros Hn. apply Hfirst. unfold Schema.first_missing.
      unfold lead. now rewrite (lookup_zip_absent "name" _ row Hn).
    + intros Hn He. apply Hfirst. unfold Schema.first_missing.
      destruct (Hsome "name" Hn) as [n ->].
      unfold lead. now rewrite (lookup_zip_absent "email" _ row He).
    + intros Hn He Hd. apply Hfirst. unfold Schema.first_missing.
      destruct (Hsome "name" Hn) as [n ->].
      destruct (Hsome "email" He) as [e ->].
      unfold lead. now rewrite (lookup_zip_absent "company_domain" _ row Hd).
  - intros before row after field q Hg Hn He Hd Hdata Hbefore Hfield Hcell.
    now apply (enrich_empty_cell df g before row after field q).
Qed.

Lemma enrich_missing_field_witness :
  LeadEnricher.enrich_leads (Frame.iterrows Tables.contacts_table)
    (Samples.list_rng [ 0.5%Q ])
  = (inl (Py.KeyError "company_domain"), Samples.list_rng [ 0.5%Q ]).
Proof.
  refine (proj2 (proj2 (proj1 (proj2
            (enrich_missing_field Tables.contacts_table
               (Samples.list_rng [ 0.5%Q ]) _)) _)) _ _ _).
  - repeat constructor.
  - discriminate.
  - simpl. auto.
  - simpl. auto.
  - simpl. intros [H|[H|[]]]; discriminate.
Defined.

(** C3, as stated, fails: in this table the second row has no company
    domain, the cell under the column holding the number that stands for
    an empty cell.  Whatever that number is, [enrich_leads] ends with
    [AttributeError], raised when the size of the company is worked out,
    and not with the error that names [company_domain]. *)
Lemma enrich_empty_cell_counterexample :
  let g := Samples.list_rng [ 0.5; 0.25; 0.75; 0.5; 0.25; 0.75 ]%Q in
  (forall nan,
      Frame.well_formed (Tables.empty_domain_table nan)
      /\ Frame.cell (Tables.empty_domain_table nan) "company_domain"
           [ Py.Str "John Smith"; Py.Str "john.smith@techcorp.com";
             Py.Num nan ]
         = Some (Py.Num nan)
      /\ exists g',
          LeadEnricher.enrich_leads
            (Frame.iterrows (Tables.empty_domain_table nan)) g
          = (inl (Py.AttributeError "lower"), g'))
  /\ Py.AttributeError "lower" <> Py.KeyError "company_domain".
Proof.
  intros g. split; [|discriminate].
  intros nan. split; [repeat constructor|]. split; [reflexivity|].
  apply (enrich_empty_cell (Tables.empty_domain_table nan) g
           [ [ Py.Str "Jane Doe"; Py.Str "jane.doe@acme.com";
               Py.Str "acme.com" ] ]
           [ Py.Str "John Smith"; Py.Str "john.smith@techcorp.com";
             Py.Num nan ]
           [] "company_domain" nan).
  - repeat constructor.
  - now apply list_rng_ok.
  - simpl. auto.
  - simpl. auto.
  - simpl. auto.
  - reflexivity.
  - constructor; [|constructor].
    intros f [<-|[<-|[<-|[]]]]; eexists; reflexivity.
  - simpl. auto.
  - reflexivity.
Qed.

(** ** A table that lacks a column the scorer reads *)

(** X8: A lead that lacks a field the scorer reads raises the [KeyError] of
    the first one it lacks, in the order job_category, seniority_level,
    tech_stack, company_size, and a tech stack that is not a text raises
    [AttributeError]; a weights mapping that lacks a key raises the
    [KeyError] of that key, after the four draws of the sub-scores.  A
    table that lacks the column of such a field is not scored: its first
    row ends the call with that error. *)
Theorem score_errors (repr_float : Q -> string) (self : ScoringEngine.t)
    (lead : gmap string Py.pyval) (g : Py.rng) :
  let run := ScoringEngine._score_single_lead repr_float self lead g in
  let g1 := Py.advance g in
  let g2 := Py.advance g1 in
  let g4 := Py.advance (Py.advance g2) in
  (lead !! "job_category" = None ->
   run = (inl (Py.KeyError "job_category"), g))
  /\ (is_Some (lead !! "job_category") ->
      lead !! "seniority_level" = None ->
      run = (inl (Py.KeyError "seniority_level"), g))
  /\ (is_Some (lead !! "job_category") ->
      is_Some (lead !! "seniority_level") ->
      lead !! "tech_stack" = None ->
      run = (inl (Py.KeyError "tech_stack"), g1))
  /\ (forall q,
        is_Some (lead !! "job_category") ->
        is_Some (lead !! "seniority_level") ->
        lead !! "tech_stack" = Some (Py.Num q) ->
        run = (inl (Py.AttributeError "lower"), g1))
  /\ (forall tech_stack,
        is_Some (lead !! "job_category") ->
        is_Some (lead !! "seniority_level") ->
        lead !! "tech_stack" = Some (Py.Str tech_stack) ->
        lead !! "company_size" = None ->
        run = (inl (Py.KeyError "company_size"), g2))
  /\ (Schema.enriched_lead lead ->
      ScoringEngine.weights self !! "job_title" = None ->
      run = (inl (Py.KeyError "job_title"), g4))
  /\ (Schema.enriched_lead lead ->
      is_Some (ScoringEngine.weights self !! "job_title") ->
      ScoringEngine.weights self !! "tech_stack" = None ->
      run = (inl (Py.KeyError "tech_stack"), g4))
  /\ (Schema.enriched_lead lead ->
      is_Some (ScoringEngine.weights self !! "job_title") ->
      is_Some (ScoringEngine.weights self !! "tech_stack") ->
      ScoringEngine.weights self !! "buying_intent" = None ->
      run = (inl (Py.KeyError "buying_intent"), g4))
  /\ (forall (df : Frame.DataFrame) (g0 : Py.rng),
        Frame.well_formed df ->
        Frame.data df <> [] ->
        let labels := Frame.columns df in
        let table_run :=
          ScoringEngine.score_leads repr_float self (Frame.iterrows df) g0 in
        (~ In "job_category" labels ->
         table_run = (inl (Py.KeyError "job_category"), g0))
        /\ (In "job_category" labels -> ~ In "seniority_level" labels ->
            table_run = (inl (Py.KeyError "seniority_level"), g0))
        /\ (In "job_category" labels -> In "seniority_level" labels ->
            ~ In "tech_stack" labels ->
            table_run = (inl (Py.KeyError "tech_stack"), Py.advance g0))
        /\ (forall first rest tech_stack,
              Frame.data df = first :: rest ->
              In "job_category" labels -> In "seniority_level" labels ->
              Frame.cell df "tech_stack" first = Some (Py.Str tech_stack) ->
              ~ In "company_size" labels ->
              table_run
              = (inl (Py.KeyError "company_size"),
                 Py.advance (Py.advance g0)))).
Proof.
  intros run g1 g2 g4.
  destruct (score_single_lead_raises repr_float self lead g)
    as (H1 & H2 & H3 & H4 & H5 & H6 & H7 & H8).
  do 8 (split; [assumption|]).
  intros df g0 Hwf Hrows labels table_run. unfold table_run, labels.
  destruct (Frame.data df) as [|row rows] eqn:Edata; [congruence|].
  unfold Frame.well_formed in Hwf. rewrite Edata in Hwf.
  apply Forall_cons in Hwf as [Hlen _].
  unfold Frame.iterrows. rewrite Edata. cbn [List.map].
  set (first_lead := list_to_map (zip (Frame.columns df) row)
                     : gmap string Py.pyval).
  assert (Hsome : forall label, In label (Frame.columns df) ->
                                is_Some (first_lead !! label)).
  { intros label Hin.
    destruct (cell_present df label row Hin Hlen) as [v Hv].
    exists v. now apply lookup_cell. }
  assert (Hnone : forall label, ~ In label (Frame.columns df) ->
                                first_lead !! label = None).
  { intros label Hnot. now apply lookup_zip_absent. }
  destruct (score_single_lead_raises repr_float self first_lead g0)
    as (K1 & K2 & K3 & _ & K5 & _).
  cbn [ScoringEngine.score_leads].
  split; [|split; [|split]].
  - intros Hc. apply bind_inl. apply K1. now apply Hnone.
  - intros Hc Hs. apply bind_inl. apply K2; [now apply Hsome|].
    now apply Hnone.
  - intros Hc Hs Ht. apply bind_inl.
    apply K3; [now apply Hsome | now apply Hsome | now apply Hnone].
  - intros first rest tech_stack [= <- <-] Hc Hs Ht Hz. apply bind_inl.
    apply (K5 tech_stack); [now apply Hsome | now apply Hsome | |].
    + now apply lookup_cell.
    + now apply Hnone.
Qed.

Lemma score_errors_witness :
  ScoringEngine._score_single_lead Samples.repr_fraction
    ScoringEngine.__init__ (delete "tech_stack" Samples.enriched_lead)
    (Samples.list_rng [ 0.123%Q ])
  = (inl (Py.KeyError "tech_stack"),
     Py.advance (Samples.list_rng [ 0.123%Q ])).
Proof.
  refine (proj1 (proj2 (proj2
            (score_errors Samples.repr_fraction ScoringEngine.__init__
               (delete "tech_stack" Samples.enriched_lead)
               (Samples.list_rng [ 0.123%Q ])))) _ _ _).
  - vm_compute. eauto.
  - vm_compute. eauto.
  - reflexivity.
Defined.
